(** * NNFastAiTabularModel: preprocessing, dataset assembly, sizing,
      prediction and persistence of the fastai tabular wrapper

    Shallow embedding of
    [tabular/src/autogluon/tabular/models/fastainn/tabular_nn_fastai.py].

    Python exceptions are values of an error monad, the model object is a
    record threaded through the methods that assign to [self], and pandas
    frames are column stores with an explicit row count. *)

From stdpp Require Import gmap strings list fin_maps.
From Stdlib Require Import ZArith Lia.

Open Scope string_scope.

(** ** Python exceptions *)

Inductive PyErr : Type :=
| KeyError (missing : list string)
| ValueError (msg : string)
| AttributeError (msg : string)
| TypeError (msg : string)
| NameError (name : string)
| IndexError (msg : string)
| InvalidIndexError (msg : string).

Inductive Exc (A : Type) : Type :=
| Ok (a : A)
| Raise (e : PyErr).
Arguments Ok {A} a.
Arguments Raise {A} e.

#[global] Instance Exc_ret : MRet Exc := λ A a, Ok a.
#[global] Instance Exc_bind : MBind Exc :=
  λ A B f m, match m with Ok a => f a | Raise e => Raise e end.
#[global] Instance Exc_fmap : FMap Exc :=
  λ A B f m, match m with Ok a => Ok (f a) | Raise e => Raise e end.

(** A [for] loop whose body may raise: the first exception ends the loop. *)
Fixpoint for_each {A S : Type} (body : S → A → Exc S) (l : list A) (s : S)
  : Exc S :=
  match l with
  | [] => Ok s
  | a :: l' => s' ← body s a; for_each body l' s'
  end.

(** [try: body / except: handler] with a bare [except]. *)
Definition try_except {A : Type} (body : Exc A) (handler : A) : A :=
  match body with Ok a => a | Raise _ => handler end.

(** ** Module constants *)

Definition LABEL : string := "__label__".
Definition MISSING : string := "__!#ag_internal_missing#!__".

(** Hyperparameter values, as far as the modelled code inspects them. *)
Inductive PyVal : Type :=
| PyNone
| PyInt (n : Z)
| PyStr (s : string)
| PyList (l : list Z).

(** Problem types and raw feature types of [autogluon.core]. *)
Inductive ProblemType : Type := BINARY | MULTICLASS | REGRESSION.

Inductive RawType : Type :=
| R_OBJECT | R_INT | R_FLOAT | R_DATETIME | R_CATEGORY | R_BOOL.

#[global] Instance ProblemType_eq_dec : EqDecision ProblemType.
Proof. solve_decision. Defined.
#[global] Instance RawType_eq_dec : EqDecision RawType.
Proof. solve_decision. Defined.

#[global] Instance PyVal_eq_dec : EqDecision PyVal.
Proof. solve_decision. Defined.

(** [d.get(k, default)], [d[k]] and [k in d.keys()] *)
Definition dict_get {V : Type} (d : gmap string V) (k : string) (dflt : V) : V :=
  default dflt (d !! k).

Definition dict_getitem {V : Type} (d : gmap string V) (k : string) : Exc V :=
  match d !! k with
  | Some v => Ok v
  | None => Raise (KeyError [k])
  end.

Definition dict_contains {V : Type} (d : gmap string V) (k : string) : bool :=
  bool_decide (is_Some (d !! k)).

(** [n > v] for a Python int [n] *)
Definition py_int_gt (n : Z) (v : PyVal) : Exc bool :=
  match v with
  | PyInt b => Ok (bool_decide (b < n)%Z)
  | PyList _ => Raise (TypeError "'>' not supported between 'int' and 'list'")
  | PyStr _ => Raise (TypeError "'>' not supported between 'int' and 'str'")
  | PyNone => Raise (TypeError "'>' not supported between 'int' and 'NoneType'")
  end.

(** ** The metrics table of [__get_objective_func_name] *)

Inductive FastaiMetric : Type :=
| _rmse | mse | mae | R2Score | accuracy
| FBeta (beta : Z) (average : string)
| RocAucBinary
| Precision (average : string)
| Recall (average : string).

Definition metrics_map : gmap string (option FastaiMetric) :=
  list_to_map [
    ("root_mean_squared_error", Some _rmse);
    ("mean_squared_error", Some mse);
    ("mean_absolute_error", Some mae);
    ("r2", Some R2Score);
    ("accuracy", Some accuracy);
    ("f1", Some (FBeta 1 "binary"));
    ("f1_macro", Some (FBeta 1 "macro"));
    ("f1_micro", Some (FBeta 1 "micro"));
    ("f1_weighted", Some (FBeta 1 "weighted"));
    ("roc_auc", Some RocAucBinary);
    ("precision", Some (Precision "binary"));
    ("precision_macro", Some (Precision "macro"));
    ("precision_micro", Some (Precision "micro"));
    ("precision_weighted", Some (Precision "weighted"));
    ("recall", Some (Recall "binary"));
    ("recall_macro", Some (Recall "macro"));
    ("recall_micro", Some (Recall "micro"));
    ("recall_weighted", Some (Recall "weighted"));
    ("log_loss", None)
  ].

(** Records handed to the module logger. *)
Record LogRecord : Type := mkLog {
  levelno : Z;
  message : string
}.

Definition WARNING : Z := 30.

(** The two values [__get_objective_func_name] reads from [self]. *)
Definition __get_objective_func_name (problem_type : ProblemType)
    (stopping_metric_name : string)
  : (option FastaiMetric * string) * list LogRecord :=
  let objective_func_name := stopping_metric_name in
  let '(objective_func_name, log) :=
    if negb (dict_contains metrics_map objective_func_name) then
      let objective_func_name :=
        if decide (problem_type = REGRESSION)
        then "mean_squared_error" else "log_loss" in
      (objective_func_name,
       [mkLog WARNING
          ("Metric " +:+ stopping_metric_name +:+
           " is not supported by this model - using " +:+
           objective_func_name +:+ " instead")])
    else (objective_func_name, []) in
  let nn_metric :=
    if dict_contains metrics_map objective_func_name
    then dict_get metrics_map objective_func_name None
    else None in
  ((nn_metric, objective_func_name), log).

(** ** Network sizing and batch size in [_fit] *)

(** The [layers] chosen by [_fit]; [data_c] is [data.c], the number of
    classes of the assembled data. *)
Definition _fit_layers (params : gmap string PyVal) (problem_type : ProblemType)
    (data_c : Z) : Exc PyVal :=
  if decide (dict_get params "layers" PyNone ≠ PyNone) then
    dict_getitem params "layers"
  else if decide (problem_type ∈ [REGRESSION; BINARY]) then
    Ok (PyList [200; 100]%Z)
  else
    let base_size := Z.max (data_c * 2) 100 in
    Ok (PyList [base_size * 2; base_size]%Z).

(** The multi-class layer sizes as the specification words them: the hidden
    width and half of it. *)
Definition spec_multiclass_layers (num_classes : Z) : list Z :=
  let width := Z.max (2 * num_classes) 100 in
  [width; width / 2]%Z.

(** The [bs] argument of [data.dataloaders]; [len_X] is [len(X)]. *)
Definition _fit_bs (params : gmap string PyVal) (len_X : nat) : Exc PyVal :=
  bs ← dict_getitem params "bs";
  above ← py_int_gt (Z.of_nat len_X) bs;
  if (above : bool) then dict_getitem params "bs" else Ok (PyInt 32).


(** ** [__get_objective_func_to_monitor] and the objective chosen by [_fit] *)

Definition monitor_obj_func : gmap string string :=
  list_to_map [
    ("roc_auc", "auroc");
    ("f1", "f_beta");
    ("f1_macro", "f_beta");
    ("f1_micro", "f_beta");
    ("f1_weighted", "f_beta");
    ("precision_macro", "precision");
    ("precision_micro", "precision");
    ("precision_weighted", "precision");
    ("recall_macro", "recall");
    ("recall_micro", "recall");
    ("recall_weighted", "recall");
    ("log_loss", "valid_loss")
  ].

Definition __get_objective_func_to_monitor (objective_func_name : string)
  : string :=
  let objective_func_name_to_monitor := objective_func_name in
  match monitor_obj_func !! objective_func_name with
  | Some monitor => monitor
  | None => objective_func_name_to_monitor
  end.

(** The comparison handed to the callbacks. *)
Inductive NpCompare : Type := np_less | np_greater.

Definition regression_objectives : list string :=
  ["root_mean_squared_error"; "mean_squared_error"; "mean_absolute_error"; "r2"].

(** What [_fit] derives from the stopping metric: the fastai metric, the
    objective name, the name to monitor, the comparison, the position of the
    score in the result of [validate], and what was logged. *)
Record FitObjective : Type := mkFitObjective {
  nn_metric : option FastaiMetric;
  objective_func_name : string;
  objective_func_name_to_monitor : string;
  objective_optim_mode : NpCompare;
  eval_result_index : nat;
  objective_log : list LogRecord
}.

Definition _fit_objective (problem_type : ProblemType)
    (stopping_metric_name : string) : FitObjective :=
  let '((nn_metric, objective_func_name), log) :=
    __get_objective_func_name problem_type stopping_metric_name in
  mkFitObjective nn_metric objective_func_name
    (__get_objective_func_to_monitor objective_func_name)
    (if decide (objective_func_name ∈ regression_objectives)
     then np_less else np_greater)
    (if decide (objective_func_name = "log_loss") then 0 else 1)
    log.

Section WithNumbers.

(** Number-like cell contents (int64, float64, timestamps) are kept
    abstract: the code under study moves them around and never inspects
    them. A missing cell (NaN, None, NaT) is [None]. *)
Context {F : Type} `{!EqDecision F}.

(** ** pandas values *)

Inductive Scalar : Type :=
| Str (s : string)
| Num (x : F).

#[global] Instance Scalar_eq_dec : EqDecision Scalar.
Proof. solve_decision. Defined.

(** The dtype of a column, as far as the modelled operations tell dtypes
    apart: a categorical with its categories; a number column (int64,
    float64); and [DObject] for every other column, object and datetime64
    alike. pandas 1.x, which the module is written for, treats the two in
    the same way wherever the module touches them: [describe(include='all')]
    counts the distinct values of both, neither has a [.cat] accessor,
    [fillna] with a value of the column's kind keeps both, and [concat]
    keeps both when the pieces agree. *)
Inductive Dtype : Type :=
| DCategory (categories : list Scalar)
| DNumeric
| DObject.

#[global] Instance Dtype_eq_dec : EqDecision Dtype.
Proof. solve_decision. Defined.

Record Series : Type := mkSeries {
  dtype : Dtype;
  cells : list (option Scalar)
}.

(** A frame with a default (positional) row index: every operation of the
    model that builds a frame either keeps the rows or resets the index. *)
Record DataFrame : Type := mkFrame {
  nrows : nat;
  columns : list (string * Series)
}.

Definition col_names (df : DataFrame) : list string := (columns df).*1.

(** Frames as pandas builds them: unique labels, columns as long as the index. *)
Definition frame_wf (df : DataFrame) : Prop :=
  NoDup (col_names df) ∧
  Forall (λ kc, length (cells kc.2) = nrows df) (columns df).

Fixpoint find_col (c : string) (cols : list (string * Series)) : option Series :=
  match cols with
  | [] => None
  | (k, s) :: cols' => if decide (k = c) then Some s else find_col c cols'
  end.

(** [df[c]] *)
Definition getitem (df : DataFrame) (c : string) : Exc Series :=
  match find_col c (columns df) with
  | Some s => Ok s
  | None => Raise (KeyError [c])
  end.

(** [df[cs]] with a list of labels: the listed columns in the listed order;
    [KeyError] naming the labels that are not in the frame. *)
Definition getitem_list (df : DataFrame) (cs : list string) : Exc DataFrame :=
  match filter (λ c, c ∉ col_names df) cs with
  | [] =>
      Ok (mkFrame (nrows df)
            (omap (λ c, pair c <$> find_col c (columns df)) cs))
  | missing => Raise (KeyError missing)
  end.

(** Alignment of a positionally indexed series on a positional index of
    [n] rows: surplus rows are dropped, absent rows are missing cells. *)
Definition reindex (n : nat) (cs : list (option Scalar)) : list (option Scalar) :=
  take n cs ++ replicate (n - length cs) None.

(** pandas' [_ensure_valid_index]: a frame without rows takes the index of
    the first non-empty series assigned to it. *)
Definition ensure_valid_index (df : DataFrame) (s : Series) : DataFrame :=
  if decide (nrows df = 0 ∧ 0 < length (cells s)) then
    mkFrame (length (cells s))
      (prod_map id (λ col, mkSeries (dtype col)
                             (replicate (length (cells s)) None))
         <$> columns df)
  else df.

Definition set_col (c : string) (s : Series) (cols : list (string * Series))
  : list (string * Series) :=
  if decide (c ∈ cols.*1)
  then (λ kc, if decide (kc.1 = c) then (kc.1, s) else kc) <$> cols
  else cols ++ [(c, s)].

(** [df[c] = s] *)
Definition setitem (df : DataFrame) (c : string) (s : Series) : DataFrame :=
  let df := ensure_valid_index df s in
  mkFrame (nrows df)
    (set_col c (mkSeries (dtype s) (reindex (nrows df) (cells s))) (columns df)).

(** [s.cat.add_categories(new)] *)
Definition cat_add_categories (s : Series) (new : Scalar) : Exc Series :=
  match dtype s with
  | DCategory cats =>
      if decide (new ∈ cats)
      then Raise (ValueError "new categories must not include old categories")
      else Ok (mkSeries (DCategory (cats ++ [new])) (cells s))
  | _ => Raise (AttributeError "Can only use .cat accessor with a 'category' dtype")
  end.

Definition fill_cell (x : Scalar) (o : option Scalar) : option Scalar :=
  match o with Some y => Some y | None => Some x end.

Definition has_null (cs : list (option Scalar)) : bool :=
  bool_decide (None ∈ cs).

(** [s.fillna(v)]; [v = None] is a NaN fill value, which changes nothing.
    A categorical only accepts one of its categories; a numeric column that
    receives a string becomes an object column. *)
Definition fillna (s : Series) (v : option Scalar) : Exc Series :=
  match v with
  | None => Ok s
  | Some x =>
      match dtype s, x with
      | DCategory cats, _ =>
          if decide (x ∈ cats)
          then Ok (mkSeries (dtype s) (fill_cell x <$> cells s))
          else Raise (TypeError "Cannot setitem on a Categorical with a new category")
      | DNumeric, Str _ =>
          Ok (mkSeries (if has_null (cells s) then DObject else DNumeric)
                (fill_cell x <$> cells s))
      | _, _ => Ok (mkSeries (dtype s) (fill_cell x <$> cells s))
      end
  end.

(** ** Collaborators of the model object *)

(** [X.describe(include='all').T.reset_index()], as far as the model reads
    it: the ['index'] column (one row per column of [X]) and the ['unique']
    column, which exists only when some column of [X] is not a number
    column (categorical, object or datetime64) and is NaN on the rows of
    number columns. *)
Record DescribeT : Type := mkDescribeT {
  stats_index : list string;
  stats_unique : option (list (option Z))
}.

(** Number columns: the ones [describe] summarises by mean and quantiles,
    without a ['unique'] entry. *)
Definition is_numeric (d : Dtype) : bool :=
  match d with DNumeric => true | _ => false end.

Definition nunique (s : Series) : Z :=
  Z.of_nat (length (remove_dups (omap id (cells s)))).

Definition describe_T (X : DataFrame) : Exc DescribeT :=
  if decide (columns X = [])
  then Raise (ValueError "Cannot describe a DataFrame without columns")
  else Ok (mkDescribeT (col_names X)
             (if forallb (λ kc, is_numeric (dtype kc.2)) (columns X)
              then None
              else Some ((λ kc, if is_numeric (dtype kc.2) then None
                                else Some (nunique kc.2)) <$> columns X))).

(** [stats['unique']] *)
Definition stats_getitem_unique (stats : DescribeT) : Exc (list (option Z)) :=
  match stats_unique stats with
  | Some u => Ok u
  | None => Raise (KeyError ["unique"])
  end.

(** [u > threshold] on an object column holding ints and NaN: elementwise
    against a number or a sequence of the same length; NaN compares false,
    and so does every entry against [None]; an int against a string is a
    [TypeError]. *)
Definition gt_cell (u : option Z) (t : Z) : bool :=
  match u with Some n => bool_decide (t < n)%Z | None => false end.

Definition series_gt (u : list (option Z)) (threshold : PyVal) : Exc (list bool) :=
  match threshold with
  | PyInt t => Ok ((λ x, gt_cell x t) <$> u)
  | PyList l =>
      if decide (length l = length u)
      then Ok (zip_with gt_cell u l)
      else Raise (ValueError "Lengths must match to compare")
  | PyStr _ =>
      if forallb (λ x, bool_decide (x = None)) u
      then Ok ((λ _, false) <$> u)
      else Raise (TypeError
                    "'>' not supported between instances of 'int' and 'str'")
  | PyNone => Ok ((λ _, false) <$> u)
  end.

Definition series_isna (u : list (option Z)) : list bool :=
  (λ x, bool_decide (x = None)) <$> u.

(** Boolean-mask selection of the ['index'] values. *)
Definition mask_select (mask : list bool) (idx : list string) : list string :=
  (filter (λ bk, bk.1 = true) (zip mask idx)).*2.

(** [feature_metadata.get_features(valid_raw_types=...)] *)
Definition get_features (metadata : list (string * RawType))
    (valid_raw_types : list RawType) : list string :=
  (filter (λ kt, kt.2 ∈ valid_raw_types) metadata).*1.

(** A target scaler, applied entry by entry when predictions are mapped
    back to the original scale. *)
Record Scaler : Type := mkScaler {
  inverse_transform : F → F
}.

(** The fastai learner. [get_preds] stands for [dls.test_dl(X)] followed by
    [get_preds(dl=...)]: one row of outputs per row of the batch. *)
Record Learner : Type := mkLearner {
  get_preds : DataFrame → Exc (list (list F));
  learner_dls : DataFrame;
  learner_opt : option (list F);
  learner_path : string
}.

(** ** The model object *)

(** The attributes of [self] that the modelled methods read or assign.
    [__init__] leaves the schema attributes at [None]; the first fit-time
    call of [_preprocess] assigns all of them, and every statement below is
    about a model that went through it, so they are plain values here. *)
Record NNFastAiTabularModel : Type := mkModel {
  path : string;
  problem_type : ProblemType;
  stopping_metric : string;
  params : gmap string PyVal;
  feature_metadata : list (string * RawType);
  cat_columns : list string;
  cont_columns : list string;
  columns_fills : gmap string (option Scalar);
  _inner_features : list string;
  y_scaler : option Scaler;
  model : option Learner;
  _load_model : option bool
}.

Definition set_cat_columns (v : list string) (m : NNFastAiTabularModel) :=
  mkModel (path m) (problem_type m) (stopping_metric m) (params m)
    (feature_metadata m) v (cont_columns m) (columns_fills m)
    (_inner_features m) (y_scaler m) (model m) (_load_model m).

Definition set_cont_columns (v : list string) (m : NNFastAiTabularModel) :=
  mkModel (path m) (problem_type m) (stopping_metric m) (params m)
    (feature_metadata m) (cat_columns m) v (columns_fills m)
    (_inner_features m) (y_scaler m) (model m) (_load_model m).

Definition set_columns_fills (v : gmap string (option Scalar))
    (m : NNFastAiTabularModel) :=
  mkModel (path m) (problem_type m) (stopping_metric m) (params m)
    (feature_metadata m) (cat_columns m) (cont_columns m) v
    (_inner_features m) (y_scaler m) (model m) (_load_model m).

Definition set_inner_features (v : list string) (m : NNFastAiTabularModel) :=
  mkModel (path m) (problem_type m) (stopping_metric m) (params m)
    (feature_metadata m) (cat_columns m) (cont_columns m) (columns_fills m)
    v (y_scaler m) (model m) (_load_model m).

Definition set_model (v : option Learner) (m : NNFastAiTabularModel) :=
  mkModel (path m) (problem_type m) (stopping_metric m) (params m)
    (feature_metadata m) (cat_columns m) (cont_columns m) (columns_fills m)
    (_inner_features m) (y_scaler m) v (_load_model m).

Definition set_load_model (v : option bool) (m : NNFastAiTabularModel) :=
  mkModel (path m) (problem_type m) (stopping_metric m) (params m)
    (feature_metadata m) (cat_columns m) (cont_columns m) (columns_fills m)
    (_inner_features m) (y_scaler m) (model m) v.

(** [self.columns_fills[c]] *)
Definition fills_getitem (m : NNFastAiTabularModel) (c : string)
  : Exc (option Scalar) :=
  match columns_fills m !! c with
  | Some v => Ok v
  | None => Raise (KeyError [c])
  end.

(** ** [_fill_missing] *)

Definition fill_cat_step (m : NNFastAiTabularModel) (df : DataFrame)
    (c : string) : Exc DataFrame :=
  s ← getitem df c;
  s ← cat_add_categories s (Str MISSING);
  let df := setitem df c s in
  s ← getitem df c;
  v ← fills_getitem m c;
  s ← fillna s v;
  mret (setitem df c s).

Definition fill_cont_step (m : NNFastAiTabularModel) (df : DataFrame)
    (c : string) : Exc DataFrame :=
  s ← getitem df c;
  v ← fills_getitem m c;
  s ← fillna s v;
  mret (setitem df c s).

Definition _fill_missing (m : NNFastAiTabularModel) (df : DataFrame)
  : Exc DataFrame :=
  df ← getitem_list df (_inner_features m);
  df ← for_each (fill_cat_step m) (cat_columns m) df;
  for_each (fill_cont_step m) (cont_columns m) df.

(** ** [_preprocess] *)

(** [AbstractModel._preprocess] and the mean of a pandas column belong to
    code outside the module; both are parameters of the development. *)
Variable super_preprocess : DataFrame → Exc DataFrame.
Variable series_mean : Series → Exc (option F).

(** The body of the [try] block: the labels whose ['unique'] statistic is
    above the configured threshold or NaN. *)
Definition cat_cols_to_drop_stats (m : NNFastAiTabularModel) (X : DataFrame)
  : Exc (list string) :=
  X_stats ← describe_T X;
  u ← stats_getitem_unique X_stats;
  gt ← series_gt u
         (dict_get (params m) "max_unique_categorical_values" (PyInt 10000));
  mret (mask_select (zip_with orb gt (series_isna u)) (stats_index X_stats)).

(** [for c in self.cont_columns: self.columns_fills[c] = X[c].mean()];
    the dictionary keeps the entries written before an exception. *)
Fixpoint fill_means (X : DataFrame) (cs : list string)
    (fills : gmap string (option Scalar))
  : gmap string (option Scalar) * Exc unit :=
  match cs with
  | [] => (fills, Ok ())
  | c :: cs' =>
      match s ← getitem X c; series_mean s with
      | Ok mu => fill_means X cs' (<[c := Num <$> mu]> fills)
      | Raise e => (fills, Raise e)
      end
  end.

(** The fit branch after the [try] block, for a given [cat_cols_to_drop]. *)
Definition fit_schema_with (cat_cols_to_drop : list string)
    (m : NNFastAiTabularModel) (X : DataFrame)
  : NNFastAiTabularModel * Exc unit :=
  let cat_cols_to_keep := filter (λ col, col ∉ cat_cols_to_drop) (col_names X) in
  let cat_cols_to_use := filter (λ col, col ∈ cat_cols_to_keep) (cat_columns m) in
  let m := set_cat_columns cat_cols_to_use m in
  let m := set_cat_columns (filter (λ f, f ∈ col_names X) (cat_columns m)) m in
  let m := set_cont_columns (filter (λ f, f ∈ col_names X) (cont_columns m)) m in
  let m := set_columns_fills ∅ m in
  let m := set_columns_fills
             (foldl (λ fills c, <[c := Some (Str MISSING)]> fills)
                (columns_fills m) (cat_columns m)) m in
  let (fills, r) := fill_means X (cont_columns m) (columns_fills m) in
  let m := set_columns_fills fills m in
  match r with
  | Raise e => (m, Raise e)
  | Ok _ => (set_inner_features (cat_columns m ++ cont_columns m) m, Ok ())
  end.

(** The metadata lookups that open the fit branch. *)
Definition fit_schema_init (m : NNFastAiTabularModel) : NNFastAiTabularModel :=
  let m := set_cat_columns
             (get_features (feature_metadata m) [R_OBJECT; R_CATEGORY; R_BOOL]) m in
  set_cont_columns
    (get_features (feature_metadata m) [R_INT; R_FLOAT; R_DATETIME]) m.

Definition fit_schema (m : NNFastAiTabularModel) (X : DataFrame)
  : NNFastAiTabularModel * Exc unit :=
  let m := fit_schema_init m in
  let cat_cols_to_drop := try_except (cat_cols_to_drop_stats m X) [] in
  fit_schema_with cat_cols_to_drop m X.

Definition _preprocess (m : NNFastAiTabularModel) (X : DataFrame) (fit : bool)
  : NNFastAiTabularModel * Exc DataFrame :=
  match super_preprocess X with
  | Raise e => (m, Raise e)
  | Ok X =>
      if fit then
        match fit_schema m X with
        | (m, Raise e) => (m, Raise e)
        | (m, Ok _) => (m, _fill_missing m X)
        end
      else (m, _fill_missing m X)
  end.

(** ** [pd.concat] and [_generate_datasets] *)

(** Labels in order of first appearance. *)
Definition add_label (seen : list string) (c : string) : list string :=
  if decide (c ∈ seen) then seen else seen ++ [c].

Definition nub (l : list string) : list string := foldl add_label [] l.

(** The dtype of a concatenation: kept when all pieces agree, object
    otherwise. *)
Definition join_dtypes (ds : list Dtype) : Dtype :=
  match ds with
  | [] => DObject
  | d :: ds' => if decide (Forall (λ d', d' = d) ds') then d else DObject
  end.

Definition concat_series (pieces : list Series) : Series :=
  mkSeries (join_dtypes (dtype <$> pieces)) (concat (cells <$> pieces)).

(** The rows a frame contributes to column [c] of a concatenation: missing
    cells when the frame has no such column. *)
Definition piece_of (c : string) (df : DataFrame) : Series :=
  match find_col c (columns df) with
  | Some s => s
  | None => mkSeries DNumeric (replicate (nrows df) None)
  end.

(** Column [c] of a concatenation of frames with unique labels: the rows of
    the frames in order, with the dtype that the frames holding the column
    agree on; a frame without the column has no say in the dtype. *)
Definition concat_column (c : string) (frames : list DataFrame) : Series :=
  mkSeries
    (join_dtypes (omap (λ df, dtype <$> find_col c (columns df)) frames))
    (concat ((λ df, cells (piece_of c df)) <$> frames)).

(** The columns of a concatenation of frames that all carry the same list
    of labels: stacked position by position, no label is looked up. *)
Definition stack_columns (frames : list DataFrame)
  : list (string * Series) :=
  match frames with
  | [] => []
  | first :: _ =>
      imap (λ j kc,
              (kc.1, concat_series
                       (omap (λ df, snd <$> columns df !! j) frames)))
        (columns first)
  end.

(** [pd.concat(objs, ignore_index=True)] on frames (and
    [pd.concat(objs).reset_index(drop=True)], which yields the same
    positional frame): [None] entries are skipped and rows are stacked.
    Frames with unique labels get the union of their columns, in order of
    first appearance. Frames that all carry the same list of labels are
    stacked as they are, repeated labels included. Otherwise a frame with a
    repeated label would have to be reindexed on the union, which pandas
    refuses. *)
Definition pd_concat (objs : list (option DataFrame)) : Exc DataFrame :=
  match omap id objs with
  | [] => Raise (ValueError "All objects passed were None")
  | frames =>
      let labels := col_names <$> frames in
      if decide (Forall (λ l, NoDup l) labels) then
        Ok (mkFrame (sum_list (nrows <$> frames))
              ((λ c, (c, concat_column c frames)) <$> nub (concat labels)))
      else if decide (Forall (λ l, l = default [] (head labels)) labels) then
        Ok (mkFrame (sum_list (nrows <$> frames)) (stack_columns frames))
      else
        Raise (InvalidIndexError
                 "Reindexing only valid with uniquely valued Index objects")
  end.

(** [pd.concat(objs, ignore_index=True)] on series. *)
Definition pd_concat_series (objs : list (option Series)) : Exc Series :=
  match omap id objs with
  | [] => Raise (ValueError "All objects passed were None")
  | pieces => Ok (concat_series pieces)
  end.

(** [np.arange(n)] and the elementwise [a + k]. The entries stay far below
    the int64 range: each array is held in memory. *)
Definition np_arange (n : nat) : list nat := seq 0 n.
Definition np_add (a : list nat) (k : nat) : list nat := (λ i, i + k) <$> a.

Definition _generate_datasets (X : DataFrame) (y : Series)
    (X_val : option DataFrame) (y_val : option Series)
  : Exc (DataFrame * list nat * list nat) :=
  df_train ← pd_concat [Some X; X_val];
  labels ← pd_concat_series [Some y; y_val];
  let df_train := setitem df_train LABEL labels in
  let train_idx := np_arange (nrows X) in
  match X_val with
  | None =>
      let val_idx := np_add train_idx (length train_idx) in
      df_train ← pd_concat [Some df_train; Some df_train];
      mret (df_train, train_idx, val_idx)
  | Some X_val' =>
      let val_idx := np_add (np_arange (nrows X_val')) (nrows X) in
      mret (df_train, train_idx, val_idx)
  end.

(** Positional cell access, used to state what a frame holds. *)
Definition cell (df : DataFrame) (c : string) (i : nat) : option (option Scalar) :=
  s ← find_col c (columns df); cells s !! i.

(** ** [_predict_proba] *)

(** The values returned to the caller: a flat array, or one row per input
    row. *)
Inductive ndarray : Type :=
| Arr1 (a : list F)
| Arr2 (a : list (list F)).

(** [a[:n]] along the first axis. *)
Definition arr_take (n : nat) (a : ndarray) : ndarray :=
  match a with
  | Arr1 l => Arr1 (take n l)
  | Arr2 l => Arr2 (take n l)
  end.

(** [preds[:, 1]] *)
Definition column_1 (preds : list (list F)) : Exc (list F) :=
  match mapM (λ row : list F, row !! 1) preds with
  | Some col => Ok col
  | None => Raise (IndexError "index 1 is out of bounds for dimension 1")
  end.

(** [self.model.dls] and [self.model.get_preds] on an absent model. *)
Definition model_handle (m : NNFastAiTabularModel) : Exc Learner :=
  match model m with
  | Some learner => Ok learner
  | None => Raise (AttributeError "'NoneType' object has no attribute 'dls'")
  end.

(** [self.preprocess(X)] reaches [_preprocess] with [fit] left at its
    default. *)
Definition _predict_proba (m : NNFastAiTabularModel) (X : DataFrame)
  : Exc ndarray :=
  X ← (_preprocess m X false).2;
  let single_row := bool_decide (nrows X = 1) in
  X ← (if single_row then pd_concat [Some X; Some X] else Ok X);
  learner ← model_handle m;
  preds ← get_preds learner X;
  let preds := if single_row then take 1 preds else preds in
  if decide (problem_type m = REGRESSION) then
    match y_scaler m with
    | Some scaler =>
        Ok (Arr1 (concat ((λ row : list F, inverse_transform scaler <$> row)
                            <$> preds)))
    | None => Ok (Arr1 (concat preds))
    end
  else if decide (problem_type m = BINARY) then
    Arr1 <$> column_1 preds
  else Ok (Arr2 preds).

(** ** [save] and [export] *)

Inductive FileContent : Type :=
| PickledModel (snapshot : NNFastAiTabularModel)
| PickledLearner (snapshot : Learner).

Definition model_internals_file_name : string := "model-internals.pkl".

(** The file name [AbstractModel] uses for the pickled model object and
    the value of fastai's [rank_distrib()] come from outside the module. So
    does [torch.save], taken here together with the [open] of the target
    when [export] is given a path: it pickles the learner, in the state it
    is handed over, and raises when the learner cannot be pickled or the
    target cannot be opened or written. *)
Variable model_file_name : string.
Variable rank_distrib : nat.
Variable torch_save : Learner → Exc unit.

(** Modelled from the spec: [AbstractModel.save] is not part of the files
    under study. It writes the configuration object, as it is when called,
    to the model file under the save path (the object's own path when none
    is given) and returns that path. *)
Definition super_save (m : NNFastAiTabularModel) (fs : gmap string FileContent)
    (save_path : option string) : gmap string FileContent * Exc string :=
  let save_path := default (path m) save_path in
  (<[save_path +:+ model_file_name := PickledModel m]> fs, Ok save_path).

(** [dls.new_empty()]: the same columns, no rows. *)
Definition new_empty (dls : DataFrame) : DataFrame :=
  mkFrame 0 (prod_map id (λ s, mkSeries (dtype s) []) <$> columns dls).

(** [export]: in a child process nothing happens. Otherwise the learner
    gives up its items and its optimizer and is written in that state. Only
    after [torch.save] has returned is the optimizer created again, its
    state put back and the items restored: there is no [try]/[finally], so
    an exception of [torch.save] leaves the learner stripped. The result is
    the learner as the call leaves it and what was written, if anything. *)
Definition export (learner : Learner) : Learner * Exc (option Learner) :=
  if decide (rank_distrib ≠ 0) then (learner, Ok None)
  else
    let old_dbunch := learner_dls learner in
    let state := learner_opt learner in
    let stripped :=
      mkLearner (get_preds learner) (new_empty old_dbunch) None
        (learner_path learner) in
    match torch_save stripped with
    | Raise e => (stripped, Raise e)
    | Ok _ =>
        let opt := match state with Some st => Some st | None => Some [] end in
        (mkLearner (get_preds learner) old_dbunch opt (learner_path learner),
         Ok (Some stripped))
    end.

(** Modelled from the spec: [save_pkl.save_with_fn] is not part of the
    files under study. It hands the object to the pickling function, here
    [export]; what that writes becomes the content of the file at the given
    path, and an exception of the pickling function is passed on. *)
Definition save_with_fn (file : string) (learner : Learner)
    (fs : gmap string FileContent)
  : (Learner * gmap string FileContent) * Exc unit :=
  match export learner with
  | (learner, Ok (Some written)) =>
      ((learner, <[file := PickledLearner written]> fs), Ok ())
  | (learner, Ok None) => ((learner, fs), Ok ())
  | (learner, Raise e) => ((learner, fs), Raise e)
  end.

(** Values a name of [save] can be bound to. *)
Inductive PyObj : Type :=
| ObjStr (s : string)
| ObjBool (b : bool)
| ObjOpaque.

(** The local names of a call of [save] when the export branch starts
    ([__model] is stored under its mangled name), and the names bound at
    module level. *)
Definition save_locals (save_path : string) (verbose : bool)
  : list (string * PyObj) :=
  [("self", ObjOpaque); ("path", ObjStr save_path); ("verbose", ObjBool verbose);
   ("_NNFastAiTabularModel__model", ObjOpaque)].

Definition module_globals : list (string * PyObj) :=
  [("copy", ObjOpaque); ("logging", ObjOpaque); ("pickle", ObjOpaque);
   ("time", ObjOpaque); ("warnings", ObjOpaque); ("classmethod", ObjOpaque);
   ("Path", ObjOpaque); ("Any", ObjOpaque); ("np", ObjOpaque); ("pd", ObjOpaque);
   ("REGRESSION", ObjStr "regression"); ("BINARY", ObjStr "binary");
   ("R_OBJECT", ObjOpaque); ("R_INT", ObjOpaque); ("R_FLOAT", ObjOpaque);
   ("R_DATETIME", ObjOpaque); ("R_CATEGORY", ObjOpaque); ("R_BOOL", ObjOpaque);
   ("AbstractModel", ObjOpaque); ("skip_hpo", ObjOpaque);
   ("try_import_fastai", ObjOpaque); ("make_temp_directory", ObjOpaque);
   ("load_pkl", ObjOpaque); ("is_fork_enabled", ObjOpaque); ("save_pkl", ObjOpaque);
   ("get_param_baseline", ObjOpaque); ("get_default_searchspace", ObjOpaque);
   ("LABEL", ObjStr LABEL); ("MISSING", ObjStr MISSING); ("logger", ObjOpaque);
   ("NNFastAiTabularModel", ObjOpaque)].

(** Reading a name: locals, then module globals (no builtin is called
    [path_final]). *)
Definition load_name (locals : list (string * PyObj)) (x : string) : Exc PyObj :=
  match list_find (λ kv, kv.1 = x) (locals ++ module_globals) with
  | Some (_, kv) => Ok kv.2
  | None => Raise (NameError x)
  end.

(** [f'{o}'] *)
Definition format_obj (o : PyObj) : string :=
  match o with
  | ObjStr s => s
  | ObjBool true => "True"
  | ObjBool false => "False"
  | ObjOpaque => "<object>"
  end.

Definition save (m : NNFastAiTabularModel) (fs : gmap string FileContent)
    (save_path : option string) (verbose : bool)
  : (NNFastAiTabularModel * gmap string FileContent) * Exc string :=
  let m := set_load_model (Some (bool_decide (is_Some (model m)))) m in
  let __model := model m in
  let m := set_model None m in
  match super_save m fs save_path with
  | (fs, Raise e) => ((m, fs), Raise e)
  | (fs, Ok save_path) =>
      let m := set_model __model m in
      match _load_model m with
      | Some true =>
          match load_name (save_locals save_path verbose) "path_final" with
          | Raise e => ((m, fs), Raise e)
          | Ok path_final =>
              let file := format_obj path_final +:+ model_internals_file_name in
              match model m with
              | Some learner =>
                  match save_with_fn file learner fs with
                  | ((learner, fs), Raise e) =>
                      ((set_model (Some learner) m, fs), Raise e)
                  | ((learner, fs), Ok _) =>
                      let m := set_model (Some learner) m in
                      let m := set_load_model None m in
                      ((m, fs), Ok save_path)
                  end
              | None =>
                  ((m, fs),
                   Raise (AttributeError
                            "'NoneType' object has no attribute '_end_cleanup'"))
              end
          end
      | _ =>
          let m := set_load_model None m in
          ((m, fs), Ok save_path)
      end
  end.


(** ** [_preprocess_train] *)

(** Fitting and applying the target scaler are sklearn's; [fit_transform]
    returns the fitted scaler with the scaled values. *)
Variable scaler_fit_transform : Scaler → Series → Exc (Scaler * Series).
Variable scaler_transform : Scaler → Series → Exc Series.

Definition set_y_scaler (v : option Scaler) (m : NNFastAiTabularModel) :=
  mkModel (path m) (problem_type m) (stopping_metric m) (params m)
    (feature_metadata m) (cat_columns m) (cont_columns m) (columns_fills m)
    (_inner_features m) v (model m) (_load_model m).

(** fastai's [IndexSplitter(valid_idx)(range_of(df))]: the positions of the
    frame that are not validation positions, in increasing order, and the
    validation positions as given. *)
Definition range_of (df : DataFrame) : list nat := seq 0 (nrows df).

Definition IndexSplitter (valid_idx : list nat) (o : list nat)
  : list nat * list nat :=
  (filter (λ i, i ∉ valid_idx) o, valid_idx).

Inductive Proc : Type := FillMissing | Categorify | Normalize.

Inductive YBlock : Type := RegressionBlock (n_out : nat) | CategoryBlock.

(** The arguments [_preprocess_train] builds [TabularPandas] from; [procs]
    is also what it stores in [self.procs]. *)
Record TabularPandasArgs : Type := mkTabularPandasArgs {
  tp_df : DataFrame;
  tp_cat_names : list string;
  tp_cont_names : list string;
  tp_procs : list Proc;
  tp_y_block : YBlock;
  tp_y_names : string;
  tp_splits : list nat * list nat
}.

(** The scaled targets: [(y_norm, y_val_norm)] and the model object with the
    fitted scaler. *)
Definition scale_targets (m : NNFastAiTabularModel) (y : Series)
    (y_val : option Series)
  : NNFastAiTabularModel * Exc (Series * option Series) :=
  match decide (problem_type m = REGRESSION), y_scaler m with
  | left _, Some scaler =>
      match scaler_fit_transform scaler y with
      | Raise e => (m, Raise e)
      | Ok (scaler, y_norm) =>
          let m := set_y_scaler (Some scaler) m in
          match y_val with
          | Some y_val =>
              match scaler_transform scaler y_val with
              | Raise e => (m, Raise e)
              | Ok y_val_norm => (m, Ok (y_norm, Some y_val_norm))
              end
          | None => (m, Ok (y_norm, None))
          end
      end
  | _, _ => (m, Ok (y, y_val))
  end.

Definition _preprocess_train (m : NNFastAiTabularModel) (X : DataFrame)
    (y : Series) (X_val : option DataFrame) (y_val : option Series)
  : NNFastAiTabularModel * Exc TabularPandasArgs :=
  match _preprocess m X true with
  | (m, Raise e) => (m, Raise e)
  | (m, Ok X) =>
      let '(m, r_val) :=
        match X_val with
        | Some X_val =>
            match _preprocess m X_val false with
            | (m, Raise e) => (m, Raise e)
            | (m, Ok X_val) => (m, Ok (Some X_val))
            end
        | None => (m, Ok None)
        end in
      match r_val with
      | Raise e => (m, Raise e)
      | Ok X_val =>
          let procs := [FillMissing; Categorify; Normalize] in
          match scale_targets m y y_val with
          | (m, Raise e) => (m, Raise e)
          | (m, Ok (y_norm, y_val_norm)) =>
              match _generate_datasets X y_norm X_val y_val_norm with
              | Raise e => (m, Raise e)
              | Ok (df_train, train_idx, val_idx) =>
                  let y_block :=
                    if decide (problem_type m = REGRESSION)
                    then RegressionBlock 1 else CategoryBlock in
                  (m, Ok (mkTabularPandasArgs df_train (cat_columns m)
                            (cont_columns m) procs y_block LABEL
                            (IndexSplitter val_idx (range_of df_train))))
              end
          end
      end
  end.

(** ** [load] *)

(** Whether the two imports of [load] go through, and the exception raised
    when a file cannot be read as what is expected there, depend on the
    installation and on the file system. *)
Variable import_fastai_learner : Exc unit.
Variable import_fastai_basic_train : Exc unit.
Variable read_error : string → PyErr.

Definition set_path (v : string) (m : NNFastAiTabularModel) :=
  mkModel v (problem_type m) (stopping_metric m) (params m)
    (feature_metadata m) (cat_columns m) (cont_columns m) (columns_fills m)
    (_inner_features m) (y_scaler m) (model m) (_load_model m).

(** Modelled from the spec: [AbstractModel.load] is not part of the files
    under study. It reads the configuration object back from the model file
    under the given path; with [reset_paths] the object's path becomes the
    path it was loaded from. *)
Definition super_load (fs : gmap string FileContent) (load_path : string)
    (reset_paths : bool) : Exc NNFastAiTabularModel :=
  match fs !! (load_path +:+ model_file_name) with
  | Some (PickledModel snapshot) =>
      Ok (if reset_paths then set_path load_path snapshot else snapshot)
  | _ => Raise (read_error (load_path +:+ model_file_name))
  end.

(** [load_pkl.load_with_fn(path, lambda p: load_learner(p))] *)
Definition load_with_fn (fs : gmap string FileContent) (file : string)
  : Exc Learner :=
  match fs !! file with
  | Some (PickledLearner learner) => Ok learner
  | _ => Raise (read_error file)
  end.

Definition load (fs : gmap string FileContent) (load_path : string)
    (reset_paths : bool) : Exc NNFastAiTabularModel :=
  _ ← import_fastai_learner;
  m ← super_load fs load_path reset_paths;
  m ← (if decide (_load_model m = Some true) then
         _ ← import_fastai_basic_train;
         learner ← load_with_fn fs (path m +:+ model_internals_file_name);
         mret (set_model (Some learner) m)
       else Ok m);
  mret (set_load_model None m).

(** [len(a)] of a returned array. *)
Definition arr_length (a : ndarray) : nat :=
  match a with
  | Arr1 l => length l
  | Arr2 l => length l
  end.

(** What a fill value does to one cell. *)
Definition apply_fill (v : option Scalar) (o : option Scalar) : option Scalar :=
  match v with
  | Some x => fill_cell x o
  | None => o
  end.

(** ** Predicates used in the statements *)

(** The dtype of a column, when the frame has it. *)
Definition col_dtype (df : DataFrame) (c : string) : option Dtype :=
  dtype <$> find_col c (columns df).

(** Every column is as long as the index. *)
Definition aligned (df : DataFrame) : Prop :=
  Forall (λ kc, length (cells kc.2) = nrows df) (columns df).

(** [df'] is [df] with column [c], which it has, replaced by [s']. *)
Definition replaced (df : DataFrame) (c : string) (s' : Series)
    (df' : DataFrame) : Prop :=
  c ∈ col_names df ∧ length (cells s') = nrows df ∧
  df' = mkFrame (nrows df) (set_col c s' (columns df)).

(** A loop body that, when it returns, has replaced the column it was
    called on. *)
Definition replaces_column (step : DataFrame → string → Exc DataFrame)
  : Prop :=
  ∀ df c df', aligned df → step df c = Ok df' → ∃ s', replaced df c s' df'.

(** Column [c] of [df] is not changed by its fill value any more. *)
Definition settled (m : NNFastAiTabularModel) (c : string)
    (df : DataFrame) : Prop :=
  ∀ s v, find_col c (columns df) = Some s → columns_fills m !! c = Some v →
         fillna s v = Ok s.

(** Column [c] is categorical and already has the sentinel category. *)
Definition has_sentinel (c : string) (df : DataFrame) : Prop :=
  ∃ cats, col_dtype df c = Some (DCategory cats) ∧ Str MISSING ∈ cats.

(** The schema a fit leaves behind. *)
Definition schema_fitted (m : NNFastAiTabularModel) : Prop :=
  _inner_features m = (cat_columns m ++ cont_columns m)%list ∧
  NoDup (_inner_features m) ∧
  (∀ c, c ∈ cat_columns m → columns_fills m !! c = Some (Some (Str MISSING))) ∧
  (∀ c, c ∈ cont_columns m →
        ∃ mu : option F, columns_fills m !! c = Some (Num <$> mu)).

(** A frame with the columns of the schema: the categorical features are
    categoricals that do not use the sentinel yet, the continuous features
    are columns of any other dtype (number, object or datetime64). *)
Definition frame_fits (m : NNFastAiTabularModel) (X : DataFrame) : Prop :=
  (∀ c, c ∈ cat_columns m →
        ∃ cats, col_dtype X c = Some (DCategory cats) ∧ (Str MISSING ∉ cats)) ∧
  (∀ c, c ∈ cont_columns m →
        ∃ d, col_dtype X c = Some d ∧ ∀ cats, d ≠ DCategory cats).

(** The rows of a frame, twice. *)
Definition series_twice (s : Series) : Series :=
  mkSeries (dtype s) (cells s ++ cells s).

Definition twice (X : DataFrame) : DataFrame :=
  mkFrame (nrows X + nrows X) (prod_map id series_twice <$> columns X).

End WithNumbers.

(** ** A small data set over integer cells *)

(** An integer stand-in for the column mean: NaN on a column without
    numbers, [TypeError] on a column holding strings. *)
Definition ex_mean (s : @Series Z) : Exc (option Z) :=
  if existsb (λ o, match o with Some (Str _) => true | _ => false end) (cells s)
  then Raise (TypeError "Could not convert string to numeric")
  else
    let xs := omap (λ o, match o with Some (Num x) => Some x | _ => None end)
                (cells s) in
    match xs with
    | [] => Ok None
    | _ => Ok (Some (foldr Z.add 0 xs / Z.of_nat (length xs))%Z)
    end.

Definition ex_train : @DataFrame Z :=
  mkFrame 3
    [("color", mkSeries (DCategory [Str "red"; Str "blue"])
                 [Some (Str "red"); None; Some (Str "blue")]);
     ("size", mkSeries DNumeric [Some (Num 4%Z); None; Some (Num 8%Z)]);
     ("note", mkSeries DObject [Some (Str "a"); Some (Str "b"); None])].

Definition ex_labels : @Series Z :=
  mkSeries DNumeric [Some (Num 0%Z); Some (Num 1%Z); Some (Num 2%Z)].

Definition ex_val : @DataFrame Z :=
  mkFrame 2
    [("color", mkSeries (DCategory [Str "red"; Str "blue"])
                 [None; Some (Str "red")]);
     ("size", mkSeries DNumeric [Some (Num 5%Z); None]);
     ("note", mkSeries DObject [None; None])].

Definition ex_val_labels : @Series Z :=
  mkSeries DNumeric [Some (Num 1%Z); Some (Num 0%Z)].

(** A frame of numbers only, and one that lacks the column ["size"]. *)
Definition ex_numbers : @DataFrame Z :=
  mkFrame 2 [("size", mkSeries DNumeric [Some (Num 4%Z); None]);
             ("weight", mkSeries DNumeric [None; None])].

Definition ex_no_size : @DataFrame Z :=
  mkFrame 1 [("color", mkSeries (DCategory [Str "red"; Str "blue"]) [None])].

Definition ex_row : @DataFrame Z :=
  mkFrame 1
    [("note", mkSeries DObject [Some (Str "c")]);
     ("size", mkSeries DNumeric [None]);
     ("color", mkSeries (DCategory [Str "red"; Str "blue"]) [Some (Str "blue")])].

(** A learner that answers every row with the same single output. *)
Definition ex_learner : @Learner Z :=
  mkLearner (λ batch, Ok (replicate (nrows batch) [7%Z])) (mkFrame 0 [])
    (Some [1%Z]) "".

Definition ex_unfitted (pt : ProblemType) (metadata : list (string * RawType))
  : @NNFastAiTabularModel Z :=
  mkModel "models/nn/" pt "accuracy" (<["bs" := PyInt 256]> ∅) metadata
    [] [] ∅ [] None (Some ex_learner) None.

(** The model after a fit on [ex_train], with and without the categorical
    feature in the metadata. *)
Definition ex_fitted : @NNFastAiTabularModel Z :=
  (_preprocess Ok ex_mean
     (ex_unfitted REGRESSION [("color", R_CATEGORY); ("size", R_FLOAT)])
     ex_train true).1.

Definition ex_fitted_numeric : @NNFastAiTabularModel Z :=
  (_preprocess Ok ex_mean (ex_unfitted REGRESSION [("size", R_FLOAT)])
     ex_train true).1.

(** * Properties *)

(** ** Stopping metric, layer sizes and batch size *)

Lemma dict_contains_lookup {V : Type} (d : gmap string V) (k : string) :
  dict_contains d k = match d !! k with Some _ => true | None => false end.
Proof.
  unfold dict_contains. destruct (d !! k) eqn:E.
  - apply bool_decide_eq_true. eauto.
  - apply bool_decide_eq_false. intros [v Hv]. discriminate.
Qed.

Lemma metrics_map_mean_squared_error :
  metrics_map !! "mean_squared_error" = Some (Some mse).
Proof. vm_compute. reflexivity. Qed.

Lemma metrics_map_log_loss : metrics_map !! "log_loss" = Some None.
Proof. vm_compute. reflexivity. Qed.

(** C7. A stopping-metric name found in the metrics table is used unchanged,
    with the metric the table gives and nothing logged; any other name is
    replaced by 'mean_squared_error' for regression and by 'log_loss'
    otherwise, and one warning is logged. The function is total: it returns
    in both cases. *)
Theorem objective_func_name_resolution (pt : ProblemType) (name : string) :
  __get_objective_func_name pt name =
  match metrics_map !! name with
  | Some nn_metric => ((nn_metric, name), [])
  | None =>
      let fallback :=
        if decide (pt = REGRESSION) then "mean_squared_error" else "log_loss" in
      ((if decide (pt = REGRESSION) then Some mse else None, fallback),
       [mkLog WARNING
          ("Metric " +:+ name +:+ " is not supported by this model - using "
           +:+ fallback +:+ " instead")])
  end.
Proof.
  unfold __get_objective_func_name.
  rewrite dict_contains_lookup.
  destruct (metrics_map !! name) as [metric|] eqn:E; cbn [negb].
  - rewrite dict_contains_lookup, E. unfold dict_get. rewrite E. reflexivity.
  - destruct (decide (pt = REGRESSION)); cbv zeta;
      rewrite dict_contains_lookup; unfold dict_get.
    + rewrite metrics_map_mean_squared_error. reflexivity.
    + rewrite metrics_map_log_loss. reflexivity.
Qed.

(** C5, as amended. An explicit 'layers' value is used verbatim; otherwise
    binary and regression problems get [200, 100]; otherwise the sizes are
    twice max(2 * num_classes, 100) and max(2 * num_classes, 100). *)
Theorem fit_layers_decision_table (params : gmap string PyVal)
    (pt : ProblemType) (num_classes : Z) :
  _fit_layers params pt num_classes =
  match params !! "layers" with
  | Some PyNone | None =>
      match pt with
      | REGRESSION | BINARY => Ok (PyList [200; 100]%Z)
      | MULTICLASS =>
          let width := Z.max (2 * num_classes) 100 in
          Ok (PyList [2 * width; width]%Z)
      end
  | Some explicit => Ok explicit
  end.
Proof.
  unfold _fit_layers, dict_get, dict_getitem.
  destruct (params !! "layers") as [v|] eqn:E; cbn [default].
  - destruct (decide (v ≠ PyNone)) as [Hv|Hv].
    + destruct v; try reflexivity. congruence.
    + apply dec_stable in Hv. subst v.
      destruct pt; cbn; try reflexivity.
      rewrite (Z.mul_comm 2 num_classes), (Z.mul_comm 2 (Z.max _ _)). reflexivity.
  - destruct (decide (PyNone ≠ PyNone)) as [Hv|Hv]; [congruence|].
    destruct pt; cbn; try reflexivity.
    rewrite (Z.mul_comm 2 num_classes), (Z.mul_comm 2 (Z.max _ _)). reflexivity.
Qed.

(** C5, as first stated, fails with three classes and no explicit 'layers':
    the sizes are [200, 100], not the width 100 and its half. *)
Lemma fit_layers_not_width_and_half :
  _fit_layers ∅ MULTICLASS 3 = Ok (PyList [200; 100]%Z) ∧
  _fit_layers ∅ MULTICLASS 3 ≠ Ok (PyList (spec_multiclass_layers 3)).
Proof. split; [reflexivity | vm_compute; discriminate]. Qed.

(** C10. With an integer 'bs', the batch size handed to the dataloaders is
    'bs' when the training frame has more than 'bs' rows and 32 when it has
    at most 'bs' rows. *)
Theorem fit_bs_rule (params : gmap string PyVal) (len_X : nat) (bs : Z) :
  params !! "bs" = Some (PyInt bs) →
  ((bs < Z.of_nat len_X)%Z → _fit_bs params len_X = Ok (PyInt bs)) ∧
  ((Z.of_nat len_X ≤ bs)%Z → _fit_bs params len_X = Ok (PyInt 32)).
Proof.
  intros Hbs. unfold _fit_bs, dict_getitem. rewrite Hbs. cbn.
  split; intros H.
  - rewrite bool_decide_eq_true_2 by lia. reflexivity.
  - rewrite bool_decide_eq_false_2 by lia. reflexivity.
Qed.

Lemma fit_bs_rule_witness :
  _fit_bs (<["bs" := PyInt 256]> ∅) 1000 = Ok (PyInt 256) ∧
  _fit_bs (<["bs" := PyInt 256]> ∅) 256 = Ok (PyInt 32).
Proof.
  pose proof (fit_bs_rule (<["bs" := PyInt 256]> ∅) 1000 256 eq_refl) as [H1 _].
  pose proof (fit_bs_rule (<["bs" := PyInt 256]> ∅) 256 256 eq_refl) as [_ H2].
  split; [apply H1 | apply H2]; lia.
Defined.


(** ** The objective derived from the stopping metric *)

(** X1. Whatever the stopping metric, the objective [_fit] ends up with is a
    key of the metrics table, and its fastai metric is the table's entry. A
    supported name is kept and nothing is logged. An unsupported name becomes
    'mean_squared_error' for regression, monitored under that name with
    [np.less] and read at position 1 of the validation result; for any other
    problem type it becomes 'log_loss', monitored as 'valid_loss' with
    [np.greater] and read at position 0. *)
Theorem fit_objective_table (pt : ProblemType) (name : string) :
  let o := _fit_objective pt name in
  dict_contains metrics_map (objective_func_name o) = true ∧
  nn_metric o = dict_get metrics_map (objective_func_name o) None ∧
  match metrics_map !! name with
  | Some _ => objective_func_name o = name ∧ objective_log o = []
  | None =>
      length (objective_log o) = 1 ∧
      if decide (pt = REGRESSION)
      then objective_func_name o = "mean_squared_error" ∧
           objective_func_name_to_monitor o = "mean_squared_error" ∧
           objective_optim_mode o = np_less ∧ eval_result_index o = 1
      else objective_func_name o = "log_loss" ∧
           objective_func_name_to_monitor o = "valid_loss" ∧
           objective_optim_mode o = np_greater ∧ eval_result_index o = 0
  end.
Proof.
  unfold _fit_objective, __get_objective_func_name.
  rewrite (dict_contains_lookup metrics_map name).
  destruct (metrics_map !! name) as [metric|] eqn:E; cbn [negb].
  - cbv beta iota zeta.
    cbn [objective_func_name nn_metric objective_log].
    rewrite !dict_contains_lookup, E. unfold dict_get. rewrite E. auto.
  - destruct (decide (pt = REGRESSION)); cbv beta iota zeta;
      cbn [objective_func_name nn_metric objective_log
           objective_func_name_to_monitor objective_optim_mode
           eval_result_index];
      rewrite !dict_contains_lookup; unfold dict_get.
    + rewrite metrics_map_mean_squared_error.
      repeat split; try reflexivity; try (vm_compute; reflexivity).
    + rewrite metrics_map_log_loss.
      repeat split; try reflexivity; try (vm_compute; reflexivity).
Qed.

(** X2. The batch size is read with [params['bs']]: without that key the
    expression raises [KeyError], and with [None], a string or a list under
    that key the comparison with [len(X)] raises [TypeError]; the choice of
    layers never raises. *)
Theorem fit_bs_errors (params : gmap string PyVal) (len_X : nat)
    (pt : ProblemType) (num_classes : Z) :
  (params !! "bs" = None → _fit_bs params len_X = Raise (KeyError ["bs"])) ∧
  (∀ v, params !! "bs" = Some v → (∀ b, v ≠ PyInt b) →
        ∃ msg, _fit_bs params len_X = Raise (TypeError msg)) ∧
  (∃ layers, _fit_layers params pt num_classes = Ok layers).
Proof.
  split; [|split].
  - intros H. unfold _fit_bs, dict_getitem. by rewrite H.
  - intros v H Hv. unfold _fit_bs, dict_getitem. rewrite H. cbn.
    destruct v as [|b| |]; cbn; eauto. by destruct (Hv b).
  - unfold _fit_layers, dict_get, dict_getitem.
    destruct (params !! "layers") as [v|]; cbn.
    + destruct (decide (v ≠ PyNone)); [eexists; reflexivity|].
      destruct (decide (pt ∈ [REGRESSION; BINARY])); eexists; reflexivity.
    + destruct (decide (PyNone ≠ PyNone)); [congruence|].
      destruct (decide (pt ∈ [REGRESSION; BINARY])); eexists; reflexivity.
Qed.

Lemma fit_bs_errors_witness :
  _fit_bs ∅ 10 = Raise (KeyError ["bs"]) ∧
  (∃ msg, _fit_bs (<["bs" := PyStr "auto"]> ∅) 10 = Raise (TypeError msg)).
Proof.
  destruct (fit_bs_errors ∅ 10 BINARY 2) as (Hmissing & _ & _).
  destruct (fit_bs_errors (<["bs" := PyStr "auto"]> ∅) 10 BINARY 2)
    as (_ & Htype & _).
  split; [by apply Hmissing|].
  apply (Htype (PyStr "auto")); [reflexivity | discriminate].
Defined.

Section Proofs.

#[local] Set Default Proof Using "Type".

Context {F : Type} `{!EqDecision F}.
Local Abbreviation Frame := (@DataFrame F).
Local Abbreviation Column := (@Series F).
Local Abbreviation Model := (@NNFastAiTabularModel F).

Variable super_preprocess : Frame → Exc Frame.
Variable series_mean : Column → Exc (option F).
Variable model_file_name : string.
Variable rank_distrib : nat.
Variable torch_save : @Learner F → Exc unit.

Local Abbreviation preprocess := (_preprocess super_preprocess series_mean).
Local Abbreviation fit := (fit_schema series_mean).
Local Abbreviation fit_with := (fit_schema_with series_mean).
Local Abbreviation predict_proba := (_predict_proba super_preprocess series_mean).

(** Propositional goals are closed without reference to the parameters. *)
Local Ltac prop_solve :=
  try clear super_preprocess; try clear series_mean;
  try clear model_file_name; try clear rank_distrib; try clear torch_save;
  tauto.

(** ** Persistence *)

Lemma load_name_path_final (save_path : string) (verbose : bool) :
  load_name (save_locals save_path verbose) "path_final"
  = Raise (NameError "path_final").
Proof. reflexivity. Qed.

(** What [export] writes carries no optimizer state and no items. *)
Lemma export_strips_optimizer (learner after written : @Learner F) :
  export rank_distrib torch_save learner = (after, Ok (Some written)) →
  learner_opt written = None ∧ nrows (learner_dls written) = 0 ∧
  learner_dls after = learner_dls learner.
Proof.
  unfold export. destruct (decide (rank_distrib ≠ 0)); [discriminate|].
  destruct (torch_save _) as [[]|e]; [|discriminate].
  intros [= <- <-]. auto.
Qed.

(** C2, what the code does when a trained model is attached: the
    configuration object is written first, with the model field emptied and
    the load flag set; the handle is put back; then the name [path_final] is
    read, which is bound nowhere, so [save] ends with a [NameError]: nothing
    is exported and no path is returned. *)
Theorem save_with_model_raises (m : Model)
    (learner : @Learner F) (fs : gmap string FileContent)
    (save_path : option string) (verbose : bool) :
  let m0 := set_model (Some learner) m in
  let config_file := default (path m) save_path +:+ model_file_name in
  save model_file_name rank_distrib torch_save m0 fs save_path verbose =
  ((set_load_model (Some true) m0,
    <[config_file :=
        PickledModel (set_model None (set_load_model (Some true) m0))]> fs),
   Raise (NameError "path_final")).
Proof. reflexivity. Qed.

(** Without a model, [save] writes the configuration alone and returns the
    path. *)
Lemma save_without_model (m : Model)
    (fs : gmap string FileContent) (save_path : option string) (verbose : bool) :
  let m0 := set_model None m in
  save model_file_name rank_distrib torch_save m0 fs save_path verbose =
  ((set_load_model None m0,
    <[default (path m) save_path +:+ model_file_name :=
        PickledModel (set_load_model (Some false) m0)]> fs),
   Ok (default (path m) save_path)).
Proof. reflexivity. Qed.

(** ** Cardinality screening at fit time *)

(** Two ways for the statistics to raise: a frame without columns, and a
    frame of numeric columns only, whose statistics have no ['unique']. *)
Lemma stats_raise_without_columns (m : Model) (n : nat) :
  cat_cols_to_drop_stats m (mkFrame n [])
  = Raise (ValueError "Cannot describe a DataFrame without columns").
Proof. reflexivity. Qed.

Lemma stats_raise_on_numeric_frame (m : Model)
    (X : Frame) :
  columns X ≠ [] →
  Forall (λ kc, dtype kc.2 = DNumeric) (columns X) →
  cat_cols_to_drop_stats m X = Raise (KeyError ["unique"]).
Proof.
  intros Hne Hnum. unfold cat_cols_to_drop_stats, describe_T.
  rewrite decide_False by exact Hne. cbn.
  replace (forallb _ (columns X)) with true; [reflexivity|].
  symmetry. apply forallb_forall. intros kc Hin.
  rewrite Forall_forall in Hnum.
  rewrite (Hnum kc) by (by apply list_elem_of_In). reflexivity.
Qed.

(** C8. When the statistics of the [try] block raise, the list of columns
    to drop is empty, the fit goes on as with an empty list, and every
    categorical feature of the metadata that is a column of the frame is
    kept. *)
Theorem describe_failure_excludes_nothing (m : Model)
    (X : Frame) (e : PyErr) :
  cat_cols_to_drop_stats (fit_schema_init m) X = Raise e →
  try_except (cat_cols_to_drop_stats (fit_schema_init m) X) [] = [] ∧
  fit m X = fit_with [] (fit_schema_init m) X ∧
  cat_columns (fit m X).1 =
    filter (λ f, f ∈ col_names X)
      (get_features (feature_metadata m) [R_OBJECT; R_CATEGORY; R_BOOL]).
Proof.
  intros Hraise. unfold fit_schema. cbv zeta. rewrite Hraise. cbn [try_except].
  split; [reflexivity|]. split; [reflexivity|].
  unfold fit_schema_with. cbv zeta.
  destruct (fill_means _ _ _ _) as [fills r].
  assert (Hkeep : ∀ l : list string,
             filter (λ f, f ∈ col_names X)
               (filter (λ col, col ∈ filter (λ col0, col0 ∉ []) (col_names X)) l)
             = filter (λ f, f ∈ col_names X) l).
  { intros l. induction l as [|a l IH]; [reflexivity|].
    rewrite !filter_cons.
    destruct (decide (a ∈ col_names X)) as [Hin|Hout].
    - rewrite decide_True.
      + rewrite filter_cons, decide_True by exact Hin. by rewrite IH.
      + apply list_elem_of_filter. split; [apply not_elem_of_nil | exact Hin].
    - rewrite decide_False; [exact IH|].
      intros Hin. apply list_elem_of_filter in Hin as [_ Hin]. contradiction. }
  destruct r as [[]|e']; cbn; apply Hkeep.
Qed.

(** ** Columns of a frame *)

Lemma find_col_Some_elem (c : string) (cols : list (string * Column)) s :
  find_col c cols = Some s → (c, s) ∈ cols.
Proof.
  induction cols as [|[k s'] cols IH]; cbn; [discriminate|].
  destruct (decide (k = c)) as [->|Hne].
  - intros [= ->]. left.
  - intros H. right. auto.
Qed.

Lemma find_col_is_Some (c : string) (cols : list (string * Column)) :
  is_Some (find_col c cols) ↔ c ∈ cols.*1.
Proof.
  induction cols as [|[k s'] cols IH]; cbn.
  - split; [intros [? [=]] | intros H; inversion H].
  - destruct (decide (k = c)) as [->|Hne].
    + split; [intros _; left | eauto].
    + rewrite IH. split; [intros H; by right|].
      intros H. apply elem_of_cons in H as [H|H]; [congruence | exact H].
Qed.

Lemma find_col_None (c : string) (cols : list (string * Column)) :
  find_col c cols = None ↔ c ∉ cols.*1.
Proof.
  rewrite <- find_col_is_Some, eq_None_not_Some. reflexivity.
Qed.

Lemma find_col_NoDup (c : string) (cols : list (string * Column)) s :
  NoDup cols.*1 → (c, s) ∈ cols → find_col c cols = Some s.
Proof.
  induction cols as [|[k s'] cols IH]; cbn; [intros _ H; inversion H|].
  intros Hnd Hin. apply NoDup_cons in Hnd as [Hk Hnd].
  apply elem_of_cons in Hin as [[= -> ->]|Hin].
  - by rewrite decide_True.
  - destruct (decide (k = c)) as [->|Hne]; [|auto].
    exfalso. apply Hk. apply list_elem_of_fmap. by exists (c, s).
Qed.

Lemma find_col_app (c : string) (l1 l2 : list (string * Column)) :
  find_col c (l1 ++ l2) =
  match find_col c l1 with Some s => Some s | None => find_col c l2 end.
Proof.
  induction l1 as [|[k s'] l1 IH]; cbn; [reflexivity|].
  destruct (decide (k = c)); [reflexivity | exact IH].
Qed.

Lemma find_col_fmap_snd (g : Column → Column) (c : string)
    (cols : list (string * Column)) :
  find_col c (prod_map id g <$> cols) = g <$> find_col c cols.
Proof.
  induction cols as [|[k s'] cols IH]; cbn; [reflexivity|].
  destruct (decide (k = c)); [reflexivity | exact IH].
Qed.

Lemma fmap_fst_prod_map (g : Column → Column)
    (cols : list (string * Column)) :
  (prod_map id g <$> cols).*1 = cols.*1.
Proof. induction cols as [|[k s'] cols IH]; cbn; [reflexivity | by rewrite IH]. Qed.

Lemma set_col_names (c : string) (s : Column) cols :
  c ∈ cols.*1 → (set_col c s cols).*1 = cols.*1.
Proof.
  intros Hin. unfold set_col. rewrite decide_True by exact Hin.
  clear Hin. induction cols as [|[k s'] cols IH]; cbn; [reflexivity|].
  rewrite IH. destruct (decide (k = c)); reflexivity.
Qed.

Lemma find_col_replace (c c' : string) (s : Column) cols :
  find_col c' ((λ kc, if decide (kc.1 = c) then (kc.1, s) else kc) <$> cols) =
  if decide (c' = c) then (λ _, s) <$> find_col c' cols else find_col c' cols.
Proof.
  induction cols as [|[k s'] cols IH]; cbn.
  - destruct (decide (c' = c)); reflexivity.
  - destruct (decide (k = c)) as [->|Hk]; cbn.
    + destruct (decide (c = c')) as [<-|Hc].
      * by rewrite decide_True.
      * rewrite IH. reflexivity.
    + destruct (decide (k = c')) as [->|Hc].
      * by rewrite decide_False.
      * exact IH.
Qed.

Lemma find_col_set_col (c c' : string) (s : Column) cols :
  find_col c' (set_col c s cols) =
  if decide (c' = c) then Some s else find_col c' cols.
Proof.
  unfold set_col. destruct (decide (c ∈ cols.*1)) as [Hin|Hout].
  - rewrite find_col_replace. destruct (decide (c' = c)) as [->|]; [|reflexivity].
    apply find_col_is_Some in Hin as [s0 ->]. reflexivity.
  - rewrite find_col_app. apply find_col_None in Hout.
    destruct (decide (c' = c)) as [->|Hne].
    + rewrite Hout. cbn. by rewrite decide_True.
    + destruct (find_col c' cols); [reflexivity|].
      cbn. rewrite decide_False by congruence. reflexivity.
Qed.

Lemma set_col_same (c : string) (s : Column) cols :
  NoDup cols.*1 → find_col c cols = Some s → set_col c s cols = cols.
Proof.
  intros Hnd Hfind. unfold set_col.
  rewrite decide_True by (apply find_col_is_Some; eauto).
  induction cols as [|[k s'] cols IH]; cbn in *; [reflexivity|].
  apply NoDup_cons in Hnd as [Hk Hnd].
  destruct (decide (k = c)) as [->|Hne].
  - injection Hfind as ->. f_equal.
    clear IH. induction cols as [|[k' s''] cols IH]; cbn in *; [reflexivity|].
    apply not_elem_of_cons in Hk as [Hk1 Hk2].
    apply NoDup_cons in Hnd as [_ Hnd].
    rewrite decide_False by congruence. f_equal. auto.
  - f_equal. auto.
Qed.

Lemma reindex_aligned (n : nat) (cs : list (option (@Scalar F))) :
  length cs = n → reindex n cs = cs.
Proof.
  intros <-. unfold reindex. rewrite firstn_all, Nat.sub_diag. cbn.
  apply app_nil_r.
Qed.

Lemma setitem_aligned (df : Frame) (c : string) (s : Column) :
  length (cells s) = nrows df →
  setitem df c s = mkFrame (nrows df) (set_col c s (columns df)).
Proof.
  intros Hlen. unfold setitem, ensure_valid_index.
  rewrite decide_False by lia. cbv zeta.
  rewrite reindex_aligned by exact Hlen. by destruct s.
Qed.

Lemma set_col_aligned (n : nat) (c : string) (s : Column) cols :
  length (cells s) = n →
  Forall (λ kc : string * Column, length (cells kc.2) = n) cols →
  Forall (λ kc : string * Column, length (cells kc.2) = n) (set_col c s cols).
Proof.
  intros Hs Hall. unfold set_col. destruct (decide (c ∈ cols.*1)).
  - apply Forall_fmap. eapply Forall_impl; [exact Hall|].
    intros [k s'] Hk. cbn in *. destruct (decide (k = c)); cbn; done.
  - apply Forall_app. split; [exact Hall|]. by constructor.
Qed.

Lemma col_dtype_setitem (df : Frame) (c c' : string) (s : Column) :
  col_dtype (setitem df c s) c' =
  if decide (c' = c) then Some (dtype s) else col_dtype df c'.
Proof.
  unfold col_dtype, setitem. cbn. rewrite find_col_set_col.
  destruct (decide (c' = c)); [reflexivity|].
  unfold ensure_valid_index. case_decide; [|reflexivity].
  cbn. rewrite find_col_fmap_snd. by destruct (find_col c' (columns df)).
Qed.

Lemma col_names_setitem (df : Frame) (c : string) (s : Column) :
  c ∈ col_names df → col_names (setitem df c s) = col_names df.
Proof.
  intros Hin. unfold col_names, setitem. cbn.
  assert (Hcols : (columns (ensure_valid_index df s)).*1 = (columns df).*1).
  { unfold ensure_valid_index. case_decide; [|reflexivity].
    cbn. apply fmap_fst_prod_map. }
  rewrite set_col_names; [exact Hcols|]. rewrite Hcols. exact Hin.
Qed.

Lemma getitem_Ok (df : Frame) (c : string) s :
  getitem df c = Ok s ↔ find_col c (columns df) = Some s.
Proof.
  unfold getitem. destruct (find_col c (columns df)).
  - split; intros [= ->]; reflexivity.
  - split; discriminate.
Qed.

Lemma col_dtype_col_names (df : Frame) (c : string) :
  is_Some (col_dtype df c) ↔ c ∈ col_names df.
Proof.
  unfold col_dtype, col_names. rewrite <- find_col_is_Some.
  destruct (find_col c (columns df)); cbn; split; intros [? ?]; eauto; discriminate.
Qed.


(** ** Selecting columns *)

Local Abbreviation select cs cols :=
  (omap (λ c : string, pair c <$> find_col c cols) cs).

Lemma select_names (cs : list string) (cols : list (string * Column)) :
  (∀ c, c ∈ cs → c ∈ cols.*1) → (select cs cols).*1 = cs.
Proof.
  induction cs as [|c cs IH]; cbn; [reflexivity|].
  intros Hall.
  destruct (find_col_is_Some c cols) as [_ Hsome].
  destruct Hsome as [s Hs]; [apply Hall; left|].
  rewrite Hs. cbn. f_equal. apply IH. intros c' Hc'. apply Hall. by right.
Qed.

Lemma find_col_select (c : string) (cs : list string)
    (cols : list (string * Column)) :
  find_col c (select cs cols) = if decide (c ∈ cs) then find_col c cols else None.
Proof.
  induction cs as [|c0 cs IH]; cbn.
  - rewrite decide_False by apply not_elem_of_nil. reflexivity.
  - destruct (find_col c0 cols) as [s0|] eqn:E0; cbn.
    + destruct (decide (c0 = c)) as [->|Hne].
      * rewrite decide_True by left. by rewrite E0.
      * rewrite IH. destruct (decide (c ∈ cs)) as [Hin|Hout].
        -- rewrite decide_True by (by right). reflexivity.
        -- rewrite decide_False; [reflexivity|].
           intros H. apply elem_of_cons in H as [H|H]; congruence.
    + rewrite IH. destruct (decide (c ∈ cs)) as [Hin|Hout].
      * rewrite decide_True by (by right). reflexivity.
      * destruct (decide (c ∈ c0 :: cs)) as [H|H]; [|reflexivity].
        apply elem_of_cons in H as [->|H]; [by rewrite E0 | contradiction].
Qed.

Lemma select_self (cols : list (string * Column)) :
  NoDup cols.*1 → select cols.*1 cols = cols.
Proof.
  intros Hnd.
  assert (Hgen : ∀ l, l ⊆ cols → select l.*1 cols = l).
  { induction l as [|[k s] l IH]; cbn; [reflexivity|].
    intros Hsub. rewrite (find_col_NoDup k cols s Hnd) by (apply Hsub; left).
    cbn. f_equal. apply IH. intros x Hx. apply Hsub. by right. }
  by apply Hgen.
Qed.

Lemma select_aligned (n : nat) (cs : list string)
    (cols : list (string * Column)) :
  Forall (λ kc : string * Column, length (cells kc.2) = n) cols →
  Forall (λ kc : string * Column, length (cells kc.2) = n) (select cs cols).
Proof.
  intros Hall. induction cs as [|c cs IH]; cbn; [constructor|].
  destruct (find_col c cols) as [s|] eqn:E; cbn; [|exact IH].
  constructor; [|exact IH].
  apply find_col_Some_elem in E. rewrite Forall_forall in Hall.
  apply (Hall _ E).
Qed.

Lemma getitem_list_present (df : Frame) (cs : list string) :
  (∀ c, c ∈ cs → c ∈ col_names df) →
  getitem_list df cs = Ok (mkFrame (nrows df) (select cs (columns df))).
Proof.
  intros Hall. unfold getitem_list.
  replace (filter (λ c, c ∉ col_names df) cs) with (@nil string); [reflexivity|].
  symmetry. induction cs as [|c cs IH]; [reflexivity|].
  rewrite filter_cons_False by (intros Hn; apply Hn, Hall; left).
  apply IH. intros c' Hc'. apply Hall. by right.
Qed.

Lemma getitem_list_missing (df : Frame) (cs : list string) (c : string) :
  c ∈ cs → c ∉ col_names df →
  getitem_list df cs = Raise (KeyError (filter (λ c, c ∉ col_names df) cs)) ∧
  c ∈ filter (λ c, c ∉ col_names df) cs.
Proof.
  intros Hin Hout.
  assert (Hc : c ∈ filter (λ c, c ∉ col_names df) cs)
    by (apply list_elem_of_filter; auto).
  split; [|exact Hc]. unfold getitem_list.
  destruct (filter (λ c, c ∉ col_names df) cs); [inversion Hc | reflexivity].
Qed.

Lemma getitem_list_Ok (df sel : Frame) (cs : list string) :
  getitem_list df cs = Ok sel →
  (∀ c, c ∈ cs → c ∈ col_names df) ∧
  sel = mkFrame (nrows df) (select cs (columns df)).
Proof.
  intros H.
  destruct (decide (Forall (λ c, c ∈ col_names df) cs)) as [Hall|Hnot].
  - rewrite Forall_forall in Hall. split; [exact Hall|].
    rewrite getitem_list_present in H by exact Hall. by injection H.
  - apply not_Forall_Exists in Hnot; [|intros c; apply _].
    apply Exists_exists in Hnot as (c & Hc & Hout).
    destruct (getitem_list_missing df cs c Hc Hout) as [Hr _].
    rewrite Hr in H. discriminate.
Qed.

Lemma getitem_list_self (df : Frame) :
  NoDup (col_names df) → getitem_list df (col_names df) = Ok df.
Proof.
  intros Hnd. rewrite getitem_list_present by auto.
  unfold col_names in *. rewrite select_self by exact Hnd. by destruct df.
Qed.


(** ** Filling one column *)

Lemma fill_cell_idem (x : @Scalar F) (o : option Scalar) :
  fill_cell x (fill_cell x o) = fill_cell x o.
Proof. by destruct o. Qed.

Lemma has_null_filled (x : @Scalar F) (cs : list (option Scalar)) :
  has_null (fill_cell x <$> cs) = false.
Proof.
  unfold has_null. apply bool_decide_eq_false. intros H.
  apply list_elem_of_fmap in H as (o & Ho & _). by destruct o.
Qed.

Lemma fillna_length (s s' : Column) v :
  fillna s v = Ok s' → length (cells s') = length (cells s).
Proof.
  unfold fillna. destruct v as [x|]; [|by intros [= <-]].
  destruct (dtype s) as [cats| |]; [destruct (decide (x ∈ cats)) | destruct x |];
    intros [= <-]; cbn; apply length_fmap.
Qed.

Lemma fill_cells_idem (x : @Scalar F) (cs : list (option Scalar)) :
  fill_cell x <$> (fill_cell x <$> cs) = fill_cell x <$> cs.
Proof.
  rewrite <- list_fmap_compose. apply list_fmap_ext.
  intros ? o _. apply fill_cell_idem.
Qed.

Lemma fillna_idem (s s' : Column) v :
  fillna s v = Ok s' → fillna s' v = Ok s'.
Proof.
  unfold fillna. destruct v as [x|]; [|by intros [= <-]].
  destruct (dtype s) as [cats| |] eqn:Ed.
  - destruct (decide (x ∈ cats)) as [Hin|]; [|discriminate].
    intros [= <-]. cbn. rewrite decide_True by exact Hin.
    by rewrite fill_cells_idem.
  - destruct x as [str|num]; intros [= <-]; cbn.
    + destruct (has_null (cells s)); cbn;
        rewrite ?has_null_filled, fill_cells_idem; reflexivity.
    + by rewrite fill_cells_idem.
  - intros [= <-]. cbn. destruct x; by rewrite fill_cells_idem.
Qed.

Lemma fillna_category (s s' : Column) v cats :
  dtype s = DCategory cats → fillna s v = Ok s' → dtype s' = DCategory cats.
Proof.
  intros Hd. unfold fillna. destruct v as [x|]; [|by intros [= <-]].
  rewrite Hd. destruct (decide (x ∈ cats)); [|discriminate].
  by intros [= <-].
Qed.

Lemma fillna_category_member (s : Column) x cats :
  dtype s = DCategory cats → x ∈ cats → ∃ s', fillna s (Some x) = Ok s'.
Proof.
  intros Hd Hin. unfold fillna. rewrite Hd, decide_True by exact Hin. eauto.
Qed.

Lemma fillna_not_category (s : Column) v :
  (∀ cats, dtype s ≠ DCategory cats) → ∃ s', fillna s v = Ok s'.
Proof.
  intros Hd. unfold fillna. destruct v as [x|]; [|eauto].
  destruct (dtype s) as [cats| |]; [by destruct (Hd cats) | |];
    destruct x; eauto.
Qed.

Lemma cat_add_categories_Ok (s s' : Column) new :
  cat_add_categories s new = Ok s' ↔
  ∃ cats, dtype s = DCategory cats ∧ (new ∉ cats) ∧
          s' = mkSeries (DCategory (cats ++ [new])) (cells s).
Proof.
  unfold cat_add_categories. destruct (dtype s) as [cats| |].
  - destruct (decide (new ∈ cats)) as [Hin|Hout].
    + split; [discriminate|]. intros (cats' & [= <-] & Hn & _). contradiction.
    + split; [intros [= <-]; eauto|]. by intros (cats' & [= <-] & _ & ->).
  - split; [discriminate | intros (? & [=] & _)].
  - split; [discriminate | intros (? & [=] & _)].
Qed.

Lemma cat_add_categories_present (s : Column) new cats :
  dtype s = DCategory cats → new ∈ cats →
  cat_add_categories s new =
  Raise (ValueError "new categories must not include old categories").
Proof.
  intros Hd Hin. unfold cat_add_categories. rewrite Hd.
  by rewrite decide_True.
Qed.

Lemma set_col_set_col (c : string) (s1 s2 : Column) cols :
  c ∈ cols.*1 → set_col c s2 (set_col c s1 cols) = set_col c s2 cols.
Proof.
  intros Hin.
  assert (Hin' : c ∈ (set_col c s1 cols).*1) by (by rewrite set_col_names).
  unfold set_col at 1. rewrite decide_True by exact Hin'.
  unfold set_col. rewrite !decide_True by exact Hin.
  rewrite <- list_fmap_compose. apply list_fmap_ext.
  intros ? [k s] _. cbn. destruct (decide (k = c)); cbn.
  - by rewrite decide_True.
  - by rewrite decide_False.
Qed.

(** On a frame whose columns are as long as its index, an assignment
    replaces the column and nothing else. *)
Lemma fill_cont_step_aligned (m : Model) (df : Frame) c :
  aligned df →
  fill_cont_step m df c =
  (s ← getitem df c; v ← fills_getitem m c; s' ← fillna s v;
   Ok (mkFrame (nrows df) (set_col c s' (columns df)))).
Proof.
  intros Hal. unfold fill_cont_step.
  destruct (getitem df c) as [s|e] eqn:Eg; [|reflexivity]. cbn.
  destruct (fills_getitem m c) as [v|e]; [|reflexivity]. cbn.
  destruct (fillna s v) as [s'|e] eqn:Ef; [|reflexivity]. cbn.
  f_equal. apply setitem_aligned.
  rewrite (fillna_length _ _ _ Ef).
  apply getitem_Ok, find_col_Some_elem in Eg.
  unfold aligned in Hal. rewrite Forall_forall in Hal. apply (Hal _ Eg).
Qed.

Lemma fill_cat_step_aligned (m : Model) (df : Frame) c :
  aligned df →
  fill_cat_step m df c =
  (s ← getitem df c; s1 ← cat_add_categories s (Str MISSING);
   v ← fills_getitem m c; s2 ← fillna s1 v;
   Ok (mkFrame (nrows df) (set_col c s2 (columns df)))).
Proof.
  intros Hal. unfold fill_cat_step.
  destruct (getitem df c) as [s|e] eqn:Eg; [|reflexivity]. cbn.
  destruct (cat_add_categories s (Str MISSING)) as [s1|e] eqn:Ea; [|reflexivity].
  cbn.
  assert (Hin : c ∈ (columns df).*1).
  { apply find_col_is_Some. apply getitem_Ok in Eg. eauto. }
  assert (Hlen : length (cells s) = nrows df).
  { apply getitem_Ok, find_col_Some_elem in Eg.
    unfold aligned in Hal. rewrite Forall_forall in Hal. apply (Hal _ Eg). }
  assert (Hlen1 : length (cells s1) = nrows df).
  { apply cat_add_categories_Ok in Ea as (cats & _ & _ & ->). exact Hlen. }
  rewrite (setitem_aligned df c s1 Hlen1).
  unfold getitem at 1. cbn. rewrite find_col_set_col, decide_True by reflexivity.
  cbn. destruct (fills_getitem m c) as [v|e]; [|reflexivity]. cbn.
  destruct (fillna s1 v) as [s2|e] eqn:Ef; [|reflexivity]. cbn.
  rewrite setitem_aligned by (cbn; by rewrite (fillna_length _ _ _ Ef)).
  cbn. by rewrite set_col_set_col.
Qed.


(** ** Steps and loops of [_fill_missing] *)

Lemma replaced_facts (df : Frame) c s' df' :
  aligned df → replaced df c s' df' →
  aligned df' ∧ col_names df' = col_names df ∧ nrows df' = nrows df ∧
  ∀ c', find_col c' (columns df') =
        if decide (c' = c) then Some s' else find_col c' (columns df).
Proof.
  intros Hal (Hin & Hlen & ->). cbn. repeat split.
  - unfold aligned. cbn. by apply set_col_aligned.
  - unfold col_names. cbn. by apply set_col_names.
  - intros c'. apply find_col_set_col.
Qed.

Lemma fill_cont_step_Ok (m : Model) df c df' :
  aligned df → fill_cont_step m df c = Ok df' →
  ∃ s v s', find_col c (columns df) = Some s ∧ columns_fills m !! c = Some v ∧
            fillna s v = Ok s' ∧ replaced df c s' df'.
Proof.
  intros Hal. rewrite fill_cont_step_aligned by exact Hal.
  unfold getitem, fills_getitem.
  destruct (find_col c (columns df)) as [s|] eqn:Es; [|discriminate]. cbn.
  destruct (columns_fills m !! c) as [v|]; [|discriminate]. cbn.
  destruct (fillna s v) as [s'|] eqn:Ef; [|discriminate]. cbn.
  intros [= <-]. exists s, v, s'. repeat split; try done.
  - apply find_col_is_Some. eauto.
  - rewrite (fillna_length _ _ _ Ef). apply find_col_Some_elem in Es.
    unfold aligned in Hal. rewrite Forall_forall in Hal. apply (Hal _ Es).
Qed.

Lemma fill_cat_step_Ok (m : Model) df c df' :
  aligned df → fill_cat_step m df c = Ok df' →
  ∃ s cats v s',
    find_col c (columns df) = Some s ∧ dtype s = DCategory cats ∧
    (Str MISSING ∉ cats) ∧ columns_fills m !! c = Some v ∧
    fillna (mkSeries (DCategory (cats ++ [Str MISSING])) (cells s)) v = Ok s' ∧
    replaced df c s' df'.
Proof.
  intros Hal. rewrite fill_cat_step_aligned by exact Hal.
  unfold getitem, fills_getitem.
  destruct (find_col c (columns df)) as [s|] eqn:Es; [|discriminate]. cbn.
  destruct (cat_add_categories s (Str MISSING)) as [s1|] eqn:Ea; [|discriminate].
  apply cat_add_categories_Ok in Ea as (cats & Hd & Hout & ->). cbn.
  destruct (columns_fills m !! c) as [v|]; [|discriminate]. cbn.
  destruct (fillna _ v) as [s'|] eqn:Ef; [|discriminate]. cbn.
  intros [= <-]. exists s, cats, v, s'. repeat split; try done.
  - apply find_col_is_Some. eauto.
  - rewrite (fillna_length _ _ _ Ef). cbn. apply find_col_Some_elem in Es.
    unfold aligned in Hal. rewrite Forall_forall in Hal. apply (Hal _ Es).
Qed.

Lemma fill_cont_step_replaces (m : Model) :
  replaces_column (fill_cont_step m).
Proof.
  intros df c df' Hal H.
  destruct (fill_cont_step_Ok m df c df' Hal H) as (? & ? & s' & _ & _ & _ & Hr).
  eauto.
Qed.

Lemma fill_cat_step_replaces (m : Model) :
  replaces_column (fill_cat_step m).
Proof.
  intros df c df' Hal H.
  destruct (fill_cat_step_Ok m df c df' Hal H)
    as (? & ? & ? & s' & _ & _ & _ & _ & _ & Hr).
  eauto.
Qed.

Lemma for_each_replaces step (cs : list string) (df : Frame) out :
  replaces_column step → aligned df → for_each step cs df = Ok out →
  aligned out ∧ col_names out = col_names df ∧ nrows out = nrows df ∧
  (∀ c, c ∈ cs → c ∈ col_names df) ∧
  (∀ c, c ∉ cs → find_col c (columns out) = find_col c (columns df)).
Proof.
  intros Hstep. revert df. induction cs as [|c cs IH]; intros df Hal; cbn.
  - intros [= <-]. repeat split; try done. intros c H. inversion H.
  - destruct (step df c) as [df1|] eqn:E1; [|discriminate]. cbn.
    intros Hout.
    destruct (Hstep df c df1 Hal E1) as [s' Hr].
    pose proof Hr as (Hin & _ & _).
    destruct (replaced_facts df c s' df1 Hal Hr) as (Hal1 & Hn1 & Hr1 & Hf1).
    destruct (IH df1 Hal1 Hout) as (Hal2 & Hn2 & Hr2 & Hin2 & Hf2).
    repeat split; try congruence.
    + intros c' Hc'. apply elem_of_cons in Hc' as [->|Hc']; [exact Hin|].
      rewrite <- Hn1. auto.
    + intros c' Hc'. apply not_elem_of_cons in Hc' as [Hne Hc'].
      rewrite Hf2 by exact Hc'. rewrite Hf1. by rewrite decide_False.
Qed.


(** ** Applying [_fill_missing] to its own output *)

Lemma cont_loop_settles (m : Model) (cs : list string) (df : Frame) out :
  aligned df → for_each (fill_cont_step m) cs df = Ok out →
  (∀ c, settled m c df → settled m c out) ∧
  (∀ c, c ∈ cs → settled m c out ∧ is_Some (columns_fills m !! c)).
Proof.
  revert df. induction cs as [|c cs IH]; intros df Hal; cbn.
  - intros [= <-]. split; [done|]. intros c H. inversion H.
  - destruct (fill_cont_step m df c) as [df1|] eqn:E1; [|discriminate]. cbn.
    intros Hout.
    destruct (fill_cont_step_Ok m df c df1 Hal E1)
      as (s & v & s' & Hs & Hv & Hf & Hr).
    destruct (replaced_facts df c s' df1 Hal Hr) as (Hal1 & _ & _ & Hf1).
    destruct (IH df1 Hal1 Hout) as [Hkeep Hnew].
    assert (Hc1 : settled m c df1).
    { intros s0 v0 Hs0 Hv0. rewrite Hf1, decide_True in Hs0 by reflexivity.
      injection Hs0 as <-. rewrite Hv in Hv0. injection Hv0 as <-.
      by apply (fillna_idem s). }
    split.
    + intros c' Hc'. apply Hkeep. destruct (decide (c' = c)) as [->|Hne].
      * exact Hc1.
      * intros s0 v0 Hs0. rewrite Hf1, decide_False in Hs0 by exact Hne.
        by apply Hc'.
    + intros c' Hc'. apply elem_of_cons in Hc' as [->|Hc']; [|by apply Hnew].
      split; [by apply Hkeep | eauto].
Qed.

Lemma cont_loop_fixed (m : Model) (cs : list string) (df : Frame) :
  aligned df → NoDup (col_names df) →
  (∀ c, c ∈ cs → c ∈ col_names df ∧ settled m c df ∧
                 is_Some (columns_fills m !! c)) →
  for_each (fill_cont_step m) cs df = Ok df.
Proof.
  intros Hal Hnd Hall. induction cs as [|c cs IH]; cbn; [reflexivity|].
  destruct (Hall c) as (Hin & Hset & [v Hv]); [left|].
  apply find_col_is_Some in Hin as [s Hs].
  rewrite fill_cont_step_aligned by exact Hal.
  unfold getitem, fills_getitem. rewrite Hs, Hv. cbn.
  rewrite (Hset s v Hs Hv). cbn.
  rewrite set_col_same by done.
  replace (mkFrame (nrows df) (columns df)) with df by (by destruct df).
  apply IH. intros c' Hc'. apply Hall. by right.
Qed.

Lemma fill_cat_step_sentinel (m : Model) (df : Frame) c c0 df' :
  aligned df → fill_cat_step m df c = Ok df' →
  c = c0 ∨ has_sentinel c0 df → has_sentinel c0 df'.
Proof.
  intros Hal H Hor.
  destruct (fill_cat_step_Ok m df c df' Hal H)
    as (s & cats & v & s' & Hs & Hd & Hout & Hv & Hf & Hr).
  destruct (replaced_facts df c s' df' Hal Hr) as (_ & _ & _ & Hf1).
  unfold has_sentinel, col_dtype in *. rewrite Hf1.
  destruct (decide (c0 = c)) as [->|Hne].
  - exists (cats ++ [Str MISSING])%list. cbn. split.
    + f_equal. eapply fillna_category; [|exact Hf]. reflexivity.
    + apply elem_of_app. right. left.
  - destruct Hor as [->|Hq]; [congruence | exact Hq].
Qed.

Lemma fill_cont_step_sentinel (m : Model) (df : Frame) c c0 df' :
  aligned df → fill_cont_step m df c = Ok df' →
  has_sentinel c0 df → has_sentinel c0 df'.
Proof.
  intros Hal H (cats & Hd & Hin).
  destruct (fill_cont_step_Ok m df c df' Hal H)
    as (s & v & s' & Hs & Hv & Hf & Hr).
  destruct (replaced_facts df c s' df' Hal Hr) as (_ & _ & _ & Hf1).
  exists cats. split; [|exact Hin].
  unfold col_dtype in *. rewrite Hf1.
  destruct (decide (c0 = c)) as [->|Hne]; [|exact Hd].
  rewrite Hs in Hd. cbn in *. injection Hd as Hd. f_equal.
  by apply (fillna_category s _ v).
Qed.

Lemma cat_loop_sentinel (m : Model) (cs : list string) (df : Frame) c0 out :
  aligned df → for_each (fill_cat_step m) cs df = Ok out →
  c0 ∈ cs ∨ has_sentinel c0 df → has_sentinel c0 out.
Proof.
  revert df. induction cs as [|c cs IH]; intros df Hal; cbn.
  - intros [= <-] [H|H]; [inversion H | exact H].
  - destruct (fill_cat_step m df c) as [df1|] eqn:E1; [|discriminate]. cbn.
    intros Hout Hor.
    destruct (fill_cat_step_replaces m df c df1 Hal E1) as [s' Hr].
    destruct (replaced_facts df c s' df1 Hal Hr) as (Hal1 & _).
    apply (IH df1 Hal1 Hout).
    destruct Hor as [Hin|Hq].
    + apply elem_of_cons in Hin as [->|Hin]; [|by left].
      right. apply (fill_cat_step_sentinel m df c c df1 Hal E1). by left.
    + right. apply (fill_cat_step_sentinel m df c c0 df1 Hal E1). by right.
Qed.

Lemma cont_loop_sentinel (m : Model) (cs : list string) (df : Frame) c0 out :
  aligned df → for_each (fill_cont_step m) cs df = Ok out →
  has_sentinel c0 df → has_sentinel c0 out.
Proof.
  revert df. induction cs as [|c cs IH]; intros df Hal; cbn.
  - by intros [= <-].
  - destruct (fill_cont_step m df c) as [df1|] eqn:E1; [|discriminate]. cbn.
    intros Hout Hq.
    destruct (fill_cont_step_replaces m df c df1 Hal E1) as [s' Hr].
    destruct (replaced_facts df c s' df1 Hal Hr) as (Hal1 & _).
    apply (IH df1 Hal1 Hout).
    by apply (fill_cont_step_sentinel m df c c0 df1 Hal E1).
Qed.

(** The three stages of a call of [_fill_missing] that returns. *)
Lemma fill_missing_Ok (m : Model) df out :
  aligned df → _fill_missing m df = Ok out →
  ∃ sel mid,
    getitem_list df (_inner_features m) = Ok sel ∧
    for_each (fill_cat_step m) (cat_columns m) sel = Ok mid ∧
    for_each (fill_cont_step m) (cont_columns m) mid = Ok out ∧
    aligned sel ∧ aligned mid ∧ aligned out ∧
    col_names out = _inner_features m ∧ nrows out = nrows df.
Proof.
  intros Hal. unfold _fill_missing.
  destruct (getitem_list df (_inner_features m)) as [sel|] eqn:Es; [|discriminate].
  cbn.
  destruct (for_each (fill_cat_step m) (cat_columns m) sel) as [mid|] eqn:Em;
    [|discriminate].
  cbn. intros Hout. exists sel, mid.
  destruct (getitem_list_Ok _ _ _ Es) as [Hall ->].
  assert (Hsel : aligned (mkFrame (nrows df)
                            (select (_inner_features m) (columns df))))
    by (unfold aligned; cbn; by apply select_aligned).
  destruct (for_each_replaces _ _ _ _ (fill_cat_step_replaces m) Hsel Em)
    as (Hmid & Hn1 & Hr1 & _).
  destruct (for_each_replaces _ _ _ _ (fill_cont_step_replaces m) Hmid Hout)
    as (Halo & Hn2 & Hr2 & _).
  repeat split; try done.
  - rewrite Hn2, Hn1. unfold col_names. cbn. by apply select_names.
  - by rewrite Hr2, Hr1.
Qed.


(** ** When [_fill_missing] returns *)

Lemma fill_cat_step_succeeds (m : Model) (df : Frame) c cats :
  aligned df → col_dtype df c = Some (DCategory cats) → Str MISSING ∉ cats →
  columns_fills m !! c = Some (Some (Str MISSING)) →
  ∃ df', fill_cat_step m df c = Ok df'.
Proof.
  intros Hal Hd Hout Hv. rewrite fill_cat_step_aligned by exact Hal.
  unfold col_dtype in Hd. unfold getitem, fills_getitem.
  destruct (find_col c (columns df)) as [s|]; [|discriminate].
  cbn in *. injection Hd as Hd.
  unfold cat_add_categories. rewrite Hd, decide_False by exact Hout. cbn.
  rewrite Hv. cbn. rewrite decide_True; [cbn; eauto|].
  apply elem_of_app. right. left.
Qed.

Lemma fill_cont_step_succeeds (m : Model) (df : Frame) c d :
  aligned df → col_dtype df c = Some d → (∀ cats, d ≠ DCategory cats) →
  is_Some (columns_fills m !! c) →
  ∃ df', fill_cont_step m df c = Ok df'.
Proof.
  intros Hal Hd Hnc [v Hv]. rewrite fill_cont_step_aligned by exact Hal.
  unfold col_dtype in Hd. unfold getitem, fills_getitem.
  destruct (find_col c (columns df)) as [s|]; [|discriminate].
  cbn in *. injection Hd as Hd. rewrite Hv. cbn.
  destruct (fillna_not_category s v) as [s' ->]; [by rewrite Hd|].
  cbn. eauto.
Qed.

Lemma cat_loop_succeeds (m : Model) (cs : list string) (df : Frame) :
  aligned df → NoDup cs →
  (∀ c, c ∈ cs → columns_fills m !! c = Some (Some (Str MISSING)) ∧
                 ∃ cats, col_dtype df c = Some (DCategory cats) ∧
                         (Str MISSING ∉ cats)) →
  ∃ out, for_each (fill_cat_step m) cs df = Ok out.
Proof.
  revert df. induction cs as [|c cs IH]; intros df Hal Hnd Hall; cbn; [eauto|].
  apply NoDup_cons in Hnd as [Hc Hnd].
  destruct (Hall c) as (Hv & cats & Hd & Hout); [left|].
  destruct (fill_cat_step_succeeds m df c cats Hal Hd Hout Hv) as [df1 E1].
  rewrite E1. cbn.
  destruct (fill_cat_step_replaces m df c df1 Hal E1) as [s' Hr].
  destruct (replaced_facts df c s' df1 Hal Hr) as (Hal1 & _ & _ & Hf1).
  apply IH; [exact Hal1 | exact Hnd |].
  intros c' Hc'. destruct (Hall c') as (Hv' & Hd'); [by right|].
  split; [exact Hv'|]. unfold col_dtype in *. rewrite Hf1.
  rewrite decide_False; [exact Hd'|]. intros ->. contradiction.
Qed.

Lemma cont_loop_succeeds (m : Model) (cs : list string) (df : Frame) :
  aligned df → NoDup cs →
  (∀ c, c ∈ cs → is_Some (columns_fills m !! c) ∧
                 ∃ d, col_dtype df c = Some d ∧ ∀ cats, d ≠ DCategory cats) →
  ∃ out, for_each (fill_cont_step m) cs df = Ok out.
Proof.
  revert df. induction cs as [|c cs IH]; intros df Hal Hnd Hall; cbn; [eauto|].
  apply NoDup_cons in Hnd as [Hc Hnd].
  destruct (Hall c) as (Hv & d & Hd & Hnc); [left|].
  destruct (fill_cont_step_succeeds m df c d Hal Hd Hnc Hv) as [df1 E1].
  rewrite E1. cbn.
  destruct (fill_cont_step_replaces m df c df1 Hal E1) as [s' Hr].
  destruct (replaced_facts df c s' df1 Hal Hr) as (Hal1 & _ & _ & Hf1).
  apply IH; [exact Hal1 | exact Hnd |].
  intros c' Hc'. destruct (Hall c') as (Hv' & Hd'); [by right|].
  split; [exact Hv'|]. unfold col_dtype in *. rewrite Hf1.
  rewrite decide_False; [exact Hd'|]. intros ->. contradiction.
Qed.

Lemma fill_missing_succeeds (m : Model) (X : Frame) :
  aligned X → schema_fitted m → frame_fits m X →
  ∃ out, _fill_missing m X = Ok out.
Proof.
  intros Hal (Hinner & Hnd & Hcatv & Hcontv) [Hcat Hcont].
  rewrite Hinner in Hnd. apply NoDup_app in Hnd as (Hndcat & Hdisj & Hndcont).
  assert (Hpresent : ∀ c, c ∈ _inner_features m → c ∈ col_names X).
  { intros c Hc. rewrite Hinner in Hc. apply col_dtype_col_names.
    apply elem_of_app in Hc as [Hc|Hc].
    - destruct (Hcat c Hc) as (cats & -> & _). eauto.
    - destruct (Hcont c Hc) as (d & -> & _). eauto. }
  unfold _fill_missing. rewrite getitem_list_present by exact Hpresent. cbn.
  set (sel := mkFrame (nrows X) (select (_inner_features m) (columns X))).
  assert (Hsel : aligned sel) by (unfold aligned; cbn; by apply select_aligned).
  assert (Hdt : ∀ c, c ∈ _inner_features m → col_dtype sel c = col_dtype X c).
  { intros c Hc. unfold col_dtype, sel. cbn.
    by rewrite find_col_select, decide_True. }
  destruct (cat_loop_succeeds m (cat_columns m) sel) as [mid Emid];
    [exact Hsel | exact Hndcat | |].
  { intros c Hc. split; [by apply Hcatv|].
    rewrite Hdt by (rewrite Hinner; apply elem_of_app; by left). by apply Hcat. }
  rewrite Emid. cbn.
  destruct (for_each_replaces _ _ _ _ (fill_cat_step_replaces m) Hsel Emid)
    as (Hmid & _ & _ & _ & Hsame).
  apply cont_loop_succeeds; [exact Hmid | exact Hndcont |].
  intros c Hc. split.
  - destruct (Hcontv c Hc) as [mu ->]. eauto.
  - destruct (Hcont c Hc) as (d & Hd & Hnc).
    exists d. split; [|exact Hnc].
    unfold col_dtype. rewrite Hsame by (intros Hc'; by apply (Hdisj c)).
    fold (col_dtype sel c).
    by rewrite Hdt by (rewrite Hinner; apply elem_of_app; by right).
Qed.

(** C1, as amended. On a frame as pandas builds it: with no categorical
    feature in the schema, applying [_fill_missing] to its own result gives
    that result again; with a categorical feature, a second application to
    the result raises, because the sentinel is already a category. The
    result is a function of the schema and the frame alone, and no call of
    [_preprocess] outside the fit changes the model object, fill values
    included. *)
Theorem fill_missing_twice (m : Model) (df : Frame) :
  frame_wf df →
  (cat_columns m = [] → NoDup (_inner_features m) →
   _fill_missing m df ≫= _fill_missing m = _fill_missing m df) ∧
  (cat_columns m ≠ [] → ∀ out, _fill_missing m df = Ok out →
   _fill_missing m out =
   Raise (ValueError "new categories must not include old categories")) ∧
  (∀ df', df' = df → _fill_missing m df' = _fill_missing m df) ∧
  (∀ X, (preprocess m X false).1 = m).
Proof.
  intros [_ Hal]. fold (aligned df) in Hal. repeat split.
  - intros Hcat Hnd.
    destruct (_fill_missing m df) as [out|e] eqn:E; [|reflexivity]. cbn.
    destruct (fill_missing_Ok m df out Hal E)
      as (sel & mid & _ & Hmid & Hout & _ & Halm & Halo & Hn & _).
    destruct (for_each_replaces _ _ _ _ (fill_cont_step_replaces m) Halm Hout)
      as (_ & Hnm & _ & Hin & _).
    destruct (cont_loop_settles m _ _ _ Halm Hout) as [_ Hset].
    unfold _fill_missing. rewrite <- Hn at 1.
    rewrite getitem_list_self by (by rewrite Hn).
    rewrite Hcat. cbn.
    apply cont_loop_fixed; [exact Halo | by rewrite Hn |].
    intros c Hc. destruct (Hset c Hc) as [H1 H2].
    repeat split; try done. rewrite Hnm. by apply Hin.
  - intros Hcat out E.
    destruct (cat_columns m) as [|c0 rest] eqn:Ecat; [done|].
    destruct (fill_missing_Ok m df out Hal E)
      as (sel & mid & _ & Hmid & Hout & Hals & Halm & Halo & Hn & _).
    rewrite Ecat in Hmid.
    assert (Hq : has_sentinel c0 out).
    { apply (cont_loop_sentinel m _ mid c0 out Halm Hout).
      apply (cat_loop_sentinel m _ sel c0 mid Hals Hmid). left. left. }
    destruct Hq as (cats & Hd & Hin).
    assert (Hc0 : c0 ∈ _inner_features m).
    { rewrite <- Hn. apply col_dtype_col_names. rewrite Hd. eauto. }
    unfold _fill_missing.
    rewrite getitem_list_present by (intros c Hc; by rewrite Hn). cbn.
    rewrite Ecat. cbn. unfold fill_cat_step, getitem. cbn.
    rewrite find_col_select, decide_True by exact Hc0.
    unfold col_dtype in Hd.
    destruct (find_col c0 (columns out)) as [s|]; [|discriminate].
    cbn in *. injection Hd as Hd.
    by rewrite (cat_add_categories_present s _ cats Hd Hin).
  - by intros df' ->.
  - intros X. unfold _preprocess. by destruct (super_preprocess X).
Qed.


(** ** Schema stability *)

Lemma getitem_list_ext (df1 df2 : Frame) (cs : list string) :
  nrows df1 = nrows df2 →
  (∀ c, c ∈ cs → find_col c (columns df1) = find_col c (columns df2)) →
  getitem_list df1 cs = getitem_list df2 cs.
Proof.
  intros Hn Hsame. unfold getitem_list, col_names. rewrite Hn.
  assert (Hsel : select cs (columns df1) = select cs (columns df2)).
  { induction cs as [|c cs IH]; cbn; [reflexivity|].
    rewrite Hsame by left. rewrite IH; [reflexivity|].
    intros c' Hc'. apply Hsame. by right. }
  assert (Hfil : filter (λ c, c ∉ (columns df1).*1) cs
                 = filter (λ c, c ∉ (columns df2).*1) cs).
  { clear Hsel. induction cs as [|c cs IH]; [reflexivity|].
    rewrite !filter_cons.
    rewrite IH by (intros c' Hc'; apply Hsame; by right).
    assert (Hiff : c ∈ (columns df1).*1 ↔ c ∈ (columns df2).*1).
    { rewrite <- !find_col_is_Some. rewrite Hsame by left. reflexivity. }
    destruct (decide (c ∉ (columns df1).*1)) as [H1|H1],
             (decide (c ∉ (columns df2).*1)) as [H2|H2]; try reflexivity.
    - destruct H2. intros Hc. by apply H1, Hiff.
    - destruct H1. intros Hc. by apply H2, Hiff. }
  by rewrite Hsel, Hfil.
Qed.

(** C9. Outside the fit, and with a base-class step that adds no column:
    a frame lacking a schema column makes [_preprocess] raise, with a
    [KeyError] naming the missing labels once the base-class step has
    returned; whenever [_preprocess] returns a frame, its columns are exactly
    the schema's, in schema order, and it is the same frame whatever other
    columns the input has; and it does return on a well-formed frame that
    carries the schema's columns with the fitted types. *)
Theorem preprocess_schema_stability (m : Model)
    (X : Frame) :
  (∀ Y Y', super_preprocess Y = Ok Y' → col_names Y' ⊆ col_names Y) →
  (∀ c, c ∈ _inner_features m → c ∉ col_names X →
     ∃ e, (preprocess m X false).2 = Raise e ∧
          ∀ X', super_preprocess X = Ok X' →
                e = KeyError (filter (λ c, c ∉ col_names X')
                                (_inner_features m)) ∧
                c ∈ filter (λ c, c ∉ col_names X') (_inner_features m)) ∧
  (∀ X' out, super_preprocess X = Ok X' → frame_wf X' →
     (preprocess m X false).2 = Ok out →
     col_names out = _inner_features m ∧ nrows out = nrows X' ∧
     ∀ Y, nrows Y = nrows X' →
          (∀ c, c ∈ _inner_features m →
                find_col c (columns Y) = find_col c (columns X')) →
          _fill_missing m Y = Ok out) ∧
  (∀ X', super_preprocess X = Ok X' → frame_wf X' →
     schema_fitted m → frame_fits m X' →
     ∃ out, (preprocess m X false).2 = Ok out).
Proof.
  intros Hsuper. unfold _preprocess. split; [|split].
  - intros c Hc Hout.
    destruct (super_preprocess X) as [X'|e] eqn:Es; cbn.
    + assert (Hout' : c ∉ col_names X').
      { intros H. apply Hout. by apply (Hsuper X X' Es). }
      destruct (getitem_list_missing X' _ c Hc Hout') as [Hr Hin].
      exists (KeyError (filter (λ c, c ∉ col_names X') (_inner_features m))).
      split.
      * unfold _fill_missing. by rewrite Hr.
      * by intros ? [= <-].
    + exists e. split; [reflexivity | discriminate].
  - intros X' out Es [_ Hal] Hout. rewrite Es in Hout. cbn in Hout.
    destruct (fill_missing_Ok m X' out Hal Hout)
      as (_ & _ & _ & _ & _ & _ & _ & _ & Hn & Hr).
    split; [exact Hn|]. split; [exact Hr|].
    intros Y HnY Hsame. rewrite <- Hout.
    unfold _fill_missing. by rewrite (getitem_list_ext Y X' _ HnY Hsame).
  - intros X' Es [_ Hal] Hfit Hfits. rewrite Es. cbn.
    by apply fill_missing_succeeds.
Qed.


(** ** Concatenation *)

Lemma np_add_arange (m n : nat) : np_add (np_arange m) n = seq n m.
Proof.
  unfold np_add, np_arange.
  replace (seq n m) with (seq (n + 0) m) by (f_equal; lia).
  rewrite <- fmap_add_seq. apply list_fmap_ext. intros _ i _. lia.
Qed.

Lemma foldl_add_label_elem (seen l : list string) (c : string) :
  c ∈ foldl add_label seen l ↔ c ∈ seen ∨ c ∈ l.
Proof.
  revert seen. induction l as [|x l IH]; intros seen; cbn.
  - rewrite elem_of_nil. prop_solve.
  - rewrite IH. unfold add_label. rewrite elem_of_cons.
    destruct (decide (x ∈ seen)) as [Hx|Hx].
    + split; [prop_solve|]. intros [H|[->|H]]; prop_solve.
    + rewrite elem_of_app, list_elem_of_singleton. prop_solve.
Qed.

Lemma foldl_add_label_fresh (seen l : list string) :
  NoDup (seen ++ l) → foldl add_label seen l = (seen ++ l)%list.
Proof.
  revert seen. induction l as [|x l IH]; intros seen Hnd; cbn.
  - by rewrite app_nil_r.
  - unfold add_label. rewrite decide_False.
    + rewrite IH; rewrite <- app_assoc; [reflexivity | exact Hnd].
    + apply NoDup_app in Hnd as (_ & Hdisj & _). intros Hx.
      apply (Hdisj x Hx). left.
Qed.

Lemma foldl_add_label_seen (seen l : list string) :
  (∀ x, x ∈ l → x ∈ seen) → foldl add_label seen l = seen.
Proof.
  induction l as [|x l IH]; intros Hsub; cbn; [reflexivity|].
  unfold add_label. rewrite decide_True by (apply Hsub; left).
  apply IH. intros y Hy. apply Hsub. by right.
Qed.

Lemma elem_of_nub (l : list string) (c : string) : c ∈ nub l ↔ c ∈ l.
Proof. unfold nub. rewrite foldl_add_label_elem, elem_of_nil. prop_solve. Qed.

Lemma nub_NoDup (l : list string) : NoDup l → nub l = l.
Proof. intros Hnd. unfold nub. by rewrite foldl_add_label_fresh. Qed.

Lemma nub_app_self (l : list string) : NoDup l → nub (l ++ l) = l.
Proof.
  intros Hnd. unfold nub. rewrite foldl_app.
  rewrite (foldl_add_label_fresh [] l) by exact Hnd. cbn.
  by apply foldl_add_label_seen.
Qed.

Lemma find_col_tabulate (f : string → Column) (l : list string) (c : string) :
  find_col c ((λ c, (c, f c)) <$> l)
  = if decide (c ∈ l) then Some (f c) else None.
Proof.
  induction l as [|x l IH]; cbn.
  - by rewrite decide_False by apply not_elem_of_nil.
  - destruct (decide (x = c)) as [->|Hne].
    + by rewrite decide_True by left.
    + rewrite IH. destruct (decide (c ∈ l)).
      * by rewrite decide_True by (by right).
      * rewrite decide_False; [reflexivity|].
        intros H. apply elem_of_cons in H as [H|H]; congruence.
Qed.

Lemma tabulate_self (cols : list (string * Column)) (f : string → Column) :
  (∀ c s, (c, s) ∈ cols → f c = s) → (λ c, (c, f c)) <$> cols.*1 = cols.
Proof.
  intros Hf. induction cols as [|[k s] cols IH]; cbn; [reflexivity|].
  rewrite (Hf k s) by left. f_equal. apply IH.
  intros c s' H. apply Hf. by right.
Qed.

Lemma piece_of_column (df : Frame) (c : string) (s : Column) :
  NoDup (col_names df) → (c, s) ∈ columns df → piece_of c df = s.
Proof.
  intros Hnd Hin. unfold piece_of.
  by rewrite (find_col_NoDup c (columns df) s Hnd Hin).
Qed.

Lemma concat_series_single (s : Column) : concat_series [s] = s.
Proof.
  unfold concat_series, join_dtypes. cbn.
  rewrite decide_True by constructor. rewrite app_nil_r. by destruct s.
Qed.

Lemma concat_column_single (X : Frame) (c : string) (s : Column) :
  NoDup (col_names X) → (c, s) ∈ columns X → concat_column c [X] = s.
Proof.
  intros Hnd Hin. unfold concat_column. cbn.
  rewrite (piece_of_column X c s Hnd Hin).
  rewrite (find_col_NoDup c (columns X) s Hnd Hin). cbn.
  unfold join_dtypes. rewrite decide_True by constructor.
  rewrite app_nil_r. by destruct s.
Qed.

Lemma concat_column_self (X : Frame) (c : string) (s : Column) :
  NoDup (col_names X) → (c, s) ∈ columns X →
  concat_column c [X; X] = series_twice s.
Proof.
  intros Hnd Hin. unfold concat_column, series_twice. cbn.
  rewrite (piece_of_column X c s Hnd Hin).
  rewrite (find_col_NoDup c (columns X) s Hnd Hin). cbn.
  unfold join_dtypes.
  rewrite decide_True by (constructor; [reflexivity | constructor]).
  by rewrite app_nil_r.
Qed.

Lemma cells_concat_column_pair (X1 X2 : Frame) (c : string) :
  cells (concat_column c [X1; X2])
  = (cells (piece_of c X1) ++ cells (piece_of c X2))%list.
Proof. unfold concat_column. cbn. by rewrite app_nil_r. Qed.

(** Concatenation of frames with unique labels. *)
Lemma pd_concat_unique_single (X : Frame) :
  NoDup (col_names X) →
  pd_concat [Some X; None]
  = Ok (mkFrame (nrows X)
          ((λ c, (c, concat_column c [X])) <$> col_names X)).
Proof.
  intros Hnd. unfold pd_concat. cbn [omap list_omap id fmap list_fmap].
  cbv zeta. rewrite decide_True by (by repeat constructor).
  cbn [sum_list sum_list_with concat]. f_equal.
  rewrite Nat.add_0_r, app_nil_r, nub_NoDup by exact Hnd. reflexivity.
Qed.

Lemma pd_concat_unique_pair (X1 X2 : Frame) :
  NoDup (col_names X1) → NoDup (col_names X2) →
  pd_concat [Some X1; Some X2]
  = Ok (mkFrame (nrows X1 + nrows X2)
          ((λ c, (c, concat_column c [X1; X2]))
             <$> nub (col_names X1 ++ col_names X2))).
Proof.
  intros Hnd1 Hnd2. unfold pd_concat. cbn [omap list_omap id fmap list_fmap].
  cbv zeta. rewrite decide_True by (by repeat constructor).
  cbn [sum_list sum_list_with concat]. f_equal.
  by rewrite Nat.add_0_r, app_nil_r.
Qed.

(** [pd.concat([X, None])] is [X] with a fresh index. *)
Lemma pd_concat_single (X : Frame) :
  NoDup (col_names X) → pd_concat [Some X; None] = Ok X.
Proof.
  intros Hnd. rewrite pd_concat_unique_single by exact Hnd. f_equal.
  destruct X as [n cols]. unfold col_names in *. cbn [columns nrows] in *. f_equal.
  apply tabulate_self. intros c s Hin.
  by apply (concat_column_single (mkFrame n cols) c s Hnd Hin).
Qed.

Lemma pd_concat_series_single (y : Column) :
  pd_concat_series [Some y; None] = Ok y.
Proof.
  unfold pd_concat_series. cbn -[concat_series].
  by rewrite concat_series_single.
Qed.

Lemma pd_concat_self (X : Frame) :
  NoDup (col_names X) → pd_concat [Some X; Some X] = Ok (twice X).
Proof.
  intros Hnd. rewrite pd_concat_unique_pair by exact Hnd.
  unfold twice. f_equal. rewrite nub_app_self by exact Hnd.
  f_equal. unfold col_names.
  rewrite <- (tabulate_self (prod_map id series_twice <$> columns X)
                (λ c, concat_column c [X; X])).
  - by rewrite fmap_fst_prod_map.
  - intros c s Hin. apply list_elem_of_fmap in Hin as ([k s0] & [= -> ->] & Hin).
    cbn -[concat_column]. by apply concat_column_self.
Qed.


Lemma piece_of_length (X : Frame) (c : string) :
  aligned X → length (cells (piece_of c X)) = nrows X.
Proof.
  intros Hal. unfold piece_of.
  destruct (find_col c (columns X)) as [s|] eqn:E.
  - apply find_col_Some_elem in E. unfold aligned in Hal.
    rewrite Forall_forall in Hal. apply (Hal _ E).
  - cbn. apply length_replicate.
Qed.

Lemma piece_of_cell (X : Frame) (c : string) (i : nat) :
  c ∈ col_names X → cells (piece_of c X) !! i = cell X c i.
Proof.
  intros Hin. apply find_col_is_Some in Hin as [s Hs].
  unfold piece_of, cell. by rewrite Hs.
Qed.

Lemma cells_concat_series_pair (a b : Column) :
  cells (concat_series [a; b]) = (cells a ++ cells b)%list.
Proof. unfold concat_series. cbn. by rewrite app_nil_r. Qed.

Lemma pd_concat_pair (X1 X2 : Frame) :
  NoDup (col_names X1) → NoDup (col_names X2) →
  ∃ df, pd_concat [Some X1; Some X2] = Ok df ∧
        nrows df = nrows X1 + nrows X2 ∧
        (aligned X1 → aligned X2 → aligned df) ∧
        ∀ c, find_col c (columns df) =
             if decide (c ∈ (col_names X1 ++ col_names X2)%list)
             then Some (concat_column c [X1; X2])
             else None.
Proof.
  intros Hnd1 Hnd2. eexists.
  split; [by apply pd_concat_unique_pair|]. cbn -[concat_column nub].
  split; [reflexivity|]. split.
  - intros Hal1 Hal2. unfold aligned. cbn -[concat_column nub].
    apply Forall_fmap, Forall_forall. intros c _.
    cbn -[concat_column].
    rewrite cells_concat_column_pair, length_app.
    by rewrite !piece_of_length.
  - intros c.
    rewrite (find_col_tabulate (λ c, concat_column c [X1; X2])).
    destruct (decide (c ∈ (col_names X1 ++ col_names X2)%list)) as [Hin|Hout].
    + by rewrite decide_True by (by apply elem_of_nub).
    + by rewrite decide_False by (by rewrite elem_of_nub).
Qed.

Lemma cell_set_col (n : nat) (cols : list (string * Column))
    (c c' : string) (s : Column) (i : nat) :
  cell (mkFrame n (set_col c s cols)) c' i =
  if decide (c' = c) then cells s !! i else cell (mkFrame n cols) c' i.
Proof.
  unfold cell. cbn. rewrite find_col_set_col.
  by destruct (decide (c' = c)).
Qed.

(** C3. With a validation set supplied and labels as long as their frames,
    [_generate_datasets] returns train indices [0, n_train) and validation
    indices [n_train, n_train + n_val); the two are disjoint, their sizes add
    up to the length of the assembled frame, and the frame holds the train
    rows, then the validation rows, with the labels in the label column. *)
Theorem generate_datasets_with_validation (X X_val : Frame)
    (y y_val : Column) :
  frame_wf X → frame_wf X_val →
  length (cells y) = nrows X → length (cells y_val) = nrows X_val →
  ∃ df_train train_idx val_idx,
    _generate_datasets X y (Some X_val) (Some y_val)
      = Ok (df_train, train_idx, val_idx) ∧
    train_idx = seq 0 (nrows X) ∧
    val_idx = seq (nrows X) (nrows X_val) ∧
    (∀ i, i ∈ train_idx → i ∉ val_idx) ∧
    length train_idx + length val_idx = nrows df_train ∧
    (∀ c i, c ≠ LABEL → c ∈ col_names X → i < nrows X →
            cell df_train c i = cell X c i) ∧
    (∀ c j, c ≠ LABEL → c ∈ col_names X_val → j < nrows X_val →
            cell df_train c (nrows X + j) = cell X_val c j) ∧
    (∀ i, i < nrows X → cell df_train LABEL i = cells y !! i) ∧
    (∀ j, j < nrows X_val →
          cell df_train LABEL (nrows X + j) = cells y_val !! j).
Proof.
  intros [Hnd Hal] [Hndv Halv] Hy Hyv. fold (aligned X) in Hal.
  fold (aligned X_val) in Halv.
  destruct (pd_concat_pair X X_val Hnd Hndv) as (df0 & E0 & Hn0 & Hal0 & Hf0).
  specialize (Hal0 Hal Halv).
  unfold _generate_datasets. rewrite E0.
  cbn -[concat_series setitem np_add np_arange].
  set (labels := concat_series [y; y_val]).
  assert (Hlab : cells labels = (cells y ++ cells y_val)%list)
    by apply cells_concat_series_pair.
  assert (Hlen : length (cells labels) = nrows df0)
    by (rewrite Hlab, length_app; lia).
  rewrite (setitem_aligned df0 LABEL labels Hlen).
  rewrite np_add_arange. unfold np_arange.
  eexists _, _, _. split; [reflexivity|].
  split; [reflexivity|]. split; [reflexivity|]. split.
  { intros i Hi Hi'. apply elem_of_seq in Hi, Hi'. lia. }
  split.
  { cbn. rewrite !length_seq. lia. }
  split; [|split; [|split]].
  - intros c i Hc Hin Hi. rewrite cell_set_col, decide_False by exact Hc.
    unfold cell. cbn. rewrite Hf0.
    rewrite decide_True by (apply elem_of_app; by left).
    cbn -[concat_column]. rewrite cells_concat_column_pair.
    rewrite lookup_app_l by (by rewrite piece_of_length).
    rewrite piece_of_cell by exact Hin. reflexivity.
  - intros c j Hc Hin Hj. rewrite cell_set_col, decide_False by exact Hc.
    unfold cell. cbn. rewrite Hf0.
    rewrite decide_True by (apply elem_of_app; by right).
    cbn -[concat_column]. rewrite cells_concat_column_pair.
    rewrite lookup_app_r by (rewrite piece_of_length by exact Hal; lia).
    rewrite piece_of_length by exact Hal.
    replace (nrows X + j - nrows X) with j by lia.
    rewrite piece_of_cell by exact Hin. reflexivity.
  - intros i Hi. rewrite cell_set_col, decide_True by reflexivity.
    rewrite Hlab. apply lookup_app_l. lia.
  - intros j Hj. rewrite cell_set_col, decide_True by reflexivity.
    rewrite Hlab, lookup_app_r by lia. f_equal. lia.
Qed.


Lemma set_col_NoDup (c : string) (s : Column) cols :
  NoDup cols.*1 → NoDup (set_col c s cols).*1.
Proof.
  intros Hnd. destruct (decide (c ∈ cols.*1)) as [Hin|Hout].
  - by rewrite set_col_names.
  - unfold set_col. rewrite decide_False by exact Hout.
    rewrite fmap_app. cbn. apply NoDup_app. split; [exact Hnd|].
    split; [|apply NoDup_singleton].
    intros x Hx Hx'. apply list_elem_of_singleton in Hx'. by subst.
Qed.

Lemma cell_twice (df : Frame) (c : string) (i : nat) :
  aligned df → i < nrows df →
  cell (twice df) c i = cell df c i ∧
  cell (twice df) c (nrows df + i) = cell df c i.
Proof.
  intros Hal Hi. unfold cell, twice. cbn. rewrite find_col_fmap_snd.
  destruct (find_col c (columns df)) as [s|] eqn:E; cbn; [|done].
  assert (Hlen : length (cells s) = nrows df).
  { apply find_col_Some_elem in E. unfold aligned in Hal.
    rewrite Forall_forall in Hal. apply (Hal _ E). }
  split.
  - apply lookup_app_l. lia.
  - rewrite lookup_app_r by lia. f_equal. lia.
Qed.

(** C4. With no validation set and labels as long as the frame,
    [_generate_datasets] returns a frame of 2 * n rows whose second half
    repeats the first, the first half being the train rows with their
    labels; the train indices are [0, n), the validation indices [n, 2n),
    and together they are the rows of the frame, each once. *)
Theorem generate_datasets_refit (X : Frame) (y : Column) :
  frame_wf X → length (cells y) = nrows X →
  ∃ df_train train_idx val_idx,
    _generate_datasets X y None None = Ok (df_train, train_idx, val_idx) ∧
    nrows df_train = 2 * nrows X ∧
    train_idx = seq 0 (nrows X) ∧
    val_idx = seq (nrows X) (nrows X) ∧
    (train_idx ++ val_idx)%list = seq 0 (nrows df_train) ∧
    (∀ i, i ∈ train_idx → i ∉ val_idx) ∧
    (∀ c i, i < nrows X → cell df_train c (nrows X + i) = cell df_train c i) ∧
    (∀ c i, c ≠ LABEL → i < nrows X → cell df_train c i = cell X c i) ∧
    (∀ i, i < nrows X → cell df_train LABEL i = cells y !! i).
Proof.
  intros [Hnd Hal] Hy. fold (aligned X) in Hal.
  unfold _generate_datasets.
  rewrite pd_concat_single by exact Hnd.
  rewrite pd_concat_series_single.
  cbn -[pd_concat setitem np_add np_arange].
  rewrite (setitem_aligned X LABEL y Hy).
  set (df1 := mkFrame (nrows X) (set_col LABEL y (columns X))).
  assert (Hal1 : aligned df1).
  { unfold aligned, df1. cbn. by apply set_col_aligned. }
  rewrite pd_concat_self by (unfold col_names, df1; cbn; by apply set_col_NoDup).
  unfold np_arange. rewrite length_seq, np_add_arange.
  eexists _, _, _. split; [reflexivity|].
  split; [cbn; lia|]. split; [reflexivity|]. split; [reflexivity|].
  split.
  { cbn. by rewrite seq_app. }
  split.
  { intros i Hi Hi'. apply elem_of_seq in Hi, Hi'. lia. }
  split; [|split].
  - intros c i Hi.
    destruct (cell_twice df1 c i Hal1 Hi) as [H1 H2].
    rewrite H1. exact H2.
  - intros c i Hc Hi.
    destruct (cell_twice df1 c i Hal1 Hi) as [-> _].
    unfold df1. rewrite cell_set_col, decide_False by exact Hc.
    by destruct X.
  - intros i Hi.
    destruct (cell_twice df1 LABEL i Hal1 Hi) as [-> _].
    unfold df1. by rewrite cell_set_col, decide_True.
Qed.


(** ** Duplicating the rows commutes with [_fill_missing] *)

Lemma aligned_twice (df : Frame) : aligned df → aligned (twice df).
Proof.
  unfold aligned, twice. cbn. intros Hal.
  apply Forall_fmap. eapply Forall_impl; [exact Hal|].
  intros [k s] Hk. cbn in *. rewrite length_app. lia.
Qed.

Lemma col_names_twice (df : Frame) : col_names (twice df) = col_names df.
Proof. unfold col_names, twice. cbn. apply fmap_fst_prod_map. Qed.

Lemma getitem_twice (df : Frame) (c : string) :
  getitem (twice df) c = series_twice <$> getitem df c.
Proof.
  unfold getitem, twice. cbn. rewrite find_col_fmap_snd.
  by destruct (find_col c (columns df)).
Qed.

Lemma select_twice (cs : list string) (cols : list (string * Column)) :
  select cs (prod_map id series_twice <$> cols)
  = prod_map id series_twice <$> select cs cols.
Proof.
  induction cs as [|c cs IH]; cbn; [reflexivity|].
  rewrite find_col_fmap_snd.
  destruct (find_col c cols) as [s|]; cbn; by rewrite IH.
Qed.

Lemma getitem_list_twice (df : Frame) (cs : list string) :
  getitem_list (twice df) cs = twice <$> getitem_list df cs.
Proof.
  unfold getitem_list. rewrite col_names_twice.
  destruct (filter (λ c, c ∉ col_names df) cs); [|reflexivity].
  unfold twice. cbn. by rewrite select_twice.
Qed.

Lemma cat_add_categories_twice (s : Column) new :
  cat_add_categories (series_twice s) new
  = series_twice <$> cat_add_categories s new.
Proof.
  unfold cat_add_categories, series_twice. cbn.
  destruct (dtype s) as [cats| |]; [|reflexivity..].
  by destruct (decide (new ∈ cats)).
Qed.

Lemma has_null_twice (cs : list (option (@Scalar F))) :
  has_null (cs ++ cs) = has_null cs.
Proof.
  unfold has_null. apply bool_decide_ext. rewrite elem_of_app. prop_solve.
Qed.

Lemma fillna_twice (s : Column) v :
  fillna (series_twice s) v = series_twice <$> fillna s v.
Proof.
  unfold fillna, series_twice. destruct v as [x|]; [|reflexivity]. cbn.
  destruct (dtype s) as [cats| |].
  - destruct (decide (x ∈ cats)); [|reflexivity]. cbn. by rewrite fmap_app.
  - destruct x; cbn; by rewrite ?has_null_twice, fmap_app.
  - destruct x; cbn; by rewrite fmap_app.
Qed.

Lemma set_col_twice (c : string) (s : Column) cols :
  set_col c (series_twice s) (prod_map id series_twice <$> cols)
  = prod_map id series_twice <$> set_col c s cols.
Proof.
  unfold set_col. rewrite fmap_fst_prod_map.
  destruct (decide (c ∈ cols.*1)).
  - rewrite <- !list_fmap_compose. apply list_fmap_ext.
    intros _ [k s0] _. cbn. by destruct (decide (k = c)).
  - by rewrite fmap_app.
Qed.

Lemma fill_cont_step_twice (m : Model) (df : Frame) (c : string) :
  aligned df →
  fill_cont_step m (twice df) c = twice <$> fill_cont_step m df c.
Proof.
  intros Hal.
  rewrite !fill_cont_step_aligned by auto using aligned_twice.
  rewrite getitem_twice. destruct (getitem df c) as [s|]; [|reflexivity]. cbn.
  destruct (fills_getitem m c) as [v|]; [|reflexivity]. cbn.
  rewrite fillna_twice. destruct (fillna s v) as [s'|]; [|reflexivity]. cbn.
  unfold twice. cbn. by rewrite set_col_twice.
Qed.

Lemma fill_cat_step_twice (m : Model) (df : Frame) (c : string) :
  aligned df →
  fill_cat_step m (twice df) c = twice <$> fill_cat_step m df c.
Proof.
  intros Hal.
  rewrite !fill_cat_step_aligned by auto using aligned_twice.
  rewrite getitem_twice. destruct (getitem df c) as [s|]; [|reflexivity]. cbn.
  rewrite cat_add_categories_twice.
  destruct (cat_add_categories s (Str MISSING)) as [s1|]; [|reflexivity]. cbn.
  destruct (fills_getitem m c) as [v|]; [|reflexivity]. cbn.
  rewrite fillna_twice. destruct (fillna s1 v) as [s'|]; [|reflexivity]. cbn.
  unfold twice. cbn. by rewrite set_col_twice.
Qed.

Lemma for_each_twice step (cs : list string) (df : Frame) :
  replaces_column step →
  (∀ df c, aligned df → step (twice df) c = twice <$> step df c) →
  aligned df →
  for_each step cs (twice df) = twice <$> for_each step cs df.
Proof.
  intros Hrep Hstep. revert df.
  induction cs as [|c cs IH]; intros df Hal; cbn; [reflexivity|].
  rewrite Hstep by exact Hal.
  destruct (step df c) as [df1|] eqn:E1; [|reflexivity]. cbn.
  destruct (Hrep df c df1 Hal E1) as [s' Hr].
  destruct (replaced_facts df c s' df1 Hal Hr) as (Hal1 & _).
  by apply IH.
Qed.

Lemma fill_missing_duplicated_rows (m : Model) (df : Frame) :
  aligned df → _fill_missing m (twice df) = twice <$> _fill_missing m df.
Proof.
  intros Hal. unfold _fill_missing. rewrite getitem_list_twice.
  destruct (getitem_list df (_inner_features m)) as [sel|] eqn:Es; [|reflexivity].
  cbn.
  assert (Hsel : aligned sel).
  { destruct (getitem_list_Ok _ _ _ Es) as [_ ->].
    unfold aligned. cbn. by apply select_aligned. }
  rewrite (for_each_twice _ _ _ (fill_cat_step_replaces m)
             (fill_cat_step_twice m) Hsel).
  destruct (for_each (fill_cat_step m) (cat_columns m) sel) as [mid|] eqn:Em;
    [|reflexivity].
  cbn.
  destruct (for_each_replaces _ _ _ _ (fill_cat_step_replaces m) Hsel Em)
    as (Hmid & _).
  by apply (for_each_twice _ _ _ (fill_cont_step_replaces m)
              (fill_cont_step_twice m)).
Qed.


(** ** Single-row prediction *)

Lemma concat_take_1 {A : Type} (l : list (list A)) :
  Forall (λ r, length r = 1) l → concat (take 1 l) = take 1 (concat l).
Proof.
  intros Hall. destruct l as [|r l]; [reflexivity|].
  apply Forall_cons in Hall as [Hr _].
  destruct r as [|x [|? ?]]; try discriminate. cbn. reflexivity.
Qed.

Lemma column_1_take (preds : list (list F)) (k : nat) :
  Forall (λ r, length r = k) preds →
  column_1 (take 1 preds) = take 1 <$> column_1 preds.
Proof.
  intros Hall. destruct preds as [|r rest]; [reflexivity|].
  unfold column_1. cbn.
  destruct (r !! 1) as [x|] eqn:Er; cbn; [|reflexivity].
  assert (Hk : 1 < k).
  { apply Forall_cons in Hall as [<- _]. apply lookup_lt_is_Some. eauto. }
  destruct (mapM_is_Some_2 (λ row : list F, row !! 1) rest) as [col Hcol].
  { apply Forall_cons in Hall as [_ Hall].
    eapply Forall_impl; [exact Hall|]. intros r' Hr'. cbn in *.
    apply lookup_lt_is_Some. by rewrite Hr'. }
  rewrite Hcol. reflexivity.
Qed.

(** C6. For a one-row frame [X] that the base-class step treats row by
    row, a schema without repeated features, and a learner whose outputs are
    rectangular (one column for regression): the prediction on [X] is the
    first row of the prediction on [X] with its row duplicated, for every
    problem type, exceptions included. And the value is the learner's: when
    the learner answers the duplicated batch with the rows [r0] and [r1],
    the one-row call returns exactly the decoding of [r0] (the row itself,
    its second entry for binary problems, its single entry mapped back
    through the target scaler for regression) and the two-row call returns
    the decodings of [r0] and [r1]. *)
Theorem single_row_prediction (m : Model) (X : Frame) :
  nrows X = 1 →
  super_preprocess (twice X) = twice <$> super_preprocess X →
  (∀ X', super_preprocess X = Ok X' → frame_wf X' ∧ nrows X' = nrows X) →
  NoDup (_inner_features m) →
  (∀ learner batch preds,
     model m = Some learner → get_preds learner batch = Ok preds →
     ∃ k, Forall (λ r, length r = k) preds ∧
          (problem_type m = REGRESSION → k = 1)) →
  predict_proba m X = arr_take 1 <$> predict_proba m (twice X) ∧
  ∀ X' filled learner r0 r1,
    super_preprocess X = Ok X' → _fill_missing m X' = Ok filled →
    model m = Some learner →
    get_preds learner (twice filled) = Ok [r0; r1] →
    let unscale v :=
      match y_scaler m with
      | Some scaler => inverse_transform scaler v
      | None => v
      end in
    match problem_type m with
    | REGRESSION =>
        ∃ v0 v1, r0 = [v0] ∧ r1 = [v1] ∧
          predict_proba m X = Ok (Arr1 [unscale v0]) ∧
          predict_proba m (twice X) = Ok (Arr1 [unscale v0; unscale v1])
    | BINARY =>
        ∀ p0 p1, r0 !! 1 = Some p0 → r1 !! 1 = Some p1 →
          predict_proba m X = Ok (Arr1 [p0]) ∧
          predict_proba m (twice X) = Ok (Arr1 [p0; p1])
    | MULTICLASS =>
        predict_proba m X = Ok (Arr2 [r0]) ∧
        predict_proba m (twice X) = Ok (Arr2 [r0; r1])
    end.
Proof.
  intros Hone Hsuper Hwf Hnd Hshape. split.
  {
    unfold _predict_proba, _preprocess. rewrite Hsuper.
    destruct (super_preprocess X) as [X'|e] eqn:Es; [|reflexivity].
    destruct (Hwf X' eq_refl) as [[_ Hal] Hn]. fold (aligned X') in Hal.
    cbn [fmap Exc_fmap snd].
    rewrite (fill_missing_duplicated_rows m X' Hal).
    destruct (_fill_missing m X') as [out|e] eqn:Eo; [|reflexivity].
    destruct (fill_missing_Ok m X' out Hal Eo)
      as (_ & _ & _ & _ & _ & _ & _ & _ & Hnames & Hrows).
    cbn [fmap Exc_fmap mbind Exc_bind].
    assert (Hout1 : nrows out = 1) by lia.
    rewrite (bool_decide_eq_true_2 (nrows out = 1)) by exact Hout1.
    rewrite (bool_decide_eq_false_2 (nrows (twice out) = 1))
      by (unfold twice; cbn; lia).
    rewrite pd_concat_self by (by rewrite Hnames).
    cbn [mbind Exc_bind].
    unfold model_handle.
    destruct (model m) as [learner|] eqn:Em; [|reflexivity].
    cbn [mbind Exc_bind].
    destruct (get_preds learner (twice out)) as [preds|e] eqn:Ep; [|reflexivity].
    cbn [mbind Exc_bind].
    destruct (Hshape learner (twice out) preds eq_refl Ep) as (k & Hrect & Hreg).
    destruct (decide (problem_type m = REGRESSION)) as [Hpt|Hpt].
    - specialize (Hreg Hpt). subst k.
      destruct (y_scaler m) as [scaler|]; cbn; do 2 f_equal.
      + rewrite fmap_take. apply concat_take_1.
        apply Forall_fmap. eapply Forall_impl; [exact Hrect|].
        intros r Hr. cbn. by rewrite length_fmap.
      + by apply concat_take_1.
    - destruct (decide (problem_type m = BINARY)).
      + rewrite (column_1_take preds k Hrect).
        by destruct (column_1 preds).
      + reflexivity.
  }
  intros X' filled learner r0 r1 Es Eo Em Ep. cbv zeta.
  destruct (Hwf X' Es) as [[_ Hal] Hn]. fold (aligned X') in Hal.
  destruct (fill_missing_Ok m X' filled Hal Eo)
    as (_ & _ & _ & _ & _ & _ & _ & _ & Hnames & Hrows).
  assert (Hout1 : nrows filled = 1) by lia.
  assert (Hsingle : predict_proba m X =
    (let preds := take 1 [r0; r1] in
     if decide (problem_type m = REGRESSION) then
       match y_scaler m with
       | Some scaler =>
           Ok (Arr1 (concat ((λ row : list F, inverse_transform scaler <$> row)
                               <$> preds)))
       | None => Ok (Arr1 (concat preds))
       end
     else if decide (problem_type m = BINARY) then Arr1 <$> column_1 preds
     else Ok (Arr2 preds))).
  { unfold _predict_proba, _preprocess. rewrite Es. cbn [snd].
    rewrite Eo. cbn [mbind Exc_bind].
    rewrite (bool_decide_eq_true_2 (nrows filled = 1)) by exact Hout1.
    rewrite pd_concat_self by (by rewrite Hnames).
    cbn [mbind Exc_bind]. unfold model_handle. rewrite Em.
    cbn [mbind Exc_bind]. rewrite Ep. reflexivity. }
  assert (Hdouble : predict_proba m (twice X) =
    (let preds := [r0; r1] in
     if decide (problem_type m = REGRESSION) then
       match y_scaler m with
       | Some scaler =>
           Ok (Arr1 (concat ((λ row : list F, inverse_transform scaler <$> row)
                               <$> preds)))
       | None => Ok (Arr1 (concat preds))
       end
     else if decide (problem_type m = BINARY) then Arr1 <$> column_1 preds
     else Ok (Arr2 preds))).
  { unfold _predict_proba, _preprocess. rewrite Hsuper, Es.
    cbn [fmap Exc_fmap snd].
    rewrite (fill_missing_duplicated_rows m X' Hal), Eo.
    cbn [fmap Exc_fmap mbind Exc_bind].
    rewrite (bool_decide_eq_false_2 (nrows (twice filled) = 1))
      by (unfold twice; cbn; lia).
    cbn [mbind Exc_bind]. unfold model_handle. rewrite Em.
    cbn [mbind Exc_bind]. rewrite Ep. reflexivity. }
  rewrite Hsingle, Hdouble. cbv zeta.
  destruct (problem_type m) eqn:Ept.
  - rewrite decide_False by discriminate. rewrite decide_True by reflexivity.
    intros p0 p1 H0 H1. unfold column_1. cbn. rewrite H0, H1. by cbn.
  - rewrite decide_False by discriminate. rewrite decide_False by discriminate.
    done.
  - rewrite decide_True by reflexivity.
    destruct (Hshape learner (twice filled) [r0; r1] Em Ep) as (k & Hrect & Hk).
    rewrite (Hk eq_refl) in Hrect.
    apply Forall_cons in Hrect as [H0 Hrect].
    apply Forall_cons in Hrect as [H1 _].
    destruct r0 as [|v0 [|? ?]]; try discriminate.
    destruct r1 as [|v1 [|? ?]]; try discriminate.
    exists v0, v1. split; [reflexivity|]. split; [reflexivity|].
    by destruct (y_scaler m).
Qed.


(** ** What a fit leaves in the model object *)

Lemma get_features_elem (metadata : list (string * RawType))
    (valid : list RawType) (c : string) :
  c ∈ get_features metadata valid ↔ ∃ t, (c, t) ∈ metadata ∧ t ∈ valid.
Proof.
  unfold get_features. rewrite list_elem_of_fmap. split.
  - intros ([k t] & -> & Hin). apply list_elem_of_filter in Hin as [Hv Hin].
    exists t. by split.
  - intros (t & Hin & Hv). exists (c, t). split; [reflexivity|].
    apply list_elem_of_filter. by split.
Qed.

Lemma get_features_NoDup (metadata : list (string * RawType))
    (valid : list RawType) :
  NoDup metadata.*1 → NoDup (get_features metadata valid).
Proof.
  intros Hnd. unfold get_features.
  eapply sublist_NoDup; [exact Hnd|].
  apply fmap_sublist, sublist_filter.
Qed.

Lemma foldl_insert_lookup (v : option (@Scalar F)) (cs : list string)
    (fills : gmap string (option (@Scalar F))) (c : string) :
  foldl (λ fills c, <[c := v]> fills) fills cs !! c =
  if decide (c ∈ cs) then Some v else fills !! c.
Proof.
  revert fills. induction cs as [|x cs IH]; intros fills; cbn.
  - by rewrite decide_False by apply not_elem_of_nil.
  - rewrite IH. destruct (decide (c ∈ cs)) as [Hin|Hout].
    + by rewrite decide_True by (by right).
    + destruct (decide (x = c)) as [->|Hne].
      * rewrite decide_True by left. apply lookup_insert_eq.
      * rewrite lookup_insert_ne by exact Hne.
        rewrite decide_False; [reflexivity|].
        intros H. apply elem_of_cons in H as [H|H]; congruence.
Qed.

Lemma fill_means_Ok (X : Frame) (cs : list string)
    (fills0 fills : gmap string (option (@Scalar F))) :
  fill_means series_mean X cs fills0 = (fills, Ok ()) →
  (∀ c, c ∈ cs → ∃ mu : option F, fills !! c = Some (Num <$> mu)) ∧
  (∀ c, c ∉ cs → fills !! c = fills0 !! c).
Proof.
  revert fills0. induction cs as [|x cs IH]; intros fills0; cbn.
  - intros [= <-]. split; [|done]. intros c Hc. inversion Hc.
  - destruct (getitem X x ≫= series_mean) as [mu|e]; [|discriminate].
    intros Hrest. destruct (IH _ Hrest) as [Hin Hout]. split.
    + intros c Hc. destruct (decide (c ∈ cs)) as [Hc'|Hc']; [by apply Hin|].
      apply elem_of_cons in Hc as [->|Hc]; [|contradiction].
      rewrite Hout by exact Hc'. rewrite lookup_insert_eq. eauto.
    + intros c Hc. apply not_elem_of_cons in Hc as [Hne Hc].
      rewrite Hout by exact Hc. by rewrite lookup_insert_ne.
Qed.

(** A fit that returns, on metadata that types each feature once, leaves a
    fitted schema. *)
Lemma fit_schema_fitted (m m' : Model) (X : Frame) :
  NoDup (feature_metadata m).*1 →
  fit m X = (m', Ok ()) → schema_fitted m'.
Proof.
  intros Hnd. unfold fit_schema, fit_schema_with, fit_schema_init. cbv zeta.
  cbn [cat_columns cont_columns columns_fills feature_metadata
       set_cat_columns set_cont_columns set_columns_fills].
  set (cats := filter (λ f, f ∈ col_names X) (filter _ _)).
  set (conts := filter (λ f, f ∈ col_names X) _).
  destruct (fill_means _ _ _ _) as [fills r] eqn:Ef.
  destruct r as [[]|e]; [|discriminate].
  intros [= <-]. unfold schema_fitted. cbn.
  destruct (fill_means_Ok _ _ _ _ Ef) as [Hin Hout].
  assert (Hcats : ∀ c, c ∈ cats → c ∈ get_features (feature_metadata m)
                                        [R_OBJECT; R_CATEGORY; R_BOOL]).
  { intros c Hc. unfold cats in Hc.
    apply list_elem_of_filter in Hc as [_ Hc].
    by apply list_elem_of_filter in Hc as [_ Hc]. }
  assert (Hconts : ∀ c, c ∈ conts → c ∈ get_features (feature_metadata m)
                                          [R_INT; R_FLOAT; R_DATETIME]).
  { intros c Hc. unfold conts in Hc.
    by apply list_elem_of_filter in Hc as [_ Hc]. }
  assert (Hdisj : ∀ c, c ∈ cats → c ∉ conts).
  { intros c Hc Hc'. apply Hcats, get_features_elem in Hc as (t1 & Hm1 & Ht1).
    apply Hconts, get_features_elem in Hc' as (t2 & Hm2 & Ht2).
    assert (t1 = t2) as <-.
    { clear -Hnd Hm1 Hm2.
      induction (feature_metadata m) as [|[k t] md IH]; [inversion Hm1|].
      cbn in Hnd. apply NoDup_cons in Hnd as [Hk Hnd].
      apply elem_of_cons in Hm1 as [Hm1|Hm1];
        apply elem_of_cons in Hm2 as [Hm2|Hm2]; [congruence | | | auto].
      - injection Hm1 as Hc Ht. subst k t.
        destruct Hk. apply list_elem_of_fmap. by exists (c, t2).
      - injection Hm2 as Hc Ht. subst k t.
        destruct Hk. apply list_elem_of_fmap. by exists (c, t1). }
    destruct t1; repeat (apply elem_of_cons in Ht1 as [Ht1|Ht1]; try discriminate);
      try (by inversion Ht1);
      repeat (apply elem_of_cons in Ht2 as [Ht2|Ht2]; try discriminate);
      by inversion Ht2. }
  split; [reflexivity|]. split; [|split].
  - apply NoDup_app. split; [|split; [exact Hdisj|]].
    + unfold cats. do 2 apply NoDup_filter. by apply get_features_NoDup.
    + unfold conts. apply NoDup_filter. by apply get_features_NoDup.
  - intros c Hc. rewrite Hout by (by apply Hdisj).
    by rewrite foldl_insert_lookup, decide_True.
  - exact Hin.
Qed.


(** * Further properties of the modelled code *)

Variable scaler_fit_transform :
  @Scaler F → Column → Exc (@Scaler F * Column).
Variable scaler_transform : @Scaler F → Column → Exc Column.
Variable import_fastai_learner : Exc unit.
Variable import_fastai_basic_train : Exc unit.
Variable read_error : string → PyErr.

Local Abbreviation preprocess_train :=
  (_preprocess_train super_preprocess series_mean
     scaler_fit_transform scaler_transform).
Local Abbreviation load_model :=
  (load model_file_name import_fastai_learner import_fastai_basic_train
     read_error).

(** ** What [_fill_missing] does to each cell *)

Lemma fillna_cells (s s' : Column) v :
  fillna s v = Ok s' → cells s' = apply_fill v <$> cells s.
Proof.
  unfold fillna. destruct v as [x|].
  - destruct (dtype s) as [cats| |];
      [destruct (decide (x ∈ cats)); [|discriminate] | destruct x |];
      by intros [= <-].
  - intros [= <-]. cbn. by rewrite list_fmap_id.
Qed.

Lemma fillna_number_dtype (s s' : Column) (mu : option F) :
  fillna s (Num <$> mu) = Ok s' → dtype s' = dtype s.
Proof.
  unfold fillna. destruct mu as [x|]; cbn; [|by intros [= <-]].
  destruct (dtype s) as [cats| |];
    [destruct (decide (Num x ∈ cats)); [|discriminate] | |];
    by intros [= <-].
Qed.

(** A loop over distinct columns relates each of them, as the loop found
    it, to what it is afterwards. *)
Lemma for_each_columns (R : string → Column → Column → Prop)
    (step : Frame → string → Exc Frame) (cs : list string) (df out : Frame) :
  (∀ df c df', aligned df → step df c = Ok df' →
     ∃ s s', find_col c (columns df) = Some s ∧ R c s s' ∧
             replaced df c s' df') →
  aligned df → NoDup cs → for_each step cs df = Ok out →
  ∀ c, c ∈ cs →
       ∃ s s', find_col c (columns df) = Some s ∧
               find_col c (columns out) = Some s' ∧ R c s s'.
Proof.
  intros Hstep.
  assert (Hrep : replaces_column step).
  { intros df0 c df' Hal H. destruct (Hstep df0 c df' Hal H) as (_ & s' & _ & _ & Hr).
    eauto. }
  revert df. induction cs as [|c0 cs IH]; intros df Hal Hnd; cbn.
  - intros _ c Hc. inversion Hc.
  - apply NoDup_cons in Hnd as [Hc0 Hnd].
    destruct (step df c0) as [df1|] eqn:E1; [|discriminate]. cbn.
    intros Hout c Hc.
    destruct (Hstep df c0 df1 Hal E1) as (s & s' & Hs & HR & Hr).
    destruct (replaced_facts df c0 s' df1 Hal Hr) as (Hal1 & _ & _ & Hf1).
    destruct (decide (c = c0)) as [->|Hne].
    + exists s, s'. split; [exact Hs|]. split; [|exact HR].
      destruct (for_each_replaces step cs df1 out Hrep Hal1 Hout)
        as (_ & _ & _ & _ & Hsame).
      rewrite Hsame by exact Hc0. rewrite Hf1. by rewrite decide_True.
    + apply elem_of_cons in Hc as [Hc|Hc]; [contradiction|].
      destruct (IH df1 Hal1 Hnd Hout c Hc) as (s1 & s1' & Hs1 & Hs1' & HR1).
      exists s1, s1'. split; [|by split].
      rewrite Hf1 in Hs1. by rewrite decide_False in Hs1.
Qed.

(** The columns of the result, feature by feature. *)
Lemma fill_missing_columns (m : Model) (X out : Frame) :
  aligned X → schema_fitted m → _fill_missing m X = Ok out →
  (∀ c, c ∈ cat_columns m →
     ∃ s cats s', find_col c (columns X) = Some s ∧ dtype s = DCategory cats ∧
                  (Str MISSING ∉ cats) ∧
                  find_col c (columns out) = Some s' ∧
                  dtype s' = DCategory (cats ++ [Str MISSING]) ∧
                  cells s' = fill_cell (Str MISSING) <$> cells s) ∧
  (∀ c, c ∈ cont_columns m →
     ∃ s mu s', find_col c (columns X) = Some s ∧
                columns_fills m !! c = Some (Num <$> mu) ∧
                find_col c (columns out) = Some s' ∧
                dtype s' = dtype s ∧
                cells s' = apply_fill (Num <$> mu) <$> cells s).
Proof.
  intros Hal (Hinner & Hnd & Hcatv & Hcontv) Hout.
  rewrite Hinner in Hnd. apply NoDup_app in Hnd as (Hndcat & Hdisj & Hndcont).
  destruct (fill_missing_Ok m X out Hal Hout)
    as (sel & mid & Hsel & Hmid & Hfin & Hals & Halm & _).
  destruct (getitem_list_Ok _ _ _ Hsel) as [_ ->].
  assert (Hfsel : ∀ c, c ∈ _inner_features m →
            find_col c (select (_inner_features m) (columns X))
            = find_col c (columns X)).
  { intros c Hc. by rewrite find_col_select, decide_True. }
  destruct (for_each_replaces _ _ _ _ (fill_cat_step_replaces m) Hals Hmid)
    as (_ & _ & _ & _ & Hmid_same).
  destruct (for_each_replaces _ _ _ _ (fill_cont_step_replaces m) Halm Hfin)
    as (_ & _ & _ & _ & Hout_same).
  split.
  - intros c Hc.
    destruct (for_each_columns
                (λ c s s', ∃ cats v, dtype s = DCategory cats ∧
                   (Str MISSING ∉ cats) ∧ columns_fills m !! c = Some v ∧
                   fillna (mkSeries (DCategory (cats ++ [Str MISSING]))
                             (cells s)) v = Ok s')
                (fill_cat_step m) (cat_columns m)
                (mkFrame (nrows X) (select (_inner_features m) (columns X)))
                mid) with (c := c)
      as (s & s' & Hs & Hs' & cats & v & Hd & Hno & Hv & Hf);
      [|exact Hals|exact Hndcat|exact Hmid|exact Hc|].
    { intros df c0 df' Hal0 H0.
      destruct (fill_cat_step_Ok m df c0 df' Hal0 H0)
        as (s0 & cats0 & v0 & s0' & ? & ? & ? & ? & ? & ?).
      exists s0, s0'. split; [done|]. split; [|done]. by exists cats0, v0. }
    cbn in Hs. rewrite Hfsel in Hs
      by (rewrite Hinner; apply elem_of_app; by left).
    rewrite (Hcatv c Hc) in Hv. injection Hv as <-.
    exists s, cats, s'. split; [exact Hs|]. split; [exact Hd|].
    split; [exact Hno|]. split.
    + rewrite Hout_same by (by apply Hdisj). exact Hs'.
    + split.
      * eapply fillna_category; [|exact Hf]. reflexivity.
      * by rewrite (fillna_cells _ _ _ Hf).
  - intros c Hc.
    destruct (for_each_columns
                (λ c s s', ∃ v, columns_fills m !! c = Some v ∧
                                fillna s v = Ok s')
                (fill_cont_step m) (cont_columns m) mid out) with (c := c)
      as (s & s' & Hs & Hs' & v & Hv & Hf);
      [|exact Halm|exact Hndcont|exact Hfin|exact Hc|].
    { intros df c0 df' Hal0 H0.
      destruct (fill_cont_step_Ok m df c0 df' Hal0 H0)
        as (s0 & v0 & s0' & ? & ? & ? & ?).
      exists s0, s0'. split; [done|]. split; [|done]. by exists v0. }
    rewrite Hmid_same in Hs by (intros Hc'; by apply (Hdisj c)).
    cbn in Hs. rewrite Hfsel in Hs
      by (rewrite Hinner; apply elem_of_app; by right).
    destruct (Hcontv c Hc) as [mu Hmu]. rewrite Hmu in Hv. injection Hv as <-.
    exists s, mu, s'. split; [exact Hs|]. split; [exact Hmu|].
    split; [exact Hs'|]. split.
    + by apply (fillna_number_dtype s s' mu).
    + by apply fillna_cells.
Qed.

(** X3. On a well-formed frame and a fitted schema, a call of
    [_fill_missing] that returns has changed the missing cells of the
    schema's columns and nothing else: each cell of a schema column is the
    input cell with the column's fill value applied, row by row, and the
    result has no other column. *)
Theorem fill_missing_cells (m : Model) (X out : Frame) :
  frame_wf X → schema_fitted m → _fill_missing m X = Ok out →
  (∀ c i, c ∈ _inner_features m →
          ∃ v, columns_fills m !! c = Some v ∧
               cell out c i = apply_fill v <$> cell X c i) ∧
  (∀ c i, c ∉ _inner_features m → cell out c i = None).
Proof.
  intros [_ Hal] Hfit Hout. fold (aligned X) in Hal.
  destruct (fill_missing_columns m X out Hal Hfit Hout) as [Hcat Hcont].
  destruct Hfit as (Hinner & _ & Hcatv & _).
  split.
  - intros c i Hc. rewrite Hinner in Hc. apply elem_of_app in Hc as [Hc|Hc].
    + destruct (Hcat c Hc) as (s & cats & s' & Hs & _ & _ & Hs' & _ & Hcells).
      exists (Some (Str MISSING)). split; [by apply Hcatv|].
      unfold cell. rewrite Hs, Hs'. cbn. by rewrite Hcells, list_lookup_fmap.
    + destruct (Hcont c Hc) as (s & mu & s' & Hs & Hv & Hs' & _ & Hcells).
      exists (Num <$> mu). split; [exact Hv|].
      unfold cell. rewrite Hs, Hs'. cbn. by rewrite Hcells, list_lookup_fmap.
  - intros c i Hc.
    destruct (fill_missing_Ok m X out Hal Hout)
      as (_ & _ & _ & _ & _ & _ & _ & _ & Hn & _).
    unfold cell. replace (find_col c (columns out)) with (@None Column); [done|].
    symmetry. apply find_col_None. fold (col_names out). by rewrite Hn.
Qed.



(** ** The schema built by a fit *)


Lemma fill_means_Raise (X : Frame) (cs : list string)
    (fills0 fills : gmap string (option (@Scalar F))) (e : PyErr) :
  (∀ c, c ∈ cs → c ∈ col_names X) →
  fill_means series_mean X cs fills0 = (fills, Raise e) →
  ∃ c s, c ∈ cs ∧ find_col c (columns X) = Some s ∧ series_mean s = Raise e.
Proof.
  revert fills0. induction cs as [|x cs IH]; intros fills0 Hin; cbn.
  - discriminate.
  - destruct (find_col_is_Some x (columns X)) as [_ Hsome].
    destruct Hsome as [s Hs]; [apply Hin; left|].
    unfold getitem. rewrite Hs. cbn.
    destruct (series_mean s) as [mu|e'] eqn:Em.
    + intros Hrest.
      destruct (IH (<[x := Num <$> mu]> fills0)) as (c & s' & Hc & Hs' & Hm);
        [intros c Hc; apply Hin; by right | exact Hrest |].
      exists c, s'. split; [by right | by split].
    + intros [= _ ->]. exists x, s. split; [left | by split].
Qed.


(** X7. When the fit branch raises before [_fill_missing] is reached, the
    exception is the one raised by the mean of a continuous feature's
    column, [_preprocess] passes it on, and the model object is left with
    the new continuous features but with the list of inner features it had
    before the call. *)
Theorem failed_fit_state (m m' : Model) (X0 X : Frame) (e : PyErr) :
  super_preprocess X0 = Ok X →
  fit m X = (m', Raise e) →
  preprocess m X0 true = (m', Raise e) ∧
  (∃ c s, c ∈ cont_columns m' ∧ find_col c (columns X) = Some s ∧
          series_mean s = Raise e) ∧
  cont_columns m' =
    filter (λ f, f ∈ col_names X)
      (get_features (feature_metadata m) [R_INT; R_FLOAT; R_DATETIME]) ∧
  _inner_features m' = _inner_features m.
Proof.
  intros Hsuper Hfit. split.
  - unfold _preprocess. by rewrite Hsuper, Hfit.
  - revert Hfit.
    unfold fit_schema, fit_schema_with, fit_schema_init. cbv zeta.
    cbn [cat_columns cont_columns columns_fills feature_metadata
         set_cat_columns set_cont_columns set_columns_fills].
    set (conts := filter (λ f, f ∈ col_names X) _).
    destruct (fill_means _ _ _ _) as [fills r] eqn:Ef.
    destruct r as [[]|e']; [discriminate|].
    intros [= <- <-]. cbn. split; [|by split].
    eapply fill_means_Raise; [|exact Ef].
    intros c Hc. unfold conts in Hc.
    by apply list_elem_of_filter in Hc as [Hc _].
Qed.


(** ** The cardinality screen *)

Lemma mask_select_screen (t : Z) (cols : list (string * Column)) :
  let u := (λ kc : string * Column,
              if is_numeric (dtype kc.2) then None else Some (nunique kc.2))
             <$> cols in
  mask_select (zip_with orb ((λ x, gt_cell x t) <$> u) (series_isna u)) cols.*1
  = (filter (λ kc : string * Column,
               is_numeric (dtype kc.2) = true ∨ (t < nunique kc.2)%Z) cols).*1.
Proof.
  cbv zeta. unfold mask_select, series_isna.
  induction cols as [|[k s] cols IH]; [reflexivity|].
  cbn -[nunique].
  destruct (is_numeric (dtype s)) eqn:En; cbn -[nunique].
  - rewrite decide_True by reflexivity. rewrite decide_True by (by left).
    cbn. f_equal. exact IH.
  - rewrite orb_false_r.
    destruct (decide (t < nunique s)%Z) as [Hlt|Hge].
    + rewrite bool_decide_eq_true_2 by exact Hlt.
      rewrite decide_True by reflexivity. rewrite decide_True by (by right).
      cbn. f_equal. exact IH.
    + rewrite bool_decide_eq_false_2 by exact Hge.
      rewrite decide_False by discriminate.
      rewrite decide_False by (intros [?|?]; [discriminate | contradiction]).
      exact IH.
Qed.

Lemma stats_drop_list (m : Model) (X : Frame) (t : Z) :
  Exists (λ kc, is_numeric (dtype kc.2) = false) (columns X) →
  dict_get (params m) "max_unique_categorical_values" (PyInt 10000) = PyInt t →
  cat_cols_to_drop_stats m X =
  Ok (filter (λ kc : string * Column,
                is_numeric (dtype kc.2) = true ∨ (t < nunique kc.2)%Z)
        (columns X)).*1.
Proof.
  intros Hex Hthr. unfold cat_cols_to_drop_stats, describe_T.
  rewrite decide_False by (intros H; rewrite H in Hex; inversion Hex).
  cbn -[nunique].
  replace (forallb _ (columns X)) with false.
  - cbn -[nunique]. rewrite Hthr. cbn -[nunique]. f_equal.
    apply (mask_select_screen t (columns X)).
  - symmetry. apply not_true_iff_false. intros Hall.
    rewrite forallb_forall in Hall. apply Exists_exists in Hex as (kc & Hin & Hkc).
    rewrite (Hall kc) in Hkc by (by apply list_elem_of_In). discriminate.
Qed.

(** X6. When the frame has unique labels and at least one column that is
    not a number column (a categorical, object or datetime64 column), and
    the threshold is an integer, the categorical features after the fit are
    exactly the metadata's categorical features whose column in the frame
    is not a number column and has at most the threshold's number of
    distinct values; this holds whether or not the rest of the fit
    returns. *)
Theorem fit_screens_cardinality (m : Model) (X : Frame) (t : Z) (c : string) :
  NoDup (col_names X) →
  Exists (λ kc, is_numeric (dtype kc.2) = false) (columns X) →
  dict_get (params m) "max_unique_categorical_values" (PyInt 10000) = PyInt t →
  c ∈ cat_columns (fit m X).1 ↔
  c ∈ get_features (feature_metadata m) [R_OBJECT; R_CATEGORY; R_BOOL] ∧
  ∃ s, find_col c (columns X) = Some s ∧ is_numeric (dtype s) = false ∧
       (nunique s ≤ t)%Z.
Proof.
  intros Hnd Hex Hthr.
  assert (Hcats : cat_columns (fit m X).1 =
            filter (λ f, f ∈ col_names X)
              (filter (λ col, col ∈ filter
                         (λ col0, col0 ∉ (filter (λ kc : string * Column,
                             is_numeric (dtype kc.2) = true
                             ∨ (t < nunique kc.2)%Z) (columns X)).*1)
                         (col_names X))
                 (get_features (feature_metadata m)
                    [R_OBJECT; R_CATEGORY; R_BOOL]))).
  { unfold fit_schema. cbv zeta.
    rewrite (stats_drop_list (fit_schema_init m) X t Hex Hthr).
    cbn [try_except]. unfold fit_schema_with. cbv zeta.
    destruct (fill_means _ _ _ _) as [fills r].
    by destruct r as [[]|e]. }
  rewrite Hcats. rewrite !list_elem_of_filter.
  split.
  - intros (Hin & (Hkeep & _) & Hc). split; [exact Hc|].
    apply find_col_is_Some in Hin as [s Hs]. exists s. split; [exact Hs|].
    assert (Hok : ¬ (is_numeric (dtype s) = true ∨ (t < nunique s)%Z)).
    { intros Hbad. apply Hkeep. apply list_elem_of_fmap.
      exists (c, s). split; [reflexivity|].
      apply list_elem_of_filter. split; [exact Hbad|].
      by apply find_col_Some_elem. }
    split.
    + destruct (is_numeric (dtype s)); [|reflexivity].
      destruct Hok. by left.
    + destruct (decide (nunique s ≤ t)%Z) as [Hle|Hgt]; [exact Hle|].
      destruct Hok. right. lia.
  - intros (Hc & s & Hs & Hnum & Hle).
    assert (Hin : c ∈ col_names X) by (apply find_col_is_Some; eauto).
    split; [exact Hin|]. split; [|exact Hc]. split; [|exact Hin].
    intros Hdrop. apply list_elem_of_fmap in Hdrop as ([k s'] & -> & Hbad).
    apply list_elem_of_filter in Hbad as [Hbad Hmem]. cbn in *.
    rewrite (find_col_NoDup k (columns X) s' Hnd Hmem) in Hs.
    injection Hs as ->. destruct Hbad as [Hb|Hb]; [congruence | lia].
Qed.


(** ** [_preprocess_train] *)

Lemma preprocess_false_state (m : Model) (X : Frame) :
  (preprocess m X false).1 = m.
Proof. unfold _preprocess. by destruct (super_preprocess X). Qed.

Lemma scale_targets_schema (m m' : Model) (y : Column) (y_val : option Column)
    r :
  scale_targets scaler_fit_transform scaler_transform m y y_val = (m', r) →
  cat_columns m' = cat_columns m ∧ cont_columns m' = cont_columns m ∧
  columns_fills m' = columns_fills m ∧
  _inner_features m' = _inner_features m ∧ problem_type m' = problem_type m.
Proof.
  unfold scale_targets.
  destruct (decide (problem_type m = REGRESSION)), (y_scaler m) as [sc|];
    try (by intros [= <- _]).
  destruct (scaler_fit_transform sc y) as [[sc' yn]|]; [|by intros [= <- _]].
  destruct y_val as [yv|]; [|by intros [= <- _]].
  destruct (scaler_transform sc' yv); by intros [= <- _].
Qed.

Lemma scale_targets_lengths (m m' : Model) (y y_norm : Column)
    (y_val y_val_norm : option Column) :
  (∀ sc s sc' s', scaler_fit_transform sc s = Ok (sc', s') →
                  length (cells s') = length (cells s)) →
  (∀ sc s s', scaler_transform sc s = Ok s' →
              length (cells s') = length (cells s)) →
  scale_targets scaler_fit_transform scaler_transform m y y_val
    = (m', Ok (y_norm, y_val_norm)) →
  length (cells y_norm) = length (cells y) ∧
  match y_val, y_val_norm with
  | Some yv, Some yvn => length (cells yvn) = length (cells yv)
  | None, None => True
  | _, _ => False
  end.
Proof.
  intros Hfit Htr. unfold scale_targets.
  destruct (decide (problem_type m = REGRESSION)), (y_scaler m) as [sc|];
    try (intros [= _ <- <-]; split; [reflexivity | by destruct y_val]).
  destruct (scaler_fit_transform sc y) as [[sc' yn]|] eqn:Ef; [|discriminate].
  destruct y_val as [yv|].
  - destruct (scaler_transform sc' yv) as [yvn|] eqn:Et; [|discriminate].
    intros [= _ <- <-]. split; [by apply (Hfit sc y sc') | by apply (Htr sc' yv)].
  - intros [= _ <- <-]. split; [by apply (Hfit sc y sc') | done].
Qed.

Lemma filter_all {A : Type} (P : A → Prop) `{!∀ x, Decision (P x)}
    (l : list A) :
  Forall P l → filter P l = l.
Proof.
  induction 1 as [|x l Hx _ IH]; [reflexivity|].
  by rewrite filter_cons_True, IH.
Qed.

Lemma filter_none {A : Type} (P : A → Prop) `{!∀ x, Decision (P x)}
    (l : list A) :
  Forall (λ x, ¬ P x) l → filter P l = [].
Proof.
  induction 1 as [|x l Hx _ IH]; [reflexivity|].
  by rewrite filter_cons_False.
Qed.

(** The split of [n + k] positions whose validation part is the last [k]. *)
Lemma IndexSplitter_tail (n k : nat) :
  IndexSplitter (seq n k) (seq 0 (n + k)) = (seq 0 n, seq n k).
Proof.
  unfold IndexSplitter. f_equal.
  rewrite seq_app, filter_app, filter_all, filter_none; cbn.
  - apply app_nil_r.
  - apply Forall_forall. intros i Hi Hn. apply Hn.
    by apply list_elem_of_In.
  - apply Forall_forall. intros i Hi Hi'.
    apply elem_of_seq in Hi. apply elem_of_seq in Hi'. lia.
Qed.

Lemma set_col_fresh_names (c : string) (s : Column) cols :
  c ∉ cols.*1 → (set_col c s cols).*1 = (cols.*1 ++ [c])%list.
Proof.
  intros Hout. unfold set_col. rewrite decide_False by exact Hout.
  by rewrite fmap_app.
Qed.

(** The two runs of [_generate_datasets], on frames that share their
    columns. *)
Lemma generate_datasets_shared_columns (X Xv : Frame) (y yv : Column) :
  NoDup (col_names X) → col_names Xv = col_names X →
  LABEL ∉ col_names X →
  length (cells y) = nrows X → length (cells yv) = nrows Xv →
  ∃ df, _generate_datasets X y (Some Xv) (Some yv)
        = Ok (df, seq 0 (nrows X), seq (nrows X) (nrows Xv)) ∧
        nrows df = nrows X + nrows Xv ∧
        col_names df = (col_names X ++ [LABEL])%list.
Proof.
  intros Hnd Hsame Hlabel Hy Hyv.
  assert (Hndv : NoDup (col_names Xv)) by (by rewrite Hsame).
  unfold _generate_datasets.
  rewrite (pd_concat_unique_pair X Xv Hnd Hndv).
  cbn -[concat_series concat_column nub setitem np_add np_arange].
  rewrite setitem_aligned
    by (rewrite cells_concat_series_pair, length_app; cbn; lia).
  rewrite np_add_arange. unfold np_arange.
  eexists. split; [reflexivity|]. split; [reflexivity|].
  assert (Hnames0 :
    ((λ c, (c, concat_column c [X; Xv]))
       <$> nub (col_names X ++ col_names Xv)).*1 = col_names X).
  { rewrite <- list_fmap_compose, Hsame, nub_app_self by exact Hnd.
    apply list_fmap_id. }
  unfold col_names in *. cbn -[concat_series concat_column nub].
  rewrite set_col_fresh_names by (by rewrite Hnames0). by rewrite Hnames0.
Qed.

Lemma generate_datasets_refit_columns (X : Frame) (y : Column) :
  NoDup (col_names X) → LABEL ∉ col_names X → aligned X →
  length (cells y) = nrows X →
  ∃ df, _generate_datasets X y None None
        = Ok (df, seq 0 (nrows X), seq (nrows X) (nrows X)) ∧
        nrows df = nrows X + nrows X ∧
        col_names df = (col_names X ++ [LABEL])%list.
Proof.
  intros Hnd Hlabel Hal Hy. unfold _generate_datasets.
  rewrite pd_concat_single by exact Hnd.
  rewrite pd_concat_series_single.
  cbn -[pd_concat setitem np_add np_arange].
  rewrite (setitem_aligned X LABEL y Hy).
  rewrite pd_concat_self by (unfold col_names; cbn; by apply set_col_NoDup).
  unfold np_arange. rewrite length_seq, np_add_arange.
  eexists. split; [reflexivity|]. split; [reflexivity|].
  rewrite col_names_twice. unfold col_names in *. cbn.
  by apply set_col_fresh_names.
Qed.

(** The frame a fit-time call of [_preprocess] returns. *)
Lemma preprocess_fit_Ok (m m1 : Model) (X X1 : Frame) :
  (∀ X', super_preprocess X = Ok X' → frame_wf X' ∧ nrows X' = nrows X) →
  NoDup (feature_metadata m).*1 →
  preprocess m X true = (m1, Ok X1) →
  schema_fitted m1 ∧ aligned X1 ∧ col_names X1 = _inner_features m1 ∧
  nrows X1 = nrows X ∧ feature_metadata m1 = feature_metadata m ∧
  (∀ c, c ∈ _inner_features m1 → c ∈ (feature_metadata m).*1).
Proof.
  intros Hsuper Hnd. unfold _preprocess.
  destruct (super_preprocess X) as [X'|] eqn:Es; [|discriminate].
  destruct (Hsuper X' eq_refl) as [[_ Hal] Hn]. fold (aligned X') in Hal.
  destruct (fit m X') as [m1' r] eqn:Ef.
  destruct r as [[]|]; [|discriminate].
  intros [= <- Hfill].
  pose proof (fit_schema_fitted m m1' X' Hnd Ef) as Hfit.
  destruct (fill_missing_Ok m1' X' X1 Hal Hfill)
    as (_ & _ & _ & _ & _ & _ & _ & Halo & Hnames & Hrows).
  split; [exact Hfit|]. split; [exact Halo|]. split; [exact Hnames|].
  split; [lia|].
  revert Ef. unfold fit_schema, fit_schema_with, fit_schema_init. cbv zeta.
  cbn [cat_columns cont_columns columns_fills feature_metadata
       set_cat_columns set_cont_columns set_columns_fills].
  destruct (fill_means _ _ _ _) as [fills r].
  destruct r as [[]|]; [|discriminate].
  intros [= <-]. cbn. split; [reflexivity|].
  intros c Hc. apply elem_of_app in Hc as [Hc|Hc].
  - apply list_elem_of_filter in Hc as [_ Hc].
    apply list_elem_of_filter in Hc as [_ Hc].
    apply get_features_elem in Hc as (t & Hin & _).
    apply list_elem_of_fmap. by exists (c, t).
  - apply list_elem_of_filter in Hc as [_ Hc].
    apply get_features_elem in Hc as (t & Hin & _).
    apply list_elem_of_fmap. by exists (c, t).
Qed.


Lemma preprocess_infer_Ok (m m1 : Model) (X X1 : Frame) :
  (∀ X', super_preprocess X = Ok X' → frame_wf X' ∧ nrows X' = nrows X) →
  preprocess m X false = (m1, Ok X1) →
  m1 = m ∧ aligned X1 ∧ col_names X1 = _inner_features m ∧
  nrows X1 = nrows X.
Proof.
  intros Hsuper. unfold _preprocess.
  destruct (super_preprocess X) as [X'|] eqn:Es; [|discriminate].
  destruct (Hsuper X' eq_refl) as [[_ Hal] Hn]. fold (aligned X') in Hal.
  intros [= <- Hfill].
  destruct (fill_missing_Ok m X' X1 Hal Hfill)
    as (_ & _ & _ & _ & _ & _ & _ & Halo & Hnames & Hrows).
  split; [reflexivity|]. split; [exact Halo|]. split; [exact Hnames|]. lia.
Qed.

(** X8. The schema [_preprocess_train] leaves on the model (categorical and
    continuous columns, fill values, feature order) is the one the
    fit-time [_preprocess] of the training frame alone leaves: neither the
    validation frame nor the labels take part in it, whether the call
    returns or raises. *)
Theorem preprocess_train_schema_from_training_frame (m : Model) (X : Frame)
    (y : Column) (X_val : option Frame) (y_val : option Column) :
  let m1 := (_preprocess super_preprocess series_mean m X true).1 in
  let m' := (_preprocess_train super_preprocess series_mean
               scaler_fit_transform scaler_transform m X y X_val y_val).1 in
  cat_columns m' = cat_columns m1 ∧ cont_columns m' = cont_columns m1 ∧
  columns_fills m' = columns_fills m1 ∧
  _inner_features m' = _inner_features m1.
Proof.
  cbv zeta. unfold _preprocess_train.
  destruct (preprocess m X true) as [m1 [X1|e]]; [|done].
  cbn [fst].
  assert (Hval : ∃ r,
    match X_val with
    | Some X_val =>
        match preprocess m1 X_val false with
        | (m, Raise e) => (m, Raise e)
        | (m, Ok X_val) => (m, Ok (Some X_val))
        end
    | None => (m1, Ok None)
    end = (m1, r)).
  { destruct X_val as [Xv|]; [|by eexists].
    pose proof (preprocess_false_state m1 Xv) as Hst.
    destruct (preprocess m1 Xv false) as [m1b [Xv1|e]]; cbn in Hst; subst m1b;
      by eexists. }
  destruct Hval as [r ->]. destruct r as [Xv1|e]; [|done].
  destruct (scale_targets _ _ m1 y y_val) as [m2 r2] eqn:Esc.
  destruct (scale_targets_schema m1 m2 y y_val r2 Esc)
    as (Hcat & Hcont & Hfills & Hinner & _).
  destruct r2 as [[yn yvn]|e]; [|done].
  by destruct (_generate_datasets X1 yn Xv1 yvn) as [[[df tr] va]|e].
Qed.

(** X9. When [_preprocess_train] returns, the frame handed to
    [TabularPandas] has exactly the schema's feature columns followed by the
    label column, the categorical and continuous names given are together
    those feature columns, and the splitter cuts the rows into the
    training rows first and the validation rows after them; without a
    validation set the training rows are doubled and the second copy is the
    validation part. *)
Theorem preprocess_train_frame_and_splits (m m' : Model) (X : Frame)
    (y : Column) (val : option (Frame * Column)) (args : TabularPandasArgs) :
  (∀ X', super_preprocess X = Ok X' → frame_wf X' ∧ nrows X' = nrows X) →
  (∀ Xv yv Xv', val = Some (Xv, yv) → super_preprocess Xv = Ok Xv' →
                 frame_wf Xv' ∧ nrows Xv' = nrows Xv) →
  (∀ sc s sc' s', scaler_fit_transform sc s = Ok (sc', s') →
                  length (cells s') = length (cells s)) →
  (∀ sc s s', scaler_transform sc s = Ok s' →
              length (cells s') = length (cells s)) →
  NoDup (feature_metadata m).*1 →
  LABEL ∉ (feature_metadata m).*1 →
  length (cells y) = nrows X →
  (∀ Xv yv, val = Some (Xv, yv) → length (cells yv) = nrows Xv) →
  preprocess_train m X y (fst <$> val) (snd <$> val) = (m', Ok args) →
  col_names (tp_df args) = (_inner_features m' ++ [LABEL])%list ∧
  (tp_cat_names args ++ tp_cont_names args)%list = _inner_features m' ∧
  tp_y_names args = LABEL ∧
  match val with
  | Some (Xv, _) =>
      nrows (tp_df args) = nrows X + nrows Xv ∧
      tp_splits args = (seq 0 (nrows X), seq (nrows X) (nrows Xv))
  | None =>
      nrows (tp_df args) = nrows X + nrows X ∧
      tp_splits args = (seq 0 (nrows X), seq (nrows X) (nrows X))
  end.
Proof.
  intros Hsuper Hsuperv Hfit Htr Hnd Hlabel Hy Hyv. unfold _preprocess_train.
  destruct (preprocess m X true) as [m1 [X1|e]] eqn:E1; [|discriminate].
  destruct (preprocess_fit_Ok m m1 X X1 Hsuper Hnd E1)
    as ((Hinner & Hndi & _) & Hal1 & Hnames1 & Hrows1 & _ & Hsub).
  assert (Hlab1 : LABEL ∉ col_names X1).
  { rewrite Hnames1. intros Hin. by apply Hlabel, Hsub. }
  assert (Hnd1 : NoDup (col_names X1)) by (by rewrite Hnames1).
  destruct val as [[Xv yv]|]; cbn [fmap option_fmap option_map fst snd].
  - destruct (preprocess m1 Xv false) as [m1b [Xv1|e]] eqn:E2; [|discriminate].
    destruct (preprocess_infer_Ok m1 m1b Xv Xv1
                (λ Xv', Hsuperv Xv yv Xv' eq_refl) E2)
      as (-> & Hal2 & Hnames2 & Hrows2).
    destruct (scale_targets _ _ m1 y (Some yv)) as [m2 r2] eqn:Esc.
    destruct (scale_targets_schema m1 m2 y (Some yv) r2 Esc)
      as (Hcat & Hcont & _ & Hin2 & _).
    destruct r2 as [[yn yvn]|e]; [|discriminate].
    destruct (scale_targets_lengths m1 m2 y yn (Some yv) yvn Hfit Htr Esc)
      as [Hlen Hlenv].
    destruct yvn as [yvn|]; [|done].
    destruct (generate_datasets_shared_columns X1 Xv1 yn yvn) as (df & -> & Hn & Hc).
    { exact Hnd1. }
    { by rewrite Hnames2. }
    { exact Hlab1. }
    { lia. }
    { rewrite Hlenv, Hrows2. by apply (Hyv Xv yv). }
    intros [= <- <-]. cbn.
    split; [by rewrite Hc, Hnames1, Hin2|].
    split; [by rewrite Hcat, Hcont, Hin2|].
    split; [reflexivity|].
    split; [lia|].
    unfold range_of. rewrite Hn, IndexSplitter_tail. by rewrite Hrows1, Hrows2.
  - destruct (scale_targets _ _ m1 y None) as [m2 r2] eqn:Esc.
    destruct (scale_targets_schema m1 m2 y None r2 Esc)
      as (Hcat & Hcont & _ & Hin2 & _).
    destruct r2 as [[yn yvn]|e]; [|discriminate].
    destruct (scale_targets_lengths m1 m2 y yn None yvn Hfit Htr Esc)
      as [Hlen Hlenv].
    destruct yvn as [yvn|]; [done|].
    destruct (generate_datasets_refit_columns X1 yn) as (df & -> & Hn & Hc).
    { exact Hnd1. }
    { exact Hlab1. }
    { exact Hal1. }
    { lia. }
    intros [= <- <-]. cbn.
    split; [by rewrite Hc, Hnames1, Hin2|].
    split; [by rewrite Hcat, Hcont, Hin2|].
    split; [reflexivity|].
    split; [lia|].
    unfold range_of. rewrite Hn, IndexSplitter_tail. by rewrite Hrows1.
Qed.


(** ** [_predict_proba]: shape of the result and the absent learner *)

Lemma concat_singletons_length {A : Type} (l : list (list A)) :
  Forall (λ r, length r = 1) l → length (concat l) = length l.
Proof.
  induction 1 as [|r l Hr _ IH]; [reflexivity|].
  cbn. rewrite length_app, Hr, IH. reflexivity.
Qed.

Lemma column_1_length (preds : list (list F)) (col : list F) :
  column_1 preds = Ok col → length col = length preds.
Proof.
  unfold column_1.
  destruct (mapM (λ row : list F, row !! 1) preds) as [col'|] eqn:E;
    [|discriminate].
  intros [= <-]. symmetry. by eapply length_mapM.
Qed.

(** The decoding of the learner's outputs at the end of [_predict_proba]
    keeps one entry per row of outputs. *)
Lemma decoded_length (m : Model) (preds : list (list F)) (out : ndarray) :
  (problem_type m = REGRESSION → Forall (λ r, length r = 1) preds) →
  (if decide (problem_type m = REGRESSION) then
     match y_scaler m with
     | Some scaler =>
         Ok (Arr1 (concat ((λ row : list F, inverse_transform scaler <$> row)
                             <$> preds)))
     | None => Ok (Arr1 (concat preds))
     end
   else if decide (problem_type m = BINARY) then
     Arr1 <$> column_1 preds
   else Ok (Arr2 preds)) = Ok out →
  arr_length out = length preds.
Proof.
  intros Hreg.
  destruct (decide (problem_type m = REGRESSION)) as [Hpt|Hpt].
  - specialize (Hreg Hpt).
    destruct (y_scaler m) as [scaler|]; intros [= <-]; cbn.
    + rewrite concat_singletons_length, length_fmap; [reflexivity|].
      apply Forall_fmap. eapply Forall_impl; [exact Hreg|].
      intros r Hr. cbn. by rewrite length_fmap.
    + by apply concat_singletons_length.
  - destruct (decide (problem_type m = BINARY)).
    + destruct (column_1 preds) as [col|] eqn:Ec; [|discriminate].
      intros [= <-]. cbn. by apply column_1_length.
    + by intros [= <-].
Qed.

(** X10. With a learner that gives one row of outputs per row of its batch
    (one output per row for regression), a call of [_predict_proba] that
    returns gives an array with one entry per row of the input frame: for
    every problem type, with or without target scaler, and also for the
    one-row frame that is doubled on the way. *)
Theorem predict_proba_one_output_per_row (m : Model) (learner : @Learner F)
    (X : Frame) (out : ndarray) :
  (∀ X', super_preprocess X = Ok X' → frame_wf X' ∧ nrows X' = nrows X) →
  NoDup (_inner_features m) →
  model m = Some learner →
  (∀ Y preds, get_preds learner Y = Ok preds →
     length preds = nrows Y ∧
     (problem_type m = REGRESSION → Forall (λ r, length r = 1) preds)) →
  predict_proba m X = Ok out →
  arr_length out = nrows X.
Proof.
  intros Hsuper Hnd Hm Hshape. unfold _predict_proba, _preprocess.
  destruct (super_preprocess X) as [X'|e] eqn:Es; [|discriminate].
  destruct (Hsuper X' eq_refl) as [[_ Hal] Hn]. fold (aligned X') in Hal.
  cbn [snd].
  destruct (_fill_missing m X') as [filled|e] eqn:Eo; [|discriminate].
  destruct (fill_missing_Ok m X' filled Hal Eo)
    as (_ & _ & _ & _ & _ & _ & _ & _ & Hnames & Hrows).
  cbn [mbind Exc_bind]. unfold model_handle. rewrite Hm.
  destruct (decide (nrows filled = 1)) as [Hone|Hmore].
  - rewrite (bool_decide_eq_true_2 (nrows filled = 1)) by exact Hone.
    rewrite pd_concat_self by (by rewrite Hnames).
    cbn [mbind Exc_bind].
    destruct (get_preds learner (twice filled)) as [preds|e] eqn:Ep;
      [|discriminate].
    cbn [mbind Exc_bind].
    destruct (Hshape (twice filled) preds Ep) as [Hlen Hreg].
    intros Hout. apply decoded_length in Hout.
    + rewrite Hout, length_take, Hlen. unfold twice. cbn [nrows].
      rewrite Hone. cbn. lia.
    + intros Hpt. apply Forall_take. by apply Hreg.
  - rewrite (bool_decide_eq_false_2 (nrows filled = 1)) by exact Hmore.
    cbn [mbind Exc_bind].
    destruct (get_preds learner filled) as [preds|e] eqn:Ep; [|discriminate].
    cbn [mbind Exc_bind].
    destruct (Hshape filled preds Ep) as [Hlen Hreg].
    intros Hout. apply decoded_length in Hout; [|exact Hreg]. lia.
Qed.

(** X11. A model object without learner, as [load] returns it for a model
    saved without one, never predicts: [_predict_proba] raises the error of
    the preprocessing when that fails, and otherwise the [AttributeError] of
    reading [dls] on [None]. *)
Theorem predict_proba_without_learner (m : Model) (X : Frame) :
  (∀ X', super_preprocess X = Ok X' → frame_wf X' ∧ nrows X' = nrows X) →
  NoDup (_inner_features m) →
  model m = None →
  predict_proba m X =
  match (preprocess m X false).2 with
  | Ok _ => Raise (AttributeError "'NoneType' object has no attribute 'dls'")
  | Raise e => Raise e
  end.
Proof.
  intros Hsuper Hnd Hm. unfold _predict_proba, _preprocess.
  destruct (super_preprocess X) as [X'|e] eqn:Es; [|reflexivity].
  destruct (Hsuper X' eq_refl) as [[_ Hal] Hn]. fold (aligned X') in Hal.
  cbn [snd].
  destruct (_fill_missing m X') as [filled|e] eqn:Eo; [|reflexivity].
  destruct (fill_missing_Ok m X' filled Hal Eo)
    as (_ & _ & _ & _ & _ & _ & _ & _ & Hnames & Hrows).
  cbn [mbind Exc_bind]. unfold model_handle. rewrite Hm.
  destruct (decide (nrows filled = 1)) as [Hone|Hmore].
  - rewrite (bool_decide_eq_true_2 (nrows filled = 1)) by exact Hone.
    by rewrite pd_concat_self by (by rewrite Hnames).
  - by rewrite (bool_decide_eq_false_2 (nrows filled = 1)) by exact Hmore.
Qed.


(** ** [export], [save] and [load] *)

(** X12. [export] puts the learner back only after the write has gone
    through. In a child process nothing is written and the learner is left
    alone. In the main process the learner is handed to [torch.save]
    without optimizer and without rows, but with the same columns and the
    same prediction function. When [torch.save] returns, that stripped
    learner is what was written, the live learner has its data, prediction
    function and path as before and an optimizer with its former state
    (a fresh one if it had none), and exporting once more gives the same
    again. When [torch.save] raises, the exception is passed on and the
    live learner is left stripped. *)
Theorem export_restores_only_after_writing (learner : @Learner F) :
  let stripped :=
    mkLearner (get_preds learner) (new_empty (learner_dls learner)) None
      (learner_path learner) in
  let r := export rank_distrib torch_save learner in
  (rank_distrib ≠ 0 → r = (learner, Ok None)) ∧
  (nrows (learner_dls stripped) = 0 ∧
   col_names (learner_dls stripped) = col_names (learner_dls learner)) ∧
  (rank_distrib = 0 → torch_save stripped = Ok () →
   r.2 = Ok (Some stripped) ∧
   get_preds r.1 = get_preds learner ∧
   learner_dls r.1 = learner_dls learner ∧
   learner_path r.1 = learner_path learner ∧
   learner_opt r.1 = Some (default [] (learner_opt learner)) ∧
   export rank_distrib torch_save r.1 = r) ∧
  (rank_distrib = 0 → ∀ e, torch_save stripped = Raise e →
   r = (stripped, Raise e) ∧ learner_opt r.1 = None ∧
   nrows (learner_dls r.1) = 0).
Proof.
  cbv zeta. unfold export.
  destruct (decide (rank_distrib ≠ 0)) as [Hchild|Hmain].
  - split; [done|]. split.
    + split; [reflexivity|]. unfold col_names. cbn.
      rewrite <- list_fmap_compose. apply list_fmap_ext. by intros i [k s] _.
    + split; intros Hz; by destruct Hchild.
  - split; [done|]. split.
    + split; [reflexivity|]. unfold col_names. cbn.
      rewrite <- list_fmap_compose. apply list_fmap_ext. by intros i [k s] _.
    + split.
      * intros _ Hok. rewrite Hok. cbn. rewrite Hok.
        repeat split; by destruct (learner_opt learner).
      * intros _ e Hraise. rewrite Hraise. by repeat split.
Qed.

(** X13. A model object without learner that is saved and loaded again from
    the path [save] returned comes back as [save] left it, the schema and
    the missing learner included; with [reset_paths] its path is the path it
    was loaded from. *)
Theorem save_load_round_trip (m : Model) (fs : gmap string FileContent)
    (save_path : option string) (verbose reset_paths : bool) :
  import_fastai_learner = Ok () →
  model m = None →
  let r := save model_file_name rank_distrib torch_save m fs save_path verbose in
  let p := default (path m) save_path in
  r.2 = Ok p ∧
  load_model r.1.2 p reset_paths =
  Ok (if reset_paths then set_path p r.1.1 else r.1.1).
Proof.
  intros Himp Hm. destruct m as [? ? ? ? ? ? ? ? ? ? mdl ?].
  cbn in Hm. subst mdl. cbv zeta.
  split; [reflexivity|].
  unfold load, super_load. rewrite Himp. cbn.
  rewrite lookup_insert_eq. by destruct reset_paths.
Qed.

Lemma save_with_learner (m : Model) (learner : @Learner F)
    (fs : gmap string FileContent) (save_path : option string)
    (verbose : bool) :
  model m = Some learner →
  save model_file_name rank_distrib torch_save m fs save_path verbose =
  ((set_load_model (Some true) m,
    <[default (path m) save_path +:+ model_file_name :=
        PickledModel (set_model None (set_load_model (Some true) m))]> fs),
   Raise (NameError "path_final")).
Proof.
  intros Hm. destruct m as [? ? ? ? ? ? ? ? ? ? mdl ?].
  cbn in Hm. subst mdl. reflexivity.
Qed.

(** X14. A model object with a learner cannot be brought back: [save]
    raises after having written the configuration with the load flag set,
    and on a file system that held no exported learner, [load] from the
    same path raises as well, whatever the imports do. *)
Theorem load_after_failed_save (m : Model) (learner : @Learner F)
    (fs : gmap string FileContent) (save_path : option string)
    (verbose reset_paths : bool) :
  model m = Some learner →
  (∀ k l, fs !! k ≠ Some (PickledLearner l)) →
  let r := save model_file_name rank_distrib torch_save m fs save_path verbose in
  (∃ e, r.2 = Raise e) ∧
  ∃ e, load_model r.1.2 (default (path m) save_path) reset_paths = Raise e.
Proof.
  intros Hm Hnone. cbv zeta.
  rewrite (save_with_learner m learner fs save_path verbose Hm).
  cbn [fst snd]. split; [by eexists|].
  set (p := default (path m) save_path).
  set (snapshot := set_model None (set_load_model (Some true) m)).
  assert (Hread : ∀ file,
    ∃ e, load_with_fn read_error
           (<[p +:+ model_file_name := PickledModel snapshot]> fs) file
         = Raise e).
  { intros file. unfold load_with_fn.
    destruct (decide (p +:+ model_file_name = file)) as [<-|Hne].
    - rewrite lookup_insert_eq. by eexists.
    - rewrite lookup_insert_ne by exact Hne.
      destruct (fs !! file) as [[other|l]|] eqn:El; try by eexists.
      by destruct (Hnone file l). }
  unfold load, super_load.
  destruct import_fastai_learner as [[]|e]; [|by eexists].
  cbn [mbind Exc_bind]. rewrite lookup_insert_eq.
  cbn [mbind Exc_bind].
  assert (Hflag : ∀ q, _load_model (if reset_paths then set_path q snapshot
                                    else snapshot) = Some true)
    by (intros q; by destruct reset_paths).
  rewrite decide_True by apply Hflag.
  destruct import_fastai_basic_train as [[]|e]; [|by eexists].
  cbn [mbind Exc_bind].
  destruct (Hread (path (if reset_paths then set_path p snapshot
                         else snapshot) +:+ model_internals_file_name))
    as [e ->].
  by eexists.
Qed.

(** ** [_generate_datasets]: labels are attached by position *)

Lemma lookup_reindex (n i : nat) (cs : list (option (@Scalar F))) :
  i < n → reindex n cs !! i = Some (default None (cs !! i)).
Proof.
  intros Hi. unfold reindex.
  destruct (decide (i < length cs)) as [Hlt|Hge].
  - rewrite lookup_app_l by (rewrite length_take; lia).
    rewrite lookup_take_lt by exact Hi.
    destruct (lookup_lt_is_Some_2 cs i Hlt) as [x ->]. reflexivity.
  - rewrite lookup_app_r by (rewrite length_take; lia).
    rewrite length_take, lookup_replicate_2 by lia.
    by rewrite lookup_ge_None_2 by lia.
Qed.

(** X15. With a validation set and frames as pandas builds them, whatever
    the lengths of the label series: [_generate_datasets] returns, and row
    [i] of the assembled frame gets entry [i] of the train labels followed
    by the validation labels, or a missing label when there are fewer labels
    than rows. So with fewer train labels than train rows, validation labels
    land on train rows. *)
Theorem generate_datasets_labels_by_position (X X_val : Frame)
    (y y_val : Column) :
  frame_wf X → frame_wf X_val →
  ∃ df_train train_idx val_idx,
    _generate_datasets X y (Some X_val) (Some y_val)
      = Ok (df_train, train_idx, val_idx) ∧
    ∀ i, i < nrows X + nrows X_val →
         cell df_train LABEL i
         = Some (default None ((cells y ++ cells y_val)%list !! i)).
Proof.
  intros [Hnd _] [Hndv _].
  destruct (pd_concat_pair X X_val Hnd Hndv) as (df0 & E0 & Hn0 & _ & _).
  unfold _generate_datasets. rewrite E0.
  cbn -[concat_series setitem np_add np_arange].
  eexists _, _, _. split; [reflexivity|].
  intros i Hi. unfold setitem, ensure_valid_index.
  destruct (decide (nrows df0 = 0 ∧
                    0 < length (cells (concat_series [y; y_val]))))
    as [[Hz _]|_]; [lia|].
  cbv zeta. rewrite cell_set_col, decide_True by reflexivity.
  cbn -[concat_series]. rewrite cells_concat_series_pair.
  apply lookup_reindex. lia.
Qed.


(** ** A fit starts from the metadata, not from an earlier schema *)

Lemma fit_schema_keeps_config (m : Model) (X : Frame) :
  feature_metadata (fit m X).1 = feature_metadata m ∧
  params (fit m X).1 = params m.
Proof.
  unfold fit_schema, fit_schema_with, fit_schema_init. cbv zeta.
  cbn [cat_columns cont_columns columns_fills feature_metadata params
       set_cat_columns set_cont_columns set_columns_fills].
  destruct (fill_means _ _ _ _) as [fills [[]|e]]; by split.
Qed.

Lemma fit_schema_reads_config (m m2 : Model) (X : Frame) :
  feature_metadata m = feature_metadata m2 → params m = params m2 →
  (fit m X).2 = (fit m2 X).2 ∧
  cat_columns (fit m X).1 = cat_columns (fit m2 X).1 ∧
  cont_columns (fit m X).1 = cont_columns (fit m2 X).1 ∧
  columns_fills (fit m X).1 = columns_fills (fit m2 X).1 ∧
  ((fit m2 X).2 = Ok () →
   _inner_features (fit m X).1 = _inner_features (fit m2 X).1).
Proof.
  intros Hmd Hparams.
  unfold fit_schema, fit_schema_with, fit_schema_init, cat_cols_to_drop_stats.
  cbv zeta.
  cbn [cat_columns cont_columns columns_fills feature_metadata params
       set_cat_columns set_cont_columns set_columns_fills].
  rewrite Hmd, Hparams.
  destruct (fill_means _ _ _ _) as [fills [[]|e]]; cbn.
  - by repeat split.
  - repeat split. discriminate.
Qed.

(** X16. Fitting again forgets the earlier fit: after a fit on any frame
    [X1], a fit on [X2] ends as a fit of the untouched model on [X2] does,
    with the same categorical and continuous features and fill values, and
    with the same feature list when it returns. Only the metadata and the
    hyperparameters are read. *)
Theorem refit_forgets_earlier_schema (m : Model) (X1 X2 : Frame) :
  let m1 := (fit_schema series_mean m X1).1 in
  (fit m1 X2).2 = (fit m X2).2 ∧
  cat_columns (fit m1 X2).1 = cat_columns (fit m X2).1 ∧
  cont_columns (fit m1 X2).1 = cont_columns (fit m X2).1 ∧
  columns_fills (fit m1 X2).1 = columns_fills (fit m X2).1 ∧
  ((fit m X2).2 = Ok () →
   _inner_features (fit m1 X2).1 = _inner_features (fit m X2).1).
Proof.
  cbv zeta. destruct (fit_schema_keeps_config m X1) as [Hmd Hparams].
  exact (fit_schema_reads_config (fit m X1).1 m X2 Hmd Hparams).
Qed.

End Proofs.

(** * The statements on the small data set *)

Lemma ex_train_wf : frame_wf ex_train.
Proof.
  split; [apply (bool_decide_unpack _); vm_compute; exact I|].
  repeat constructor.
Defined.

Lemma ex_val_wf : frame_wf ex_val.
Proof.
  split; [apply (bool_decide_unpack _); vm_compute; exact I|].
  repeat constructor.
Defined.

Lemma ex_row_wf : frame_wf ex_row.
Proof.
  split; [apply (bool_decide_unpack _); vm_compute; exact I|].
  repeat constructor.
Defined.

Lemma ex_super_adds_no_column (Y Y' : @DataFrame Z) :
  Ok Y = Ok Y' → col_names Y' ⊆ col_names Y.
Proof. intros [= <-]. reflexivity. Defined.

Lemma ex_fitted_schema : schema_fitted ex_fitted.
Proof.
  apply (fit_schema_fitted ex_mean
           (ex_unfitted REGRESSION [("color", R_CATEGORY); ("size", R_FLOAT)])
           ex_fitted ex_train).
  - apply (bool_decide_unpack _). vm_compute. exact I.
  - vm_compute. reflexivity.
Defined.

Lemma ex_row_fits : frame_fits ex_fitted ex_row.
Proof.
  split; intros c Hc.
  - change (cat_columns ex_fitted) with ["color"] in Hc.
    apply list_elem_of_singleton in Hc as ->.
    exists [Str "red"; Str "blue"]. split; [reflexivity|].
    apply (bool_decide_unpack _). vm_compute. exact I.
  - change (cont_columns ex_fitted) with ["size"] in Hc.
    apply list_elem_of_singleton in Hc as ->.
    exists DNumeric. split; [reflexivity | discriminate].
Defined.

(** C1, as first stated, fails on the fitted example: the first application
    returns, the second raises. *)
Lemma fill_missing_not_idempotent :
  (∃ out, _fill_missing ex_fitted ex_train = Ok out) ∧
  _fill_missing ex_fitted ex_train ≫= _fill_missing ex_fitted
    ≠ _fill_missing ex_fitted ex_train.
Proof.
  split.
  - eexists. vm_compute. reflexivity.
  - vm_compute. discriminate.
Qed.

Lemma fill_missing_twice_witness :
  frame_wf ex_train ∧
  (_fill_missing ex_fitted_numeric ex_train ≫= _fill_missing ex_fitted_numeric
   = _fill_missing ex_fitted_numeric ex_train) ∧
  (∀ out, _fill_missing ex_fitted ex_train = Ok out →
          _fill_missing ex_fitted out =
          Raise (ValueError "new categories must not include old categories")).
Proof.
  split; [exact ex_train_wf|]. split.
  - destruct (fill_missing_twice Ok ex_mean ex_fitted_numeric ex_train
                ex_train_wf) as (Hsame & _).
    apply Hsame.
    + reflexivity.
    + apply (bool_decide_unpack _). vm_compute. exact I.
  - destruct (fill_missing_twice Ok ex_mean ex_fitted ex_train ex_train_wf)
      as (_ & Hraises & _).
    apply Hraises. discriminate.
Defined.

Lemma preprocess_schema_stability_witness :
  (∃ e, (_preprocess Ok ex_mean ex_fitted ex_no_size false).2 = Raise e ∧
        e = KeyError ["size"]) ∧
  (∃ out, (_preprocess Ok ex_mean ex_fitted ex_row false).2 = Ok out ∧
          col_names out = ["color"; "size"] ∧ nrows out = 1).
Proof.
  split.
  - destruct (preprocess_schema_stability Ok ex_mean ex_fitted ex_no_size
                ex_super_adds_no_column) as (Hmissing & _ & _).
    destruct (Hmissing "size") as (e & He & Hkey).
    + apply (bool_decide_unpack _). vm_compute. exact I.
    + apply (bool_decide_unpack _). vm_compute. exact I.
    + exists e. split; [exact He|].
      destruct (Hkey ex_no_size eq_refl) as [-> _]. reflexivity.
  - destruct (preprocess_schema_stability Ok ex_mean ex_fitted ex_row
                ex_super_adds_no_column) as (_ & Hcols & Hreturns).
    destruct (Hreturns ex_row eq_refl ex_row_wf ex_fitted_schema ex_row_fits)
      as [out Hout].
    exists out. split; [exact Hout|].
    destruct (Hcols ex_row out eq_refl ex_row_wf Hout) as (Hn & Hr & _).
    split; [exact Hn | exact Hr].
Defined.

Lemma describe_failure_excludes_nothing_witness :
  cat_cols_to_drop_stats
    (fit_schema_init (ex_unfitted REGRESSION [("size", R_FLOAT)])) ex_numbers
  = Raise (KeyError ["unique"]) ∧
  try_except
    (cat_cols_to_drop_stats
       (fit_schema_init (ex_unfitted REGRESSION [("size", R_FLOAT)])) ex_numbers)
    [] = [].
Proof.
  split; [reflexivity|].
  apply (describe_failure_excludes_nothing ex_mean
           (ex_unfitted REGRESSION [("size", R_FLOAT)]) ex_numbers
           (KeyError ["unique"]) eq_refl).
Defined.

Lemma generate_datasets_with_validation_witness :
  ∃ df_train,
    _generate_datasets ex_train ex_labels (Some ex_val) (Some ex_val_labels)
    = Ok (df_train, [0; 1; 2], [3; 4]) ∧ nrows df_train = 5.
Proof.
  destruct (generate_datasets_with_validation ex_train ex_val ex_labels
              ex_val_labels ex_train_wf ex_val_wf eq_refl eq_refl)
    as (df & train_idx & val_idx & Hrun & -> & -> & _ & Hlen & _).
  exists df. split; [exact Hrun | exact (eq_sym Hlen)].
Defined.

Lemma generate_datasets_refit_witness :
  ∃ df_train,
    _generate_datasets ex_train ex_labels None None
    = Ok (df_train, [0; 1; 2], [3; 4; 5]) ∧ nrows df_train = 6.
Proof.
  destruct (generate_datasets_refit ex_train ex_labels ex_train_wf eq_refl)
    as (df & train_idx & val_idx & Hrun & Hlen & -> & -> & _).
  exists df. split; [exact Hrun | exact Hlen].
Defined.

Lemma single_row_prediction_witness :
  _predict_proba Ok ex_mean ex_fitted ex_row
  = arr_take 1 <$> _predict_proba Ok ex_mean ex_fitted (twice ex_row) ∧
  _predict_proba Ok ex_mean ex_fitted ex_row = Ok (Arr1 [7%Z]) ∧
  _predict_proba Ok ex_mean ex_fitted (twice ex_row) = Ok (Arr1 [7%Z; 7%Z]).
Proof.
  destruct (single_row_prediction Ok ex_mean ex_fitted ex_row)
    as [Hfirst Hvalue].
  - reflexivity.
  - reflexivity.
  - intros X' [= <-]. split; [exact ex_row_wf | reflexivity].
  - apply (bool_decide_unpack _). vm_compute. exact I.
  - intros learner batch preds Hm Hp.
    change (model ex_fitted) with (Some ex_learner) in Hm.
    injection Hm as <-. cbn in Hp. injection Hp as <-.
    exists 1. split; [|reflexivity]. by apply Forall_replicate.
  - split; [exact Hfirst|].
    destruct (_fill_missing ex_fitted ex_row) as [filled|e] eqn:E;
      [|vm_compute in E; discriminate].
    assert (Hrows : nrows filled = 1)
      by (vm_compute in E; by injection E as <-).
    destruct (Hvalue ex_row filled ex_learner [7%Z] [7%Z] eq_refl E eq_refl)
      as (v0 & v1 & [= <-] & [= <-] & Hone & Htwo).
    + cbn. by rewrite Hrows.
    + split; [exact Hone | exact Htwo].
Defined.

Lemma fill_missing_cells_witness :
  ∃ out, _fill_missing ex_fitted ex_train = Ok out ∧
         cell out "size" 1 = Some (Some (Num 6%Z)) ∧
         cell out "note" 0 = None.
Proof.
  destruct (_fill_missing ex_fitted ex_train) as [out|e] eqn:E;
    [|vm_compute in E; discriminate].
  exists out. split; [reflexivity|].
  destruct (fill_missing_cells ex_fitted ex_train out ex_train_wf
              ex_fitted_schema E) as [Hin Hout].
  split.
  - destruct (Hin "size" 1) as (v & Hv & ->).
    + apply (bool_decide_unpack _). vm_compute. exact I.
    + vm_compute in Hv. injection Hv as <-. reflexivity.
  - apply Hout. apply (bool_decide_unpack _). vm_compute. exact I.
Defined.



Lemma fit_screens_cardinality_witness :
  "color" ∈ cat_columns
    (fit_schema ex_mean
       (ex_unfitted REGRESSION [("color", R_CATEGORY); ("size", R_FLOAT)])
       ex_train).1.
Proof.
  destruct (fit_screens_cardinality ex_mean
              (ex_unfitted REGRESSION [("color", R_CATEGORY); ("size", R_FLOAT)])
              ex_train 10000 "color") as [_ Hback].
  - apply (bool_decide_unpack _). vm_compute. exact I.
  - apply Exists_cons_hd. reflexivity.
  - reflexivity.
  - apply Hback. split.
    + apply (bool_decide_unpack _). vm_compute. exact I.
    + eexists. split; [reflexivity|]. split; [reflexivity|].
      vm_compute. discriminate.
Defined.

Lemma failed_fit_state_witness :
  (_preprocess Ok ex_mean (ex_unfitted REGRESSION [("note", R_FLOAT)])
     ex_train true).2
  = Raise (TypeError "Could not convert string to numeric") ∧
  _inner_features
    (fit_schema ex_mean (ex_unfitted REGRESSION [("note", R_FLOAT)])
       ex_train).1 = [].
Proof.
  destruct (failed_fit_state Ok ex_mean
              (ex_unfitted REGRESSION [("note", R_FLOAT)])
              (fit_schema ex_mean (ex_unfitted REGRESSION [("note", R_FLOAT)])
                 ex_train).1
              ex_train ex_train
              (TypeError "Could not convert string to numeric") eq_refl)
    as (Hpre & _ & _ & Hinner).
  - vm_compute. reflexivity.
  - split; [by rewrite Hpre | exact Hinner].
Defined.

Lemma preprocess_train_frame_and_splits_witness :
  ∃ m' args,
    _preprocess_train Ok ex_mean (λ sc s, Ok (sc, s)) (λ _ s, Ok s)
      (ex_unfitted REGRESSION [("color", R_CATEGORY); ("size", R_FLOAT)])
      ex_train ex_labels (Some ex_val) (Some ex_val_labels) = (m', Ok args) ∧
    nrows (tp_df args) = 5 ∧ tp_splits args = ([0; 1; 2], [3; 4]).
Proof.
  destruct (_preprocess_train Ok ex_mean (λ sc s, Ok (sc, s)) (λ _ s, Ok s)
              (ex_unfitted REGRESSION [("color", R_CATEGORY); ("size", R_FLOAT)])
              ex_train ex_labels (Some ex_val) (Some ex_val_labels))
    as [m' [args|e]] eqn:E; [|vm_compute in E; discriminate].
  exists m', args. split; [reflexivity|].
  destruct (preprocess_train_frame_and_splits Ok ex_mean
              (λ sc s, Ok (sc, s)) (λ _ s, Ok s)
              (ex_unfitted REGRESSION [("color", R_CATEGORY); ("size", R_FLOAT)])
              m' ex_train ex_labels (Some (ex_val, ex_val_labels)) args)
    as (_ & _ & _ & Hrows & Hsplits).
  - intros X' [= <-]. split; [exact ex_train_wf | reflexivity].
  - intros Xv yv Xv' [= <- <-] [= <-]. split; [exact ex_val_wf | reflexivity].
  - by intros sc s sc' s' [= _ <-].
  - by intros sc s s' [= <-].
  - apply (bool_decide_unpack _). vm_compute. exact I.
  - apply (bool_decide_unpack _). vm_compute. exact I.
  - reflexivity.
  - by intros Xv yv [= <- <-].
  - exact E.
  - split; [exact Hrows | exact Hsplits].
Defined.

Lemma predict_proba_one_output_per_row_witness :
  ∃ out, _predict_proba Ok ex_mean ex_fitted ex_train = Ok out ∧
         arr_length out = 3.
Proof.
  destruct (_predict_proba Ok ex_mean ex_fitted ex_train) as [out|e] eqn:E;
    [|vm_compute in E; discriminate].
  exists out. split; [reflexivity|].
  apply (predict_proba_one_output_per_row Ok ex_mean ex_fitted ex_learner
           ex_train out).
  - intros X' [= <-]. split; [exact ex_train_wf | reflexivity].
  - apply (bool_decide_unpack _). vm_compute. exact I.
  - reflexivity.
  - intros Y preds [= <-]. split; [apply length_replicate|].
    intros _. by apply Forall_replicate.
  - exact E.
Defined.

Lemma predict_proba_without_learner_witness :
  _predict_proba Ok ex_mean (set_model None ex_fitted) ex_row
  = Raise (AttributeError "'NoneType' object has no attribute 'dls'").
Proof.
  rewrite (predict_proba_without_learner Ok ex_mean (set_model None ex_fitted)
             ex_row).
  - reflexivity.
  - intros X' [= <-]. split; [exact ex_row_wf | reflexivity].
  - apply (bool_decide_unpack _). vm_compute. exact I.
  - reflexivity.
Defined.

Lemma save_load_round_trip_witness :
  load "model.pkl" (Ok ()) (Raise (NameError "fastai.basic_train")) ValueError
    (save "model.pkl" 0 (λ _, Ok ()) (set_model None ex_fitted) ∅
       (Some "out/") true).1.2
    "out/" true
  = Ok (set_path "out/"
          (save "model.pkl" 0 (λ _, Ok ()) (set_model None ex_fitted) ∅
             (Some "out/") true).1.1).
Proof.
  destruct (save_load_round_trip "model.pkl" 0 (λ _, Ok ()) (Ok ())
              (Raise (NameError "fastai.basic_train")) ValueError
              (set_model None ex_fitted) ∅ (Some "out/") true true
              eq_refl eq_refl) as [_ Hload].
  exact Hload.
Defined.

Lemma load_after_failed_save_witness :
  ∃ e, load "model.pkl" (Ok ()) (Ok ()) ValueError
         (save "model.pkl" 0 (λ _, Ok ()) ex_fitted ∅ None true).1.2
         "models/nn/" true
       = Raise e.
Proof.
  destruct (load_after_failed_save "model.pkl" 0 (λ _, Ok ()) (Ok ()) (Ok ())
              ValueError ex_fitted ex_learner ∅ None true true eq_refl)
    as [_ Hload].
  - intros k l. rewrite lookup_empty. discriminate.
  - exact Hload.
Defined.

Lemma export_restores_only_after_writing_witness :
  learner_opt (export 0 (λ _, Ok ()) ex_learner).1 = Some [1%Z] ∧
  learner_opt
    (export 0 (λ _, Raise (ValueError "cannot pickle")) ex_learner).1 = None.
Proof.
  split.
  - destruct (export_restores_only_after_writing 0 (λ _, Ok ()) ex_learner)
      as (_ & _ & Hok & _).
    destruct (Hok eq_refl eq_refl) as (_ & _ & _ & _ & Hopt & _).
    exact Hopt.
  - destruct (export_restores_only_after_writing 0
                (λ _, Raise (ValueError "cannot pickle")) ex_learner)
      as (_ & _ & _ & Hraise).
    destruct (Hraise eq_refl (ValueError "cannot pickle") eq_refl)
      as (_ & Hopt & _).
    exact Hopt.
Defined.

Lemma generate_datasets_labels_by_position_witness :
  ∃ df_train train_idx val_idx,
    _generate_datasets ex_train
      (mkSeries DNumeric [Some (Num 0%Z); Some (Num 1%Z)])
      (Some ex_val) (Some (mkSeries DNumeric [Some (Num 5%Z)]))
    = Ok (df_train, train_idx, val_idx) ∧
    cell df_train LABEL 2 = Some (Some (Num 5%Z)) ∧
    cell df_train LABEL 4 = Some None.
Proof.
  destruct (generate_datasets_labels_by_position ex_train ex_val
              (mkSeries DNumeric [Some (Num 0%Z); Some (Num 1%Z)])
              (mkSeries DNumeric [Some (Num 5%Z)]) ex_train_wf ex_val_wf)
    as (df & train_idx & val_idx & Hrun & Hlabels).
  exists df, train_idx, val_idx. split; [exact Hrun|]. split.
  - apply (Hlabels 2). cbn. lia.
  - apply (Hlabels 4). cbn. lia.
Defined.
